(** * Scene browser: raster index and thumbnail pipeline

    A shallow embedding of the numeric and control-flow core of the
    plugin: [_src_from_href] (asset locator), the index compositor
    [_crop_assets_to_index_tif], [ThumbnailTask.run] and
    [PercentileStretchTask] ([_band_percentiles], [run]).

    numpy [float32] arrays are lists of IEEE-754 binary32 values (a raster
    flattened row by row), Python floats are binary64 values; both are
    [spec_float] with the operations of [SpecFloat] at the matching
    precision (round to nearest even).

    GDAL, numpy's percentile and the QGIS task runtime are external: their
    calls are events of a small state-and-exception monad over a [world]
    that scripts their answers.  An external call either raises (any
    [Exception]) or completes and is recorded; GDAL runs without
    [UseExceptions], so a failed open or read shows as [None].  Manifest
    entries and hrefs are strings; [SetConfigOption], [isCanceled] and
    [logMessage] do not raise. *)

From Stdlib Require Import ZArith List String Ascii Bool Lia.
From Stdlib Require Import Floats.SpecFloat.
From stdpp Require Import gmap strings.

Local Open Scope string_scope.
Local Open Scope list_scope.

(* ===================================================================== *)
(** * Floating point formats *)
(* ===================================================================== *)

Definition is_nan (x : spec_float) : bool :=
  match x with S754_nan => true | _ => false end.

(** [np.isfinite] *)
Definition isfinite (x : spec_float) : bool :=
  match x with S754_zero _ | S754_finite _ _ _ => true | _ => false end.

Definition is_zero (x : spec_float) : bool :=
  match x with S754_zero _ => true | _ => false end.

(** numpy [float32]. *)
Module F32.
Definition prec : Z := 24.
Definition emax : Z := 128.
Definition add := SFadd prec emax.
Definition sub := SFsub prec emax.
Definition mul := SFmul prec emax.
Definition div := SFdiv prec emax.
Definition valid := valid_binary prec emax.
Definition of_Z (n : Z) : spec_float := binary_normalize prec emax n 0 false.
(** Conversion of a wider binary value ([.astype("float32")], or a Python
    float scalar meeting a float32 array). *)
Definition round (x : spec_float) : spec_float :=
  match x with
  | S754_finite s m e => binary_round prec emax s m e
  | _ => x
  end.
End F32.

(** Python [float] (binary64). *)
Module F64.
Definition prec : Z := 53.
Definition emax : Z := 1024.
Definition add := SFadd prec emax.
Definition sub := SFsub prec emax.
Definition mul := SFmul prec emax.
Definition div := SFdiv prec emax.
Definition valid := valid_binary prec emax.
Definition of_Z (n : Z) : spec_float := binary_normalize prec emax n 0 false.
(** The decimal literal [n / 10^k], correctly rounded. *)
Definition decimal (n : Z) (k : Z) : spec_float := div (of_Z n) (of_Z (10 ^ k)).
End F64.

Abbreviation f32 := spec_float.
Abbreviation f64 := spec_float.

(** Comparisons of Python and numpy: with a NaN operand [>], [<], [<=] and
    [==] are false and [!=] is true. *)
Definition fgt (a b : spec_float) : bool := SFltb b a.
Definition flt (a b : spec_float) : bool := SFltb a b.
Definition fle (a b : spec_float) : bool := SFleb a b.
Definition feq (a b : spec_float) : bool := SFeqb a b.
Definition fne (a b : spec_float) : bool := negb (SFeqb a b).

(* ===================================================================== *)
(** * Python strings (ASCII) *)
(* ===================================================================== *)

Definition ascii_lower (c : ascii) : ascii :=
  let n := nat_of_ascii c in
  if (65 <=? n)%nat && (n <=? 90)%nat then ascii_of_nat (n + 32) else c.

Definition ascii_upper (c : ascii) : ascii :=
  let n := nat_of_ascii c in
  if (97 <=? n)%nat && (n <=? 122)%nat then ascii_of_nat (n - 32) else c.

Fixpoint str_map (f : ascii -> ascii) (s : string) : string :=
  match s with
  | EmptyString => EmptyString
  | String c s' => String (f c) (str_map f s')
  end.

(** [s.lower()] and [s.upper()]; the code compares the results with "ls"
    and "NBR" only, which no non-ASCII character maps into. *)
Definition lower : string -> string := str_map ascii_lower.
Definition upper : string -> string := str_map ascii_upper.

(** [s.startswith(p)] *)
Definition startswith (s p : string) : bool := String.prefix p s.

(** [s[n:]] *)
Fixpoint drop_chars (n : nat) (s : string) : string :=
  match n, s with
  | O, _ => s
  | S n', String _ s' => drop_chars n' s'
  | S _, EmptyString => EmptyString
  end.

Fixpoint lstrip (c : ascii) (s : string) : string :=
  match s with
  | String c' s' => if Ascii.eqb c' c then lstrip c s' else s
  | EmptyString => EmptyString
  end.

Fixpoint rstrip (c : ascii) (s : string) : string :=
  match s with
  | EmptyString => EmptyString
  | String c' s' =>
      match rstrip c s' with
      | EmptyString => if Ascii.eqb c' c then EmptyString else String c' EmptyString
      | r => String c' r
      end
  end.

(** [s.strip("_")] for a one-character set. *)
Definition strip (c : ascii) (s : string) : string := rstrip c (lstrip c s).

(* ===================================================================== *)
(** * Index compositor: the array math of [_crop_assets_to_index_tif] *)
(* ===================================================================== *)

(** [LS_SR_MULT = 0.0000275] and [LS_SR_ADD = -0.2] are Python floats. *)
Definition LS_SR_MULT : f64 := F64.decimal 275 7.
Definition LS_SR_ADD : f64 := F64.decimal (-2) 1.

(** The nodata sentinel [-9999.0]. *)
Definition NODATA : f32 := F32.of_Z (-9999).
Definition f32_one : f32 := F32.of_Z 1.
Definition f32_mone : f32 := F32.of_Z (-1).

(** [b * LS_SR_MULT + LS_SR_ADD] on a float32 array: the Python scalars
    take the array's dtype, both operations are float32. *)
Definition ls_scale (x : f32) : f32 :=
  F32.add (F32.mul x (F32.round LS_SR_MULT)) (F32.round LS_SR_ADD).

(** [prefix.lower() == "ls"] *)
Definition is_ls (prefix : string) : bool := String.eqb (lower prefix) "ls".

(** The two bands as they enter the index formula. *)
Definition scale_bands (prefix : string) (b1 b2 : list f32) : list f32 * list f32 :=
  if is_ls prefix then (map ls_scale b1, map ls_scale b2) else (b1, b2).

(** [(b1 - b2) / (b1 + b2)], one pixel; the errstate block only silences
    warnings. *)
Definition norm_diff (x1 x2 : f32) : f32 :=
  let denom := F32.add x1 x2 in
  F32.div (F32.sub x1 x2) denom.

(** [idx[~np.isfinite(idx)] = -9999.0] *)
Definition fill_nonfinite (q : f32) : f32 :=
  if isfinite q then q else NODATA.

(** [np.clip(x, lo, hi)] on floats: [min(max(x, lo), hi)], NaN kept. *)
Definition np_clip (x lo hi : f32) : f32 :=
  let y := if is_nan x then x else if fgt x lo then x else lo in
  if is_nan y then y else if flt y hi then y else hi.

(** [np.where(idx == -9999.0, -9999.0, np.clip(idx, -1.0, 1.0))] *)
Definition where_clip (q : f32) : f32 :=
  if feq q NODATA then NODATA else np_clip q f32_mone f32_one.

(** The cleaning step after the division. *)
Definition clean (q : f32) : f32 := where_clip (fill_nonfinite q).

Definition index_pixel (x1 x2 : f32) : f32 := clean (norm_diff x1 x2).

(** Elementwise combination of two arrays of one shape; numpy raises on a
    shape mismatch ([None]). *)
Fixpoint zip_same {A B C} (f : A -> B -> C) (l1 : list A) (l2 : list B)
  : option (list C) :=
  match l1, l2 with
  | nil, nil => Some nil
  | x :: l1', y :: l2' =>
      match zip_same f l1' l2' with
      | Some r => Some (f x y :: r)
      | None => None
      end
  | _, _ => None
  end.

(** The array written by [_crop_assets_to_index_tif] from the two arrays
    read off the co-registered rasters (flattened row by row). *)
Definition index_array (prefix : string) (b1 b2 : list f32) : option (list f32) :=
  let '(s1, s2) := scale_bands prefix b1 b2 in
  zip_same index_pixel s1 s2.

(** A pixel lies in the index domain [[-1, 1]]. *)
Definition in_unit (x : f32) : bool := fle f32_mone x && fle x f32_one.

(** The quotient array [(b1 - b2) / denom] before cleaning. *)
Definition quotient_array (prefix : string) (b1 b2 : list f32) : option (list f32) :=
  let '(s1, s2) := scale_bands prefix b1 b2 in
  zip_same norm_diff s1 s2.

(** The sign bit. *)
Definition sign_of (x : f32) : bool :=
  match x with
  | S754_zero s | S754_infinity s | S754_finite s _ _ => s
  | S754_nan => false
  end.

(* ===================================================================== *)
(** * The external world: GDAL, the file system, the task runtime *)
(* ===================================================================== *)

(** Python exceptions, all instances of [Exception]. *)
Inductive exn :=
| KeyError (key : string)            (* [d[k]] on a missing key *)
| IndexError (msg : string)          (* [l[i]] out of range *)
| AttributeError (msg : string)      (* a method called on [None] *)
| ValueError (msg : string)          (* numpy shape mismatch *)
| RuntimeError (msg : string)        (* raised by the plugin itself *)
| ExternalError (cls msg : string).  (* raised inside an external call *)

(** ["c" in s] for a one-character string. *)
Fixpoint has_char (c : ascii) (s : string) : bool :=
  match s with
  | EmptyString => false
  | String c' s' => Ascii.eqb c' c || has_char c s'
  end.

(** [repr(s)] of a Python string: the quote is the apostrophe, or the
    double quote when the string has an apostrophe and no double quote;
    the quote in use and the backslash are escaped, tab, newline and
    carriage return are written as their letters, other control characters
    as two hex digits.  Bytes of printable non-ASCII text are kept. *)
Definition apostrophe : ascii := ascii_of_nat 39.
Definition double_quote : ascii := ascii_of_nat 34.
Definition backslash : ascii := ascii_of_nat 92.

Definition hex_digit (n : nat) : ascii :=
  match String.get n "0123456789abcdef" with
  | Some c => c
  | None => "0"%char
  end.

Definition repr_char (quote c : ascii) : string :=
  let n := nat_of_ascii c in
  if Ascii.eqb c quote || Ascii.eqb c backslash then String backslash (String c EmptyString)
  else if (n =? 9)%nat then String backslash "t"
  else if (n =? 10)%nat then String backslash "n"
  else if (n =? 13)%nat then String backslash "r"
  else if (n <? 32)%nat || (n =? 127)%nat then
    String backslash (String "x" (String (hex_digit (n / 16))
                                    (String (hex_digit (n mod 16)) EmptyString)))
  else String c EmptyString.

Fixpoint repr_chars (quote : ascii) (s : string) : string :=
  match s with
  | EmptyString => EmptyString
  | String c s' => repr_char quote c +:+ repr_chars quote s'
  end.

Definition py_repr (s : string) : string :=
  let quote := if has_char apostrophe s && negb (has_char double_quote s)
               then double_quote else apostrophe in
  String quote (repr_chars quote s +:+ String quote EmptyString).

(** [str(e)]; [str(KeyError(k))] is [repr(k)]. *)
Definition py_str (e : exn) : string :=
  match e with
  | KeyError k => py_repr k
  | IndexError m | AttributeError m | ValueError m | RuntimeError m => m
  | ExternalError _ m => m
  end.

(** A raster band as GDAL hands it out. *)
Record band := {
  band_data : option (list spec_float);  (* [ReadAsArray()], [None] on a failed read *)
  band_nodata : option f64;              (* [GetNoDataValue()] *)
  band_stats : option (f64 * f64);       (* min, max of [GetStatistics(True, True)]; [None]: it raises *)
  band_minmax : option (f64 * f64);      (* [ComputeRasterMinMax(True)]; [None]: it raises *)
}.

Record dataset := {
  ds_bands : list band;
  RasterXSize : Z;
  RasterYSize : Z;
  GeoTransform : list f64;
  Projection : string;
}.

(** [ds.GetRasterBand(i)]: bands count from 1; band 0 and bands past the
    last one are [None]. *)
Definition GetRasterBand (ds : dataset) (band_index : nat) : option band :=
  match band_index with
  | O => None
  | S i => nth_error (ds_bands ds) i
  end.

(** A bounding box [(xmin, ymin, xmax, ymax)]. *)
Definition BoundingBox : Type := f64 * f64 * f64 * f64.

(** [scaleParams] entry [[src_min, src_max, dst_min, dst_max]]. *)
Definition scale_params : Type := f64 * f64 * f64 * f64.

(** Completed external calls, with the arguments that matter. *)
Inductive event :=
| EvMakedirs (dir : string)
| EvTranslateTif (out src : string) (projWin : list f64) (size : option Z)
| EvWarp (out : string) (bounds : list f64) (width height : Z)
| EvOpen (path : string)
| EvCreate (path : string) (xsize ysize : Z)
| EvSetGeo (path : string) (geotransform : list f64) (projection : string)
| EvWriteArray (path : string) (arr : list f32)
| EvSetNoDataValue (path : string) (v : f32)
| EvBuildVRT (out : string) (srcs : list string)
| EvTranslatePng (out src : string) (size : option Z)
    (scaleParams : list scale_params) (noData : option f32)
| EvLayer (path title : string)
| EvPoll (canceled : bool).

Record world := {
  w_clock : nat;                        (* external calls started so far *)
  w_fault : nat -> option exn;          (* the call started at this clock raises *)
  w_cancel : nat -> bool;               (* the cancel flag as seen at this clock *)
  w_open : string -> option dataset;    (* [gdal.Open]: [None] when GDAL cannot open *)
  w_layer_valid : string -> bool;       (* [QgsRasterLayer(path).isValid()] *)
  w_percentile : list f32 -> Z -> f64;  (* [float(np.percentile(arr, q))] *)
  w_uid : string;                       (* [uuid.uuid4().hex] *)
  w_config : gmap string string;        (* GDAL configuration options *)
  w_trace : list event;                 (* completed calls, oldest first *)
  w_log : list string;                  (* [QgsMessageLog] *)
}.

(** Outcome of a piece of Python code. *)
Inductive res (A : Type) :=
| Val (a : A)
| Raise (e : exn).
Arguments Val {A} a.
Arguments Raise {A} e.

Definition M (A : Type) : Type := world -> res A * world.

Definition ret {A} (a : A) : M A := fun w => (Val a, w).

Definition bind {A B} (m : M A) (k : A -> M B) : M B :=
  fun w => match m w with
           | (Val a, w') => k a w'
           | (Raise e, w') => (Raise e, w')
           end.

Definition raise {A} (e : exn) : M A := fun w => (Raise e, w).

(** [try: body  except Exception as e: handler(e)] *)
Definition try_except {A} (body : M A) (handler : exn -> M A) : M A :=
  fun w => match body w with
           | (Val a, w') => (Val a, w')
           | (Raise e, w') => handler e w'
           end.

Notation "'do' x <- m ; k" := (bind m (fun x => k))
  (at level 10, x pattern, m at level 100, k at level 200).
Notation "'exec' m ; k" := (bind m (fun _ => k))
  (at level 10, m at level 100, k at level 200).

Definition set_clock (n : nat) (w : world) : world :=
  {| w_clock := n; w_fault := w_fault w; w_cancel := w_cancel w; w_open := w_open w;
     w_layer_valid := w_layer_valid w; w_percentile := w_percentile w;
     w_uid := w_uid w; w_config := w_config w; w_trace := w_trace w; w_log := w_log w |}.

Definition set_trace (t : list event) (w : world) : world :=
  {| w_clock := w_clock w; w_fault := w_fault w; w_cancel := w_cancel w; w_open := w_open w;
     w_layer_valid := w_layer_valid w; w_percentile := w_percentile w;
     w_uid := w_uid w; w_config := w_config w; w_trace := t; w_log := w_log w |}.

Definition set_config (c : gmap string string) (w : world) : world :=
  {| w_clock := w_clock w; w_fault := w_fault w; w_cancel := w_cancel w; w_open := w_open w;
     w_layer_valid := w_layer_valid w; w_percentile := w_percentile w;
     w_uid := w_uid w; w_config := c; w_trace := w_trace w; w_log := w_log w |}.

Definition set_log (l : list string) (w : world) : world :=
  {| w_clock := w_clock w; w_fault := w_fault w; w_cancel := w_cancel w; w_open := w_open w;
     w_layer_valid := w_layer_valid w; w_percentile := w_percentile w;
     w_uid := w_uid w; w_config := w_config w; w_trace := w_trace w; w_log := l |}.

Definition record (ev : event) (w : world) : world :=
  set_trace (w_trace w ++ [ev]) w.

(** An external call: it starts at the current clock, raises when the world
    says so, and is recorded once it has completed. *)
Definition ext (ev : event) : M unit :=
  fun w => let w' := set_clock (S (w_clock w)) w in
           match w_fault w (w_clock w) with
           | Some e => (Raise e, w')
           | None => (Val tt, record ev w')
           end.

(** [gdal.Open(path)]: raises like any external call, may return [None]. *)
Definition gdal_Open (path : string) : M (option dataset) :=
  exec ext (EvOpen path); fun w => (Val (w_open w path), w).

(** [self.isCanceled()]: reads the flag, never raises. *)
Definition isCanceled : M bool :=
  fun w => let c := w_cancel w (w_clock w) in (Val c, record (EvPoll c) w).

(** [gdal.SetConfigOption(k, v)] *)
Definition SetConfigOption (k v : string) : M unit :=
  fun w => (Val tt, set_config (<[k := v]> (w_config w)) w).

(** [QgsMessageLog.logMessage(msg, ...)]: appends to the host's log. *)
Definition logMessage (msg : string) : M unit :=
  fun w => (Val tt, set_log (w_log w ++ [msg]) w).

Definition uuid4_hex : M string := fun w => (Val (w_uid w), w).

Definition np_percentile (arr : list f32) (q : Z) : M f64 :=
  fun w => (Val (w_percentile w arr q), w).

(** [os.path.join(d, name)]: an absolute [name] discards [d]. *)
Fixpoint ends_with_slash (s : string) : bool :=
  match s with
  | EmptyString => false
  | String c EmptyString => Ascii.eqb c "/"
  | String _ s' => ends_with_slash s'
  end.

Definition path_join (d name : string) : string :=
  if String.prefix "/" name then name
  else match d with
       | EmptyString => name
       | _ => if ends_with_slash d then d +:+ name else d +:+ "/" +:+ name
       end.

(** [l[i]] on a Python list. *)
Definition py_index {A} (l : list A) (i : nat) : M A :=
  match nth_error l i with
  | Some x => ret x
  | None => raise (IndexError "list index out of range")
  end.

(** [d[k]] on a Python dict. *)
Definition py_getitem {V} (d : gmap string V) (k : string) : M V :=
  match d !! k with
  | Some v => ret v
  | None => raise (KeyError k)
  end.

(** A scene's asset manifest: asset name to asset object (itself a dict). *)
Abbreviation manifest := (gmap string (gmap string string)).

(** [k in d] *)
Definition py_in {V} (k : string) (d : gmap string V) : bool :=
  match d !! k with Some _ => true | None => false end.

(* ===================================================================== *)
(** * Asset locator *)
(* ===================================================================== *)

(** [_src_from_href(href)]; the empty string stands for every falsy href. *)
Definition _src_from_href (href : string) : M string :=
  if String.eqb href "" then ret "/vsicurl/"
  else if startswith href "s3://" then
    exec SetConfigOption "AWS_NO_SIGN_REQUEST" "YES";
    exec SetConfigOption "AWS_REQUEST_PAYER" "requester";
    ret ("/vsis3/" +:+ drop_chars (String.length "s3://") href)
  else if startswith href "http://" || startswith href "https://" then
    ret ("/vsicurl/" +:+ href)
  else ret href.

(** The path and the GDAL configuration [_src_from_href] leaves behind. *)
Definition src_path (href : string) : string :=
  if String.eqb href "" then "/vsicurl/"
  else if startswith href "s3://" then "/vsis3/" +:+ drop_chars (String.length "s3://") href
  else if startswith href "http://" || startswith href "https://" then "/vsicurl/" +:+ href
  else href.

Definition src_config (href : string) (c : gmap string string) : gmap string string :=
  if String.eqb href "" then c
  else if startswith href "s3://" then
    <["AWS_REQUEST_PAYER" := "requester"]> (<["AWS_NO_SIGN_REQUEST" := "YES"]> c)
  else c.

(* ===================================================================== *)
(** * Thumbnail renderer: [ThumbnailTask] *)
(* ===================================================================== *)

(** The SWIR2 fallback shared by the thumbnail and the index pipelines:
    [if mode == "NBR" and a2 not in assets_dict and "swir2" in assets_dict:
       a2 = "swir2"], [mode] already upper-cased. *)
Definition nbr_fallback (mode a2 : string) (assets_dict : manifest) : string :=
  if String.eqb mode "NBR" && negb (py_in a2 assets_dict) && py_in "swir2" assets_dict
  then "swir2" else a2.

(** Without GDAL exceptions a failed open, band lookup or read yields
    [None], and the next attribute access raises. *)
Definition deref (ds : option dataset) (attr : string) : M dataset :=
  match ds with
  | Some d => ret d
  | None => raise (AttributeError ("'NoneType' object has no attribute '" +:+ attr +:+ "'"))
  end.

(** [ds.GetRasterBand(1).ReadAsArray().astype("float32")] *)
Definition read_band1_f32 (d : dataset) : M (list f32) :=
  match nth_error (ds_bands d) 0 with
  | None => raise (AttributeError "'NoneType' object has no attribute 'ReadAsArray'")
  | Some b =>
      match band_data b with
      | None => raise (AttributeError "'NoneType' object has no attribute 'astype'")
      | Some arr => ret (map F32.round arr)
      end
  end.

(** [(b1 - b2) / (b1 + b2)] on two arrays of one shape, as the two
    crops of one request are (both [size_px] by [size_px]); arrays of
    different sizes are taken to raise, where numpy first tries to
    broadcast them. *)
Definition np_norm_diff (b1 b2 : list f32) : M (list f32) :=
  match zip_same norm_diff b1 b2 with
  | Some idx => ret idx
  | None => raise (ValueError "operands could not be broadcast together")
  end.

(** [_band_minmax(ds, band_index)]: both attempts sit in their own
    [try/except], a missing band makes both raise. *)
Definition usable_range (r : option (f64 * f64)) : option (f64 * f64) :=
  match r with
  | Some (mn, mx) => if fne mn mx then Some (mn, mx) else None
  | None => None
  end.

Definition _band_minmax (ds : dataset) (band_index : nat) : f64 * f64 :=
  let b := GetRasterBand ds band_index in
  match usable_range (match b with Some b' => band_stats b' | None => None end) with
  | Some r => r
  | None =>
      match usable_range (match b with Some b' => band_minmax b' | None => None end) with
      | Some r => r
      | None => (F64.of_Z 0, F64.of_Z 1)
      end
  end.

(** [_fix(mn, mx)] *)
Definition _fix (r : f64 * f64) : f64 * f64 :=
  let '(mn, mx) := r in
  if feq mn mx then (mn, F64.add mn (F64.of_Z 1)) else (mn, mx).

Module ThumbnailTask.

Record t := {
  cache_dir : string;
  assets_dict : manifest;
  rgb_assets : list string;
  bbox : BoundingBox;        (* (xmin, ymin, xmax, ymax) *)
  size_px : Z;
  png_path : option string;
  error : option string;
}.

Definition set_png_path (self : t) (p : string) : t :=
  {| cache_dir := cache_dir self; assets_dict := assets_dict self;
     rgb_assets := rgb_assets self; bbox := bbox self; size_px := size_px self;
     png_path := Some p; error := error self |}.

Definition set_error (self : t) (msg : string) : t :=
  {| cache_dir := cache_dir self; assets_dict := assets_dict self;
     rgb_assets := rgb_assets self; bbox := bbox self; size_px := size_px self;
     png_path := png_path self; error := Some msg |}.

(** [projWin=[xmin, ymax, xmax, ymin]] *)
Definition projWin (self : t) : list f64 :=
  let '(xmin, ymin, xmax, ymax) := bbox self in [xmin; ymax; xmax; ymin].

Definition tif_path (self : t) (uid a : string) : string :=
  path_join (cache_dir self) ("thumb_" +:+ uid +:+ "_" +:+ a +:+ ".tif").

(** One per-band crop: [gdal.Translate(out_tif, src, ...)], at
    [size_px] in index mode and at native size in direct mode. *)
Definition crop (self : t) (uid a : string) (size : option Z) : M string :=
  do asset <- py_getitem (assets_dict self) a;
  do href <- py_getitem asset "href";
  do src <- _src_from_href href;
  let out_tif := tif_path self uid a in
  exec ext (EvTranslateTif out_tif src (projWin self) size);
  ret out_tif.

(** [rgb_assets and isinstance(rgb_assets[0], str)
     and rgb_assets[0].startswith("__")] *)
Definition is_index_mode (rgb : list string) : bool :=
  match rgb with
  | m :: _ => startswith m "__"
  | [] => false
  end.

(** [scale = [-1.0, 1.0, 0.0, 255.0]] *)
Definition index_scale : scale_params :=
  (F64.of_Z (-1), F64.of_Z 1, F64.of_Z 0, F64.of_Z 255).

(** The array the index branch writes: non-finite quotients become the
    sentinel, nothing else is touched. *)
Definition index_thumb_array (b1 b2 : list f32) : M (list f32) :=
  do idx <- np_norm_diff b1 b2;
  ret (map fill_nonfinite idx).

(** The index branch of [run]; the driver lookup and the cache flushes
    around the write are part of [EvCreate] and [EvWriteArray]. *)
Definition run_index (self : t) (uid : string) : M (bool * t) :=
  do m <- py_index (rgb_assets self) 0;
  let mode := upper (strip "_" m) in
  do a1 <- py_index (rgb_assets self) 1;
  do a2 <- py_index (rgb_assets self) 2;
  let a2 := nbr_fallback mode a2 (assets_dict self) in
  do t1 <- crop self uid a1 (Some (size_px self));
  do t2 <- crop self uid a2 (Some (size_px self));
  do ds1 <- gdal_Open t1;
  do ds2 <- gdal_Open t2;
  do d1 <- deref ds1 "GetRasterBand";
  do b1 <- read_band1_f32 d1;
  do d2 <- deref ds2 "GetRasterBand";
  do b2 <- read_band1_f32 d2;
  do idx <- index_thumb_array b1 b2;
  let out_idx := path_join (cache_dir self) ("thumb_" +:+ uid +:+ "_" +:+ mode +:+ ".tif") in
  exec ext (EvCreate out_idx (RasterXSize d1) (RasterYSize d1));
  exec ext (EvSetGeo out_idx (GeoTransform d1) (Projection d1));
  exec ext (EvWriteArray out_idx idx);
  exec ext (EvSetNoDataValue out_idx NODATA);
  let vrt := path_join (cache_dir self) ("thumb_" +:+ uid +:+ "_" +:+ mode +:+ ".vrt") in
  exec ext (EvBuildVRT vrt [out_idx; out_idx; out_idx]);
  let png := path_join (cache_dir self) ("thumb_" +:+ uid +:+ ".png") in
  exec ext (EvTranslatePng png vrt None [index_scale; index_scale; index_scale]
              (Some NODATA));
  ret (true, set_png_path self png).

(** The crop loop of the direct branch; [None] is the early
    [return False] after a poll that found the flag set. *)
Fixpoint crop_loop (self : t) (uid : string) (names tifs : list string)
  : M (option (list string)) :=
  match names with
  | [] => ret (Some tifs)
  | a :: rest =>
      do out_tif <- crop self uid a None;
      do c <- isCanceled;
      if c then ret None else crop_loop self uid rest (tifs ++ [out_tif])
  end.

Definition byte_scale (r : f64 * f64) : scale_params :=
  (fst r, snd r, F64.of_Z 0, F64.of_Z 255).

(** The direct three-band branch of [run]. *)
Definition run_direct (self : t) (uid : string) : M (bool * t) :=
  do cropped <- crop_loop self uid (rgb_assets self) [];
  match cropped with
  | None => ret (false, self)
  | Some tifs =>
      let vrt := path_join (cache_dir self) ("thumb_" +:+ uid +:+ ".vrt") in
      exec ext (EvBuildVRT vrt tifs);
      do ds <- gdal_Open vrt;
      match ds with
      | None => raise (RuntimeError "No se pudo abrir el VRT para calcular min/max.")
      | Some d =>
          let r1 := _fix (_band_minmax d 1) in
          let r2 := _fix (_band_minmax d 2) in
          let r3 := _fix (_band_minmax d 3) in
          let png := path_join (cache_dir self) ("thumb_" +:+ uid +:+ ".png") in
          exec ext (EvTranslatePng png vrt (Some (size_px self))
                      [byte_scale r1; byte_scale r2; byte_scale r3] None);
          exec logMessage ("Thumbnail listo: " +:+ png);
          ret (true, set_png_path self png)
      end
  end.

(** The body of the [try] block. *)
Definition run_body (self : t) : M (bool * t) :=
  exec ext (EvMakedirs (cache_dir self));
  do uid <- uuid4_hex;
  if is_index_mode (rgb_assets self) then run_index self uid
  else run_direct self uid.

(** The [except Exception as e] block. *)
Definition on_error (self : t) (e : exn) : M (bool * t) :=
  let self' := set_error self (py_str e) in
  exec logMessage ("Thumbnail error: " +:+ py_str e);
  ret (false, self').

Definition run (self : t) : M (bool * t) :=
  try_except (run_body self) (on_error self).

End ThumbnailTask.

(* ===================================================================== *)
(** * Band statistics estimator: [PercentileStretchTask] *)
(* ===================================================================== *)

(** [float(x)] of a numpy float32: the same number as a Python float. *)
Definition to_f64 (x : f32) : f64 :=
  match x with
  | S754_finite s m e => binary_round F64.prec F64.emax s m e
  | _ => x
  end.

(** [np.min], [np.max] ([np.nanmin], [np.nanmax]) of a non-empty array. *)
Definition np_min (x : f32) (rest : list f32) : f32 :=
  fold_left (fun acc y => if flt y acc then y else acc) rest x.

Definition np_max (x : f32) (rest : list f32) : f32 :=
  fold_left (fun acc y => if fgt y acc then y else acc) rest x.

(** [arr[arr != nodata]] then [arr[np.isfinite(arr)]] *)
Definition valid_samples (nodata : option f64) (arr : list f32) : list f32 :=
  let arr := match nodata with
             | Some nd => List.filter (fun x => fne x (F32.round nd)) arr
             | None => arr
             end in
  List.filter isfinite arr.

Module PercentileStretchTask.

Definition range : Type := f64 * f64.

Record t := {
  raster_path : string;
  p_low : Z;
  p_high : Z;
  result : option (range * range * range);   (* {"r": .., "g": .., "b": ..} *)
  error : option string;
}.

Definition set_result (self : t) (r : range * range * range) : t :=
  {| raster_path := raster_path self; p_low := p_low self; p_high := p_high self;
     result := Some r; error := error self |}.

Definition set_error (self : t) (msg : string) : t :=
  {| raster_path := raster_path self; p_low := p_low self; p_high := p_high self;
     result := result self; error := Some msg |}.

(** The part of [_band_percentiles] after the read, on the float32
    array [arr] (already through [astype]). *)
Definition stretch_range (self : t) (nodata : option f64) (arr : list f32) : M range :=
  let arr := valid_samples nodata arr in
  if (length arr <? 100)%nat then
    let mn := match arr with x :: rest => to_f64 (np_min x rest) | [] => F64.of_Z 0 end in
    let mx := match arr with x :: rest => to_f64 (np_max x rest) | [] => F64.of_Z 1 end in
    let mx := if fle mx mn then F64.add mn (F64.of_Z 1) else mx in
    ret (mn, mx)
  else
    do vmin <- np_percentile arr (p_low self);
    do vmax <- np_percentile arr (p_high self);
    if fle vmax vmin then
      let vmin := match arr with x :: rest => to_f64 (np_min x rest) | [] => vmin end in
      let vmax := match arr with x :: rest => to_f64 (np_max x rest) | [] => vmax end in
      let vmax := if fle vmax vmin then F64.add vmin (F64.of_Z 1) else vmax in
      ret (vmin, vmax)
    else ret (vmin, vmax).

Definition _band_percentiles (self : t) (band_index : nat) : M range :=
  do ds <- gdal_Open (raster_path self);
  match ds with
  | None => raise (RuntimeError ("No se pudo abrir raster: " +:+ raster_path self))
  | Some d =>
      match GetRasterBand d band_index with
      | None => raise (AttributeError "'NoneType' object has no attribute 'ReadAsArray'")
      | Some band =>
          match band_data band with
          | None => raise (RuntimeError "No se pudo leer banda.")
          | Some arr => stretch_range self (band_nodata band) (map F32.round arr)
          end
      end
  end.

Definition run_body (self : t) : M (bool * t) :=
  do r <- _band_percentiles self 1;
  do c <- isCanceled;
  if c then ret (false, self) else
  do g <- _band_percentiles self 2;
  do c <- isCanceled;
  if c then ret (false, self) else
  do b <- _band_percentiles self 3;
  do c <- isCanceled;
  if c then ret (false, self) else
  ret (true, set_result self (r, g, b)).

Definition on_error (self : t) (e : exn) : M (bool * t) :=
  let self' := set_error self (py_str e) in
  exec logMessage (py_str e);
  ret (false, self').

Definition run (self : t) : M (bool * t) :=
  try_except (run_body self) (on_error self).

End PercentileStretchTask.

(* ===================================================================== *)
(** * Index raster pipeline: [_crop_assets_to_index_tif] *)
(* ===================================================================== *)

Module SceneBrowserDock.

Definition tif_path (out_dir prefix uid asset_name : string) : string :=
  path_join out_dir (prefix +:+ "_" +:+ uid +:+ "_" +:+ asset_name +:+ ".tif").

(** [projWin=[bbox[0], bbox[3], bbox[2], bbox[1]]] *)
Definition projWin (box : BoundingBox) : list f64 :=
  let '(xmin, ymin, xmax, ymax) := box in [xmin; ymax; xmax; ymin].

(** [_crop_one(asset_name)] *)
Definition _crop_one (assets_dict : manifest) (out_dir prefix uid : string)
    (box : BoundingBox) (asset_name : string) : M string :=
  do asset <- py_getitem assets_dict asset_name;
  do href <- py_getitem asset "href";
  do src <- _src_from_href href;
  let out_tif := tif_path out_dir prefix uid asset_name in
  exec ext (EvTranslateTif out_tif src (projWin box) None);
  ret out_tif.

(** [xmin, ymin, xmax, ymax] of the grid of [ds1], in Python floats. *)
Definition grid_bounds (d : dataset) : M (list f64) :=
  do x0 <- py_index (GeoTransform d) 0;
  do y0 <- py_index (GeoTransform d) 3;
  do dx <- py_index (GeoTransform d) 1;
  do dy <- py_index (GeoTransform d) 5;
  let xsize := F64.of_Z (RasterXSize d) in
  let ysize := F64.of_Z (RasterYSize d) in
  let xmax := F64.add x0 (F64.mul dx xsize) in
  let ymin := F64.add y0 (F64.mul dy ysize) in
  ret [x0; ymin; xmax; y0].

(** [_crop_assets_to_index_tif], after the buffer's bounding box [box] and
    the cache directory [out_dir] have been obtained; returns the
    written path and array. *)
Definition _crop_assets_to_index_tif (assets_dict : manifest)
    (mode a1 a2 prefix layer_title : string) (box : BoundingBox) (out_dir : string)
  : M (string * list f32) :=
  do uid <- uuid4_hex;
  let a2 := nbr_fallback (upper mode) a2 assets_dict in
  do t1 <- _crop_one assets_dict out_dir prefix uid box a1;
  do t2 <- _crop_one assets_dict out_dir prefix uid box a2;
  do ds1 <- gdal_Open t1;
  do ds2 <- gdal_Open t2;
  do d1 <- deref ds1 "GetGeoTransform";
  do bounds <- grid_bounds d1;
  let t2m := path_join out_dir (prefix +:+ "_" +:+ uid +:+ "_" +:+ a2 +:+ "_match.tif") in
  exec ext (EvWarp t2m bounds (RasterXSize d1) (RasterYSize d1));
  do ds2m <- gdal_Open t2m;
  do b1 <- read_band1_f32 d1;
  do d2m <- deref ds2m "GetRasterBand";
  do b2 <- read_band1_f32 d2m;
  match index_array prefix b1 b2 with
  | None => raise (ValueError "operands could not be broadcast together")
  | Some idx =>
      let out_idx := path_join out_dir (prefix +:+ "_" +:+ uid +:+ "_" +:+ mode +:+ ".tif") in
      exec ext (EvCreate out_idx (RasterXSize d1) (RasterYSize d1));
      exec ext (EvSetGeo out_idx (GeoTransform d1) (Projection d1));
      exec ext (EvWriteArray out_idx idx);
      exec ext (EvSetNoDataValue out_idx NODATA);
      exec ext (EvLayer out_idx layer_title);
      fun w =>
        if w_layer_valid w out_idx then (Val (out_idx, idx), w)
        else (Raise (RuntimeError "No se pudo crear la capa de índice"), w)
  end.

End SceneBrowserDock.

(* ===================================================================== *)
(** * Trace shapes and sample inputs *)
(* ===================================================================== *)

(** The events [w'] has on top of [w]. *)
Definition new_events (w w' : world) (evs : list event) : Prop :=
  w_trace w' = (w_trace w ++ evs)%list.

Definition is_crop (ev : event) : bool :=
  match ev with EvTranslateTif _ _ _ _ => true | _ => false end.

Definition is_poll (ev : event) : bool :=
  match ev with EvPoll _ => true | _ => false end.

(** Writes of the composite: the VRT and the PNG. *)
Definition is_output (ev : event) : bool :=
  match ev with
  | EvBuildVRT _ _ | EvTranslatePng _ _ _ _ _ => true
  | _ => false
  end.

(** Every event selected by [step] is directly followed by a poll. *)
Fixpoint polled_after (step : event -> bool) (evs : list event) : bool :=
  match evs with
  | [] => true
  | ev :: rest =>
      (if step ev then match rest with
                       | EvPoll _ :: _ => true
                       | _ => false
                       end
       else true) && polled_after step rest
  end.

(** Events of the crop loop of the direct branch, by loop outcome. *)
Inductive loop_shape : res (option (list string)) -> list event -> Prop :=
| loop_done tifs : loop_shape (Val (Some tifs)) []
| loop_raise e : loop_shape (Raise e) []
| loop_cancel out src pw sz :
    loop_shape (Val None) [EvTranslateTif out src pw sz; EvPoll true]
| loop_step out src pw sz r evs :
    loop_shape r evs ->
    loop_shape r (EvTranslateTif out src pw sz :: EvPoll false :: evs).

(** A computation that touches neither the trace nor the clock. *)
Definition silent {A} (m : M A) : Prop :=
  forall w r w', m w = (r, w') -> w_trace w' = w_trace w.

(** Every event the computation adds satisfies [P]. *)
Definition emits {A} (P : event -> Prop) (m : M A) : Prop :=
  forall w r w', m w = (r, w') -> exists evs, new_events w w' evs /\ Forall P evs.

(** [logMessage(msg)] as a world update. *)
Definition log_line (msg : string) (w : world) : world :=
  set_log (w_log w ++ [msg]) w.

(** A world where nothing fails and nobody cancels. *)
Definition world0 : world :=
  {| w_clock := 0; w_fault := fun _ => None; w_cancel := fun _ => false;
     w_open := fun _ => None; w_layer_valid := fun _ => true;
     w_percentile := fun _ _ => S754_nan; w_uid := "0f";
     w_config := ∅; w_trace := []; w_log := [] |}.


(** The index math of the compositor without its clip: sensor scaling by
    request prefix, the quotient, non-finite values to the sentinel. *)
Definition scaled_index_unclipped (prefix : string) (b1 b2 : list f32)
  : option (list f32) :=
  let '(s1, s2) := scale_bands prefix b1 b2 in
  zip_same (fun x y => fill_nonfinite (norm_diff x y)) s1 s2.

(** Sample inputs: a manifest, a raster, and tasks on an AOI. *)
Definition asset_at (href : string) : gmap string string := {[ "href" := href ]}.

Definition s2_assets : manifest :=
  <["red" := asset_at "https://e84.example/B04.tif"]>
  (<["green" := asset_at "https://e84.example/B03.tif"]>
  (<["blue" := asset_at "https://e84.example/B02.tif"]>
  (<["nir" := asset_at "https://e84.example/B08.tif"]>
  (<["swir2" := asset_at "s3://e84-bucket/B12.tif"]> ∅)))).

Definition ls_assets : manifest :=
  <["red" := asset_at "https://pc.example/B4.TIF"]>
  (<["nir08" := asset_at "https://pc.example/B5.TIF"]> ∅).

Definition aoi : BoundingBox :=
  (F64.decimal (-7460) 2, F64.decimal (-912) 2, F64.decimal (-7452) 2, F64.decimal (-904) 2).

Definition band_of (data : list Z) (lo hi : Z) : band :=
  {| band_data := Some (map F64.of_Z data); band_nodata := None;
     band_stats := Some (F64.of_Z lo, F64.of_Z hi); band_minmax := None |}.

Definition raster_of (bands : list band) : dataset :=
  {| ds_bands := bands; RasterXSize := 2; RasterYSize := 1;
     GeoTransform := map F64.of_Z [0; 1; 0; 0; 0; -1]%Z; Projection := "EPSG:4326" |}.

Definition rgb_raster : dataset :=
  raster_of [band_of [1200; 900]%Z 900 1200; band_of [800; 800]%Z 800 800;
             band_of [300; 500]%Z 300 500].

Definition rgb_task : ThumbnailTask.t :=
  {| ThumbnailTask.cache_dir := "/c"; ThumbnailTask.assets_dict := s2_assets;
     ThumbnailTask.rgb_assets := ["red"; "green"; "blue"]; ThumbnailTask.bbox := aoi;
     ThumbnailTask.size_px := 512; ThumbnailTask.png_path := None;
     ThumbnailTask.error := None |}.

Definition index_task (assets : manifest) (roles : list string) : ThumbnailTask.t :=
  {| ThumbnailTask.cache_dir := "/c"; ThumbnailTask.assets_dict := assets;
     ThumbnailTask.rgb_assets := roles; ThumbnailTask.bbox := aoi;
     ThumbnailTask.size_px := 512; ThumbnailTask.png_path := None;
     ThumbnailTask.error := None |}.

Definition stretch_task : PercentileStretchTask.t :=
  {| PercentileStretchTask.raster_path := "/c/s2_0f.vrt"; PercentileStretchTask.p_low := 2;
     PercentileStretchTask.p_high := 98; PercentileStretchTask.result := None;
     PercentileStretchTask.error := None |}.

(** A world that opens every path as [open] says and raises the flag from
    clock [flag_from] on. *)
Definition world_with (open : string -> option dataset) (flag_from : nat) : world :=
  {| w_clock := 0; w_fault := fun _ => None; w_cancel := fun n => (flag_from <=? n)%nat;
     w_open := open; w_layer_valid := fun _ => true;
     w_percentile := fun _ _ => S754_nan; w_uid := "0f";
     w_config := ∅; w_trace := []; w_log := [] |}.

(** Every path opens as a one-band raster: the first crop with the data
    [nir], every other path with the data [other]. *)
Definition open_pair (first : string) (nir other : list Z) (path : string)
  : option dataset :=
  if String.eqb path first then Some (raster_of [band_of nir 0 1])
  else Some (raster_of [band_of other 0 1]).

Definition is_write (ev : event) : bool :=
  match ev with EvWriteArray _ _ => true | _ => false end.

(** A Landsat NDVI thumbnail, an NBR thumbnail on a Sentinel-2 manifest
    that lists "swir2" only, and a thumbnail over an empty manifest. *)
Definition ls_ndvi_task : ThumbnailTask.t :=
  index_task ls_assets ["__NDVI__"; "nir08"; "red"].

Definition s2_nbr_task : ThumbnailTask.t :=
  index_task s2_assets ["__NBR__"; "nir"; "swir22"].

Definition no_assets_task : ThumbnailTask.t :=
  index_task ∅ ["red"; "green"; "blue"].

Definition quiet_world (open : string -> option dataset) : world :=
  world_with open 1000.

(** A raster whose three bands hold the one sample [2^60]. *)
Definition huge_raster : dataset :=
  raster_of [band_of [2 ^ 60]%Z 0 1; band_of [2 ^ 60]%Z 0 1; band_of [2 ^ 60]%Z 0 1].

(** What the cleaning step does to one quotient [q]. *)
Definition cleaned_as_claimed (q : f32) : Prop :=
  (isfinite q = false -> clean q = NODATA) /\
  (isfinite q = true -> feq q NODATA = false ->
     clean q = np_clip q f32_mone f32_one /\ in_unit (clean q) = true) /\
  (feq q NODATA = true -> clean q = NODATA) /\
  (feq (clean q) NODATA = false -> in_unit (clean q) = true).

(** An NDVI request on the Sentinel-2 sample, with the cropped rasters
    holding the given near-infrared and red values. *)
Definition ndvi_request : M (string * list f32) :=
  SceneBrowserDock._crop_assets_to_index_tif s2_assets "NDVI" "nir" "red" "s2"
    "NDVI | scene" aoi "/p".

Definition ndvi_world (nir red : list Z) : world :=
  quiet_world (open_pair "/p/s2_0f_nir.tif" nir red).

(** The same request on the Landsat sample. *)
Definition ls_ndvi_request : M (string * list f32) :=
  SceneBrowserDock._crop_assets_to_index_tif ls_assets "NDVI" "nir08" "red" "ls"
    "NDVI | scene" aoi "/p".

Definition ls_ndvi_world (nir red : list Z) : world :=
  quiet_world (open_pair "/p/ls_0f_nir08.tif" nir red).

(* ===================================================================== *)
(** * Digital numbers of 16-bit rasters *)
(* ===================================================================== *)



(* ===================================================================== *)
(** * Expected traces of the crop loops *)
(* ===================================================================== *)

(** The href the manifest lists for a role. *)
Definition href_of (assets : manifest) (a : string) : string :=
  match assets !! a with
  | Some A => match A !! "href" with Some h => h | None => "" end
  | None => ""
  end.

(** The role is a key of the manifest and its entry has an "href". *)
Definition listed (assets : manifest) (a : string) : bool :=
  match assets !! a with
  | Some A => py_in "href" A
  | None => false
  end.

(** What the external world answers is the same in both worlds. *)
Definition same_env (w w' : world) : Prop :=
  w_fault w' = w_fault w /\ w_cancel w' = w_cancel w /\ w_open w' = w_open w /\
  w_layer_valid w' = w_layer_valid w /\ w_uid w' = w_uid w /\ w_log w' = w_log w.

(** The crop of role [a] by a direct thumbnail, and the events of the
    crop loop over [names] when no poll finds the flag set. *)
Definition thumb_crop_event (self : ThumbnailTask.t) (uid a : string) : event :=
  let '(xmin, ymin, xmax, ymax) := ThumbnailTask.bbox self in
  EvTranslateTif
    (path_join (ThumbnailTask.cache_dir self) ("thumb_" +:+ uid +:+ "_" +:+ a +:+ ".tif"))
    (src_path (href_of (ThumbnailTask.assets_dict self) a))
    [xmin; ymax; xmax; ymin] None.

(** The file of role [a] among the crops of a thumbnail. *)
Definition thumb_tif (self : ThumbnailTask.t) (uid a : string) : string :=
  path_join (ThumbnailTask.cache_dir self) ("thumb_" +:+ uid +:+ "_" +:+ a +:+ ".tif").

Definition direct_crops (self : ThumbnailTask.t) (uid : string) (names : list string)
  : list event :=
  flat_map (fun a => [thumb_crop_event self uid a; EvPoll false]) names.

Definition thumb_vrt (self : ThumbnailTask.t) (uid : string) : string :=
  path_join (ThumbnailTask.cache_dir self) ("thumb_" +:+ uid +:+ ".vrt").

Definition thumb_png (self : ThumbnailTask.t) (uid : string) : string :=
  path_join (ThumbnailTask.cache_dir self) ("thumb_" +:+ uid +:+ ".png").

Definition is_png_export (ev : event) : bool :=
  match ev with EvTranslatePng _ _ _ _ _ => true | _ => false end.

(** The key [d[a]["href"]] fails on when role [a] is not [listed]. *)
Definition missing_key (assets : manifest) (a : string) : string :=
  match assets !! a with
  | Some _ => "href"
  | None => a
  end.

(** A thumbnail computation whose only PNG export, if any, is its last
    event and the reason for returning [True]. *)
Definition exports_last (self : ThumbnailTask.t) (png : string)
    (m : M (bool * ThumbnailTask.t)) : Prop :=
  forall w r w', m w = (r, w') ->
  exists evs, new_events w w' evs /\
    match r with
    | Val (true, s) =>
        s = ThumbnailTask.set_png_path self png /\
        exists evs0 vrt sz sc nd,
          evs = evs0 ++ [EvTranslatePng png vrt sz sc nd] /\
          Forall (fun ev => is_png_export ev = false) evs0
    | Val (false, s) =>
        s = self /\ Forall (fun ev => is_png_export ev = false) evs /\
        last evs = Some (EvPoll true)
    | Raise _ => Forall (fun ev => is_png_export ev = false) evs
    end.

(** A world where nothing fails and the cancel flag is never set. *)
Definition still_world (open : string -> option dataset) : world :=
  {| w_clock := 0; w_fault := fun _ => None; w_cancel := fun _ => false;
     w_open := open; w_layer_valid := fun _ => true;
     w_percentile := fun _ _ => S754_nan; w_uid := "0f";
     w_config := ∅; w_trace := []; w_log := [] |}.

(** A direct thumbnail whose third role the manifest does not list. *)
Definition swir_rgb_task : ThumbnailTask.t :=
  {| ThumbnailTask.cache_dir := "/c"; ThumbnailTask.assets_dict := s2_assets;
     ThumbnailTask.rgb_assets := ["red"; "nir"; "swir16"; "blue"]; ThumbnailTask.bbox := aoi;
     ThumbnailTask.size_px := 512; ThumbnailTask.png_path := None;
     ThumbnailTask.error := None |}.

(* ===================================================================== *)
(** * Band presets and band selection (dock widget) *)
(* ===================================================================== *)

(** [s2_assets_for_preset(preset)] *)
Definition s2_assets_for_preset (preset : string) : list string :=
  if String.eqb preset "Natural" then ["red"; "green"; "blue"]
  else if String.eqb preset "Infrarrojo" then ["nir"; "red"; "green"]
  else if String.eqb preset "Agricultura" then ["swir16"; "nir"; "blue"]
  else if String.eqb preset "NDVI" then ["__NDVI__"; "nir"; "red"]
  else if String.eqb preset "NBR" then ["__NBR__"; "nir"; "swir22"]
  else ["red"; "green"; "blue"].

(** [pick(name)]: the name when it is available, else [None]. *)
Definition pick (available_assets : gset string) (name : string) : option string :=
  if bool_decide (name ∈ available_assets) then Some name else None.

(** [x or y] on values that are a non-empty name or [None]. *)
Definition py_or (x y : option string) : option string :=
  match x with Some _ => x | None => y end.

(** [ls_assets_for_preset(preset, available_assets)] *)
Definition ls_assets_for_preset (preset : string) (available_assets : gset string)
  : list (option string) :=
  let pick := pick available_assets in
  if String.eqb preset "Natural" then [pick "red"; pick "green"; pick "blue"]
  else if String.eqb preset "Infrarrojo" then
    [py_or (pick "nir08") (pick "nir"); pick "red"; pick "green"]
  else if String.eqb preset "Agricultura" then
    [py_or (pick "swir16") (pick "swir1"); py_or (pick "nir08") (pick "nir"); pick "blue"]
  else if String.eqb preset "NDVI" then
    [Some "__NDVI__"; py_or (pick "nir08") (pick "nir"); pick "red"]
  else if String.eqb preset "NBR" then
    [Some "__NBR__"; py_or (pick "nir08") (pick "nir");
     py_or (pick "swir22") (pick "swir2")]
  else [pick "red"; pick "green"; pick "blue"].

(** [[a for a in l if a]] *)
Fixpoint keep_names (l : list (option string)) : list string :=
  match l with
  | [] => []
  | Some a :: rest => a :: keep_names rest
  | None :: rest => keep_names rest
  end.

(** The roles [_start_thumbnail] hands to [ThumbnailTask]; [None] when it
    returns at the guard
    [if not rgb or len(rgb) != 3 or any(a not in assets for a in rgb)]. *)
Definition thumbnail_roles (kind preset : string) (assets : manifest)
  : option (list string) :=
  let rgb := if String.eqb kind "s2" then s2_assets_for_preset preset
             else keep_names (ls_assets_for_preset preset (dom assets)) in
  if match rgb with [] => true | _ => false end
     || negb (length rgb =? 3)%nat
     || existsb (fun a => negb (py_in a assets)) rgb
  then None else Some rgb.

(** [missing = [a for a in assets_need
                if not (isinstance(a, str) and a.startswith('__'))
                and a not in assets]] of [preview_s2] and [preview_landsat]. *)
Definition missing_assets (assets_need : list string) (assets : manifest) : list string :=
  List.filter (fun a => negb (startswith a "__") && negb (py_in a assets)) assets_need.

(** The roles of [preview_landsat]:
    [[a for a in ls_assets_for_preset(preset, available) if a]]. *)
Definition landsat_preview_roles (preset : string) (assets : manifest) : list string :=
  keep_names (ls_assets_for_preset preset (dom assets)).

(** The band choice in the [try] block of [_compute_index_for_last]: the
    arguments [(a1, a2, prefix)] of its call of [_crop_assets_to_index_tif],
    or the [RuntimeError] it raises. *)
Definition first_present (assets : manifest) (n1 n2 : string) : option string :=
  if py_in n1 assets then Some n1 else if py_in n2 assets then Some n2 else None.

Definition select_index_bands (kind mode : string) (assets : manifest)
  : res (string * string * string) :=
  let no_swir := RuntimeError "No se encontró banda SWIR2 (swir22/swir2)." in
  if String.eqb kind "s2" then
    if String.eqb (upper mode) "NDVI" then Val ("nir", "red", "s2")
    else match first_present assets "swir22" "swir2" with
         | None => Raise no_swir
         | Some a2 => Val ("nir", a2, "s2")
         end
  else
    match first_present assets "nir08" "nir" with
    | None => Raise (RuntimeError "No se encontró banda NIR (nir08/nir).")
    | Some nir =>
        if String.eqb (upper mode) "NDVI" then Val (nir, "red", "ls")
        else match first_present assets "swir22" "swir2" with
             | None => Raise no_swir
             | Some sw2 => Val (nir, sw2, "ls")
             end
    end.

(** [assets_need and str(assets_need[0]).startswith("__")] *)
Definition first_is_marker (assets_need : list string) : bool :=
  match assets_need with
  | m :: _ => startswith m "__"
  | [] => false
  end.

(** What a preview handler decides before any raster work: the
    [RuntimeError] it raises, the [IndexError] of a short role list, or the
    pipeline it calls and the arguments it passes besides the manifest and
    the layer title. *)
Inductive preview_plan :=
| NotThreeAssets                                (* "No pude determinar 3 assets ..." *)
| MissingAssets (missing : list string)         (* "Faltan assets ..." *)
| RoleIndexError                                (* [assets_need[1]], [assets_need[2]] *)
| IndexRaster (mode a1 a2 prefix : string)      (* [_crop_assets_to_index_tif] *)
| BandStack (asset_names : list string) (prefix : string).   (* [_crop_assets_to_vrt] *)

(** From the [missing] check to the pipeline call, shared by [preview_s2]
    and [preview_landsat]. *)
Definition plan_from_roles (assets_need : list string) (assets : manifest)
    (prefix : string) : preview_plan :=
  match missing_assets assets_need assets with
  | (_ :: _) as missing => MissingAssets missing
  | [] =>
      if first_is_marker assets_need then
        match assets_need with
        | m :: a1 :: a2 :: _ => IndexRaster (strip "_" m) a1 a2 prefix
        | _ => RoleIndexError
        end
      else BandStack assets_need prefix
  end.

(** [preview_s2(feature)] *)
Definition preview_s2_plan (preset : string) (assets : manifest) : preview_plan :=
  plan_from_roles (s2_assets_for_preset preset) assets "s2".

(** [preview_landsat(feature)] *)
Definition preview_landsat_plan (preset : string) (assets : manifest) : preview_plan :=
  let assets_need := landsat_preview_roles preset assets in
  if negb (length assets_need =? 3)%nat then NotThreeAssets
  else plan_from_roles assets_need assets "ls".

(** [s.endswith(suffix)] *)
Fixpoint endswith (s suffix : string) : bool :=
  if String.eqb s suffix then true
  else match s with
       | EmptyString => false
       | String _ s' => endswith s' suffix
       end.

(** [isinstance(vrt, str) and vrt.lower().endswith('.vrt')]: the test
    after which a preview starts the percentile stretch. *)
Definition wants_stretch (path : string) : bool := endswith (lower path) ".vrt".

(** The crop loop of [_crop_assets_to_vrt]; its body is [_crop_one]. *)
Fixpoint crop_all (assets_dict : manifest) (out_dir prefix uid : string)
    (box : BoundingBox) (asset_names tifs : list string) : M (list string) :=
  match asset_names with
  | [] => ret tifs
  | a :: rest =>
      do out_tif <- SceneBrowserDock._crop_one assets_dict out_dir prefix uid box a;
      crop_all assets_dict out_dir prefix uid box rest (tifs ++ [out_tif])
  end.

(** [_crop_assets_to_vrt], after the buffer's bounding box [box] and the
    cache directory [out_dir] have been obtained; returns the VRT path. *)
Definition _crop_assets_to_vrt (assets_dict : manifest) (asset_names : list string)
    (prefix layer_title : string) (box : BoundingBox) (out_dir : string) : M string :=
  do uid <- uuid4_hex;
  do tifs <- crop_all assets_dict out_dir prefix uid box asset_names [];
  let out_vrt := path_join out_dir (prefix +:+ "_" +:+ uid +:+ ".vrt") in
  exec ext (EvBuildVRT out_vrt tifs);
  exec ext (EvLayer out_vrt layer_title);
  fun w =>
    if w_layer_valid w out_vrt then (Val out_vrt, w)
    else (Raise (RuntimeError "No se pudo cargar el VRT en QGIS."), w).

(** The crop of role [a] by a preview pipeline. *)
Definition preview_crop_event (assets : manifest) (out_dir prefix uid : string)
    (box : BoundingBox) (a : string) : event :=
  EvTranslateTif (SceneBrowserDock.tif_path out_dir prefix uid a)
    (src_path (href_of assets a)) (SceneBrowserDock.projWin box) None.

(* ===================================================================== *)
(** * Scene catalogue: search client, token signing, ordering, dock state *)
(* ===================================================================== *)

From Stdlib Require Import Sorting.Sorted.

(** ** [StacClient] *)

Module StacClient.

(** [self.base_url] after [__init__]: [base_url.rstrip("/")]. *)
Definition base_url (base_url : string) : string := rstrip "/" base_url.

(** [url = f"{self.base_url}/search"] of [search]. *)
Definition search_url (base_url0 : string) : string := base_url base_url0 +:+ "/search".

End StacClient.

(** ** A STAC feature, as far as the dock reads it *)

Record feature := {
  f_id : string;                         (* [f.get("id", "")] *)
  f_properties : gmap string string;     (* a null value is an absent key *)
  f_assets : manifest;                   (* [f.get("assets") or {}] *)
}.

(** [x or y] on strings from [dict.get]: [None] and "" are falsy. *)
Definition or_else (x : option string) (y : string) : string :=
  match x with
  | Some (String c s) => String c s
  | _ => y
  end.

(** [p.get("datetime") or p.get("start_datetime") or ""] *)
Definition _dt (f : feature) : string :=
  or_else (f_properties f !! "datetime") (or_else (f_properties f !! "start_datetime") "").

(** [feats.sort(key=_dt, reverse=True)]: a stable sort, keys compared as
    strings, largest first, equal keys in their original order. *)
Fixpoint insert_desc {A} (key : A -> string) (x : A) (l : list A) : list A :=
  match l with
  | [] => [x]
  | y :: ys => if String.ltb (key x) (key y) then y :: insert_desc key x ys
               else x :: y :: ys
  end.

Definition sort_desc {A} (key : A -> string) (l : list A) : list A :=
  fold_right (insert_desc key) [] l.

Definition _sorted_features (feats : list feature) : list feature := sort_desc _dt feats.

(** The order of the list: [a] may stand before [b]. *)
Definition newer_first {A} (key : A -> string) (a b : A) : Prop :=
  String.leb (key b) (key a) = true.

(** [s[:n]] *)
Fixpoint take_chars (n : nat) (s : string) : string :=
  match n, s with
  | S n', String c s' => String c (take_chars n' s')
  | _, _ => EmptyString
  end.

(** [_feature_label(f)]: [(date, sid)] *)
Definition _feature_label (f : feature) : string * string :=
  let dt := _dt f in
  ((if String.eqb dt "" then "---- -- --" else take_chars 10 dt), f_id f).

(** ** Planetary Computer tokens *)

(** White space in the sense of [str.isspace], as UTF-8 byte sequences:
    the ASCII characters 9 to 13 and 28 to 32, and U+0085, U+00A0, U+1680,
    U+2000 to U+200A, U+2028, U+2029, U+202F, U+205F, U+3000. *)
Definition bytes (l : list nat) : string := string_of_list_ascii (map ascii_of_nat l).

Definition white_space : list string :=
  map (fun n => bytes [n]) [9; 10; 11; 12; 13; 28; 29; 30; 31; 32]%nat
  ++ [bytes [194; 133]; bytes [194; 160]; bytes [225; 154; 128]]%nat
  ++ map (fun n => bytes [226; 128; n]) [128; 129; 130; 131; 132; 133; 134; 135; 136;
                                          137; 138; 168; 169; 175]%nat
  ++ [bytes [226; 129; 159]; bytes [227; 128; 128]]%nat.

(** The rest of [s] after one leading white space character, if any. *)
Definition drop_space (s : string) : option string :=
  match List.filter (fun t => String.prefix t s) white_space with
  | t :: _ => Some (drop_chars (String.length t) s)
  | [] => None
  end.

(** [s.lstrip()]; every strip removes at least one byte. *)
Fixpoint lstrip_ws_fuel (fuel : nat) (s : string) : string :=
  match fuel with
  | O => s
  | S fuel' =>
      match drop_space s with
      | Some s' => lstrip_ws_fuel fuel' s'
      | None => s
      end
  end.

Definition lstrip_ws (s : string) : string := lstrip_ws_fuel (String.length s) s.

(** White space only, to the end. *)
Definition all_space (s : string) : bool :=
  String.eqb (lstrip_ws s) EmptyString.

(** [s.rstrip()]: cut where only white space follows. *)
Fixpoint rstrip_ws (s : string) : string :=
  match s with
  | EmptyString => EmptyString
  | String c s' => if all_space s then EmptyString else String c (rstrip_ws s')
  end.

(** [s.strip()] *)
Definition strip_ws (s : string) : string := rstrip_ws (lstrip_ws s).

Definition token_url (collection_id : string) : string :=
  "https://planetarycomputer.microsoft.com/api/sas/v1/token/" +:+ collection_id.

(** [_pc_get_token(collection_id)] over the cache [self._pc_token_cache].
    [http_get url] stands for [requests.get(url, timeout=30)],
    [raise_for_status()] and [r.json().get("token", "")]: the token, or the
    exception one of them raises. *)
Definition _pc_get_token (http_get : string -> res string) (cache : gmap string string)
    (collection_id : string) : res string * gmap string string :=
  let collection_id := strip_ws collection_id in
  if String.eqb collection_id "" then (Val "", cache)
  else match cache !! collection_id with
       | Some token => (Val token, cache)
       | None =>
           match http_get (token_url collection_id) with
           | Raise e => (Raise e, cache)
           | Val token => (Val token, <[collection_id := token]> cache)
           end
       end.

(** The body of the inner loop of [_pc_sign_features] on one asset. *)
Definition sign_asset (token : string) (a : gmap string string) : gmap string string :=
  match a !! "href" with
  | Some href =>
      if String.eqb href "" || has_char "?" href then a
      else <["href" := href +:+ "?" +:+ token]> a
  | None => a
  end.

Definition sign_feature (token : string) (f : feature) : feature :=
  {| f_id := f_id f; f_properties := f_properties f;
     f_assets := sign_asset token <$> f_assets f |}.

(** [_pc_sign_features(features, collection_id)]; the features are
    updated in place and handed back. *)
Definition _pc_sign_features (http_get : string -> res string) (cache : gmap string string)
    (features : list feature) (collection_id : string)
  : res (list feature) * gmap string string :=
  match _pc_get_token http_get cache collection_id with
  | (Raise e, cache') => (Raise e, cache')
  | (Val token, cache') =>
      (Val (if String.eqb token "" then features else map (sign_feature token) features),
       cache')
  end.

(** What signing keeps of a feature: identity, properties, the asset
    names, and every entry of every asset other than "href". *)
Definition same_but_hrefs (f f' : feature) : Prop :=
  f_id f' = f_id f /\ f_properties f' = f_properties f /\
  dom (f_assets f') = dom (f_assets f) /\
  forall name a, f_assets f !! name = Some a ->
    exists a', f_assets f' !! name = Some a' /\
      (forall k, k <> "href" -> a' !! k = a !! k) /\
      (forall h, a !! "href" = Some h -> has_char "?" h = true -> a' = a).

(** ** Thumbnail zoom *)

(** [int(x)] of a Python float: truncation; [None] where it raises. *)
Definition py_int (x : f64) : option Z :=
  match x with
  | S754_zero _ => Some 0%Z
  | S754_finite s m e =>
      let v := (if (0 <=? e)%Z then Z.pos m * 2 ^ e else Z.pos m / 2 ^ (- e))%Z in
      Some (if s then (- v)%Z else v)
  | _ => None
  end.

(** [_thumb_icon_size_from_level(level)] *)
Definition _thumb_icon_size_from_level (level : Z) : option Z :=
  let level := Z.max 1 (Z.min 10 level) in
  py_int (F64.add (F64.of_Z 160)
            (F64.div (F64.of_Z ((level - 1) * (420 - 160))) (F64.of_Z 9))).

(** ** The plugin object ([plugin.py]) *)

Module SceneBrowserPlugin.

(** Qt objects are told apart by a serial number. *)
Inductive ui_event :=
| AddToolBarIcon (action : nat)
| AddPluginToMenu (action : nat)
| RemoveToolBarIcon (action : nat)
| RemovePluginMenu (action : nat)
| AddDockWidget (dock : nat)
| RemoveDockWidget (dock : nat)
| DockShow (dock : nat)
| DockRaise (dock : nat).

Record t := {
  action : option nat;
  dock : option nat;
  serial : nat;          (* objects created so far *)
}.

(** [__init__] *)
Definition init : t := {| action := None; dock := None; serial := 0 |}.

Definition initGui (self : t) : t * list ui_event :=
  let a := serial self in
  ({| action := Some a; dock := dock self; serial := S a |},
   [AddToolBarIcon a; AddPluginToMenu a]).

Definition unload (self : t) : t * list ui_event :=
  let evs1 := match action self with
              | Some a => [RemoveToolBarIcon a; RemovePluginMenu a]
              | None => []
              end in
  match dock self with
  | Some d => ({| action := action self; dock := None; serial := serial self |},
               evs1 ++ [RemoveDockWidget d])
  | None => (self, evs1)
  end.

Definition open_dock (self : t) : t * list ui_event :=
  match dock self with
  | Some d => (self, [DockShow d; DockRaise d])
  | None =>
      let d := serial self in
      ({| action := action self; dock := Some d; serial := S d |},
       [AddDockWidget d; DockShow d; DockRaise d])
  end.

Inductive call := InitGui | Unload | OpenDock.

Definition step (c : call) (self : t) : t * list ui_event :=
  match c with
  | InitGui => initGui self
  | Unload => unload self
  | OpenDock => open_dock self
  end.

(** A sequence of calls made by the host, with everything it was told. *)
Fixpoint run_calls (calls : list call) (self : t) : t * list ui_event :=
  match calls with
  | [] => (self, [])
  | c :: rest =>
      let '(self1, evs1) := step c self in
      let '(self2, evs2) := run_calls rest self1 in
      (self2, evs1 ++ evs2)
  end.

(** The dock widgets the main window holds after the events. *)
Fixpoint docked (evs : list ui_event) (held : list nat) : list nat :=
  match evs with
  | [] => held
  | AddDockWidget d :: rest => docked rest (held ++ [d])
  | RemoveDockWidget d :: rest => docked rest (List.filter (fun x => negb (Nat.eqb x d)) held)
  | _ :: rest => docked rest held
  end.

End SceneBrowserPlugin.

(** ** Sample catalogue entries *)

Definition scene (id datetime : string) (assets : manifest) : feature :=
  {| f_id := id; f_properties := {[ "datetime" := datetime ]}; f_assets := assets |}.

Definition undated_scene (id : string) : feature :=
  {| f_id := id; f_properties := ∅; f_assets := ∅ |}.

(** A token service that always answers with the same token. *)
Definition token_service (token : string) (url : string) : res string := Val token.

(** A token service that is down. *)
Definition no_service (url : string) : res string :=
  Raise (ExternalError "ConnectionError" "unreachable").


(* ===================================================================== *)
(** * Theorems: index compositor *)
(* ===================================================================== *)

Example NODATA_value : NODATA = S754_finite true 10238976 (-10).
Proof. reflexivity. Qed.

Example LS_SR_MULT_f32 : F32.round LS_SR_MULT = S754_finite false 15118285 (-39).
Proof. vm_compute. reflexivity. Qed.

Example LS_SR_ADD_f32 : F32.round LS_SR_ADD = S754_finite true 13421773 (-26).
Proof. vm_compute. reflexivity. Qed.

(** ** Comparisons *)

Lemma flt_fle (a b : f32) : flt a b = true -> fle a b = true.
Proof.
  unfold flt, fle, SFltb, SFleb.
  destruct (SFcompare a b) as [[]|]; congruence.
Qed.

Lemma fill_nonfinite_not_nan (q : f32) : is_nan (fill_nonfinite q) = false.
Proof. unfold fill_nonfinite. destruct q; reflexivity. Qed.

Lemma fill_nonfinite_finite (q : f32) : isfinite (fill_nonfinite q) = true.
Proof. unfold fill_nonfinite. destruct q; reflexivity. Qed.

(** A clipped value that is not NaN lies in [[-1, 1]]. *)
Lemma np_clip_in_unit (q : f32) :
  is_nan q = false -> in_unit (np_clip q f32_mone f32_one) = true.
Proof.
  intros Hn. unfold np_clip. rewrite Hn.
  destruct (fgt q f32_mone) eqn:Hlo.
  - rewrite Hn. destruct (flt q f32_one) eqn:Hhi.
    + unfold in_unit. rewrite (flt_fle _ _ Hlo), (flt_fle _ _ Hhi). reflexivity.
    + reflexivity.
  - reflexivity.
Qed.

Lemma where_clip_codomain (q : f32) :
  is_nan q = false -> where_clip q = NODATA \/ in_unit (where_clip q) = true.
Proof.
  intros Hn. unfold where_clip. destruct (feq q NODATA).
  - now left.
  - right. now apply np_clip_in_unit.
Qed.

Lemma clean_codomain (q : f32) : clean q = NODATA \/ in_unit (clean q) = true.
Proof. apply where_clip_codomain, fill_nonfinite_not_nan. Qed.

Lemma NODATA_marked : feq NODATA NODATA = true.
Proof. reflexivity. Qed.

Lemma NODATA_outside : in_unit NODATA = false.
Proof. reflexivity. Qed.

(** ** Arrays *)

Lemma zip_same_length {A B C} (f : A -> B -> C) l1 l2 :
  length l1 = length l2 -> exists r, zip_same f l1 l2 = Some r.
Proof.
  revert l2. induction l1 as [|x l1 IH]; intros [|y l2] Hl; try discriminate.
  - now exists nil.
  - injection Hl as Hl. destruct (IH _ Hl) as [r Hr].
    exists (f x y :: r). simpl. now rewrite Hr.
Qed.

Lemma zip_same_Some_length {A B C} (f : A -> B -> C) l1 l2 r :
  zip_same f l1 l2 = Some r -> length l1 = length l2 /\ length r = length l1.
Proof.
  revert l2 r. induction l1 as [|x l1 IH]; intros [|y l2] r H; simpl in H;
    try discriminate.
  - injection H as <-. now split.
  - destruct (zip_same f l1 l2) as [r'|] eqn:Hr; [|discriminate].
    injection H as <-. destruct (IH _ _ Hr) as [H1 H2]. simpl. split; congruence.
Qed.

(** Post-processing each combined element is a [map] over the combination. *)
Lemma zip_same_compose {A B C D} (f : A -> B -> C) (g : C -> D) l1 l2 :
  zip_same (fun x y => g (f x y)) l1 l2 = option_map (map g) (zip_same f l1 l2).
Proof.
  revert l2. induction l1 as [|x l1 IH]; intros [|y l2]; simpl; try reflexivity.
  rewrite IH. now destruct (zip_same f l1 l2).
Qed.

Lemma zip_same_Forall {A B C} (f : A -> B -> C) (P : C -> Prop) l1 l2 r :
  (forall x y, P (f x y)) -> zip_same f l1 l2 = Some r -> Forall P r.
Proof.
  intros HP. revert l2 r. induction l1 as [|x l1 IH]; intros [|y l2] r H;
    simpl in H; try discriminate.
  - injection H as <-. constructor.
  - destruct (zip_same f l1 l2) as [r'|] eqn:Hr; [|discriminate].
    injection H as <-. constructor; [apply HP | eapply IH; eauto].
Qed.

Lemma zip_same_diag {A C} (f : A -> A -> C) l :
  zip_same f l l = Some (map (fun x => f x x) l).
Proof. induction l as [|x l IH]; simpl; [reflexivity | now rewrite IH]. Qed.

(** ** Doubling a float32

    A valid finite float32 is normal (24 significant bits) or subnormal
    (exponent [-149]). *)
Lemma f32_fexp_valid m e :
  bounded F32.prec F32.emax m e = true ->
  (Zpos (digits2_pos m) = 24 /\ -149 <= e <= 104)%Z \/
  ((Zpos (digits2_pos m) < 24)%Z /\ e = (-149)%Z).
Proof.
  unfold bounded, canonical_mantissa, fexp, emin, F32.prec, F32.emax.
  intros H. apply andb_prop in H as [H1 H2].
  apply Z.eqb_eq in H1. apply Z.leb_le in H2. lia.
Qed.

(** [v + v] is exact, or overflows to the infinity of the sign of [v]. *)
Lemma f32_double s m e :
  bounded F32.prec F32.emax m e = true ->
  F32.add (S754_finite s m e) (S754_finite s m e) =
    if (Zpos (digits2_pos m) =? 24)%Z
    then (if (e + 1 <=? 104)%Z then S754_finite s m (e + 1) else S754_infinity s)
    else S754_finite s m~0 e.
Proof.
  intros Hb. apply f32_fexp_valid in Hb.
  unfold F32.add, SFadd. rewrite Z.min_id.
  unfold shl_align at 1 2. rewrite Z.sub_diag. cbn [fst].
  assert (Hsum : (cond_Zopp s (Zpos m) + cond_Zopp s (Zpos m))%Z = cond_Zopp s (Zpos m~0)).
  { destruct s; cbn [cond_Zopp Z.opp Z.add]. all: f_equal; lia. }
  rewrite Hsum.
  assert (Hn : binary_normalize F32.prec F32.emax (cond_Zopp s (Zpos m~0)) e false
               = binary_round F32.prec F32.emax s m~0 e) by now destruct s.
  rewrite Hn. unfold binary_round.
  cbn [digits2_pos].
  replace (Z.pos (PosDef.Pos.succ (digits2_pos m))) with (Z.pos (digits2_pos m) + 1)%Z
    by (symmetry; apply Pos2Z.inj_succ).
  destruct Hb as [[Hd He]|[Hd He]].
  - (* normal: one bit is shifted out, exactly *)
    rewrite Hd. cbn [Z.eqb Pos.eqb].
    replace (fexp F32.prec F32.emax (24 + 1 + e)) with (e + 1)%Z
      by (unfold fexp, emin, F32.prec, F32.emax; lia).
    unfold shl_align. replace (e + 1 - e)%Z with 1%Z by lia. cbn iota.
    unfold binary_round_aux, shr_fexp. cbn [Zdigits2 digits2_pos].
    replace (Z.pos (PosDef.Pos.succ (digits2_pos m))) with (Z.pos (digits2_pos m) + 1)%Z
      by (symmetry; apply Pos2Z.inj_succ).
    rewrite Hd.
    replace (fexp F32.prec F32.emax (24 + 1 + e) - e)%Z with 1%Z
      by (unfold fexp, emin, F32.prec, F32.emax; lia).
    cbn [shr_record_of_loc shr SpecFloat.iter_pos shr_1 orb shr_m loc_of_shr_record round_nearest_even Zdigits2].
    rewrite Hd.
    replace (fexp F32.prec F32.emax (24 + (e + 1)) - (e + 1))%Z with 0%Z
      by (unfold fexp, emin, F32.prec, F32.emax; lia).
    cbn [shr shr_m]. reflexivity.
  - (* subnormal: the doubled mantissa still fits *)
    replace (Z.pos (digits2_pos m) =? 24)%Z with false by (symmetry; apply Z.eqb_neq; lia).
    replace (fexp F32.prec F32.emax (Z.pos (digits2_pos m) + 1 + e)) with e
      by (unfold fexp, emin, F32.prec, F32.emax; lia).
    unfold shl_align. rewrite Z.sub_diag. cbn iota.
    unfold binary_round_aux, shr_fexp. cbn [Zdigits2 digits2_pos].
    replace (Z.pos (PosDef.Pos.succ (digits2_pos m))) with (Z.pos (digits2_pos m) + 1)%Z
      by (symmetry; apply Pos2Z.inj_succ).
    replace (fexp F32.prec F32.emax (Z.pos (digits2_pos m) + 1 + e) - e)%Z with 0%Z
      by (unfold fexp, emin, F32.prec, F32.emax; lia).
    cbn [shr_record_of_loc shr shr_m loc_of_shr_record round_nearest_even Zdigits2 digits2_pos].
    replace (Z.pos (PosDef.Pos.succ (digits2_pos m))) with (Z.pos (digits2_pos m) + 1)%Z
      by (symmetry; apply Pos2Z.inj_succ).
    replace (fexp F32.prec F32.emax (Z.pos (digits2_pos m) + 1 + e) - e)%Z with 0%Z
      by (unfold fexp, emin, F32.prec, F32.emax; lia).
    cbn [shr shr_m]. subst e. reflexivity.
Qed.

Lemma f32_sub_diag s m e :
  F32.sub (S754_finite s m e) (S754_finite s m e) = S754_zero false.
Proof.
  unfold F32.sub, SFsub. rewrite Z.min_id.
  unfold shl_align. rewrite !Z.sub_diag. reflexivity.
Qed.

Lemma clean_zero s : clean (S754_zero s) = S754_zero s.
Proof. now destruct s. Qed.

(** The index of a pixel whose two bands carry the same value [v]. *)
Lemma index_pixel_diag (v : f32) :
  F32.valid v = true ->
  index_pixel v v =
    if isfinite v && negb (is_zero v) then S754_zero (sign_of v) else NODATA.
Proof.
  intros Hv. destruct v as [s|s| |s m e].
  - now destruct s.
  - now destruct s.
  - reflexivity.
  - unfold index_pixel, norm_diff. rewrite f32_sub_diag, f32_double by exact Hv.
    cbn [isfinite is_zero negb andb sign_of].
    destruct (Z.pos (digits2_pos m) =? 24)%Z; [destruct (e + 1 <=? 104)%Z|];
      cbn [F32.div SFdiv xorb]; apply clean_zero.
Qed.

Lemma index_array_clean prefix b1 b2 :
  index_array prefix b1 b2 = option_map (map clean) (quotient_array prefix b1 b2).
Proof.
  unfold index_array, quotient_array. destruct (scale_bands prefix b1 b2) as [s1 s2].
  apply (zip_same_compose norm_diff clean).
Qed.

Lemma index_array_total prefix b1 b2 :
  length b1 = length b2 ->
  exists out, index_array prefix b1 b2 = Some out /\ length out = length b1.
Proof.
  intros Hl. unfold index_array, scale_bands.
  destruct (is_ls prefix).
  - destruct (zip_same_length index_pixel (map ls_scale b1) (map ls_scale b2)) as [r Hr].
    { now rewrite !length_map. }
    exists r. split; [exact Hr|].
    apply zip_same_Some_length in Hr as [_ Hr]. now rewrite Hr, length_map.
  - destruct (zip_same_length index_pixel b1 b2 Hl) as [r Hr].
    exists r. split; [exact Hr|]. now apply zip_same_Some_length in Hr as [_ Hr].
Qed.

(** ** Sensor scaling *)

Lemma ls_scale_one_moved : ls_scale (F32.of_Z 1) <> F32.of_Z 1.
Proof. vm_compute. discriminate. Qed.

(** ** Equal bands *)

(** C8, as stated, fails for a Landsat request: two bands that are zero at
    a pixel are first moved to [-0.2], and the written pixel is [-0.0], not
    the sentinel. *)
Lemma equal_bands_landsat_zero_not_sentinel :
  index_array "ls" [S754_zero false] [S754_zero false] = Some [S754_zero true] /\
  S754_zero true <> NODATA.
Proof. split; [vm_compute; reflexivity | discriminate]. Qed.

Lemma equal_bands_pixels (l : list f32) :
  Forall (fun x => F32.valid x = true) l ->
  Forall2 (fun x r =>
    (isfinite x = true -> is_zero x = false ->
       r = S754_zero (sign_of x) /\ is_zero r = true /\ r <> NODATA) /\
    (is_zero x = true -> r = NODATA) /\
    (isfinite x = false -> r = NODATA)) l (map (fun x => index_pixel x x) l).
Proof.
  induction 1 as [|x l Hx Hl IH]; cbn [map]; constructor; [|exact IH].
  rewrite (index_pixel_diag x Hx). split; [|split].
  - intros Hf Hz. rewrite Hf, Hz. split; [reflexivity|]. split; [reflexivity | discriminate].
  - intros Hz. rewrite Hz, andb_false_r. reflexivity.
  - intros Hf. rewrite Hf. reflexivity.
Qed.

(** C8 (amended): for two band arrays that are equal everywhere, the
    written pixel is a zero where the common value entering the index
    formula (the raw value without sensor scaling, the scaled value for a
    Landsat request) is finite and nonzero, and the sentinel [-9999] exactly
    where that value is zero (or not finite); without sensor scaling that
    value is the raw band value. *)
Theorem equal_bands_index (prefix : string) (b : list f32) :
  let s := fst (scale_bands prefix b b) in
  Forall (fun x => F32.valid x = true) s ->
  (is_ls prefix = false -> s = b) /\
  (is_ls prefix = true -> s = map ls_scale b) /\
  exists out, index_array prefix b b = Some out /\
    Forall2 (fun x r =>
      (isfinite x = true -> is_zero x = false ->
         r = S754_zero (sign_of x) /\ is_zero r = true /\ r <> NODATA) /\
      (is_zero x = true -> r = NODATA) /\
      (isfinite x = false -> r = NODATA)) s out.
Proof.
  intros s Hv.
  assert (Hs : scale_bands prefix b b = (s, s)).
  { unfold s, scale_bands. now destruct (is_ls prefix). }
  split; [|split].
  - intros Hls. unfold s, scale_bands. now rewrite Hls.
  - intros Hls. unfold s, scale_bands. now rewrite Hls.
  - unfold index_array. rewrite Hs, zip_same_diag.
    eexists. split; [reflexivity|]. now apply equal_bands_pixels.
Qed.

Lemma equal_bands_index_witness :
  (exists out, index_array "s2" [F32.of_Z 5; F32.of_Z 0; F32.of_Z (-3)]
                 [F32.of_Z 5; F32.of_Z 0; F32.of_Z (-3)] = Some out /\
     Forall2 (fun x r =>
       (isfinite x = true -> is_zero x = false ->
          r = S754_zero (sign_of x) /\ is_zero r = true /\ r <> NODATA) /\
       (is_zero x = true -> r = NODATA) /\
       (isfinite x = false -> r = NODATA))
       [F32.of_Z 5; F32.of_Z 0; F32.of_Z (-3)] out) /\
  (exists out, index_array "ls" [F32.of_Z 0; F32.of_Z 20000] [F32.of_Z 0; F32.of_Z 20000]
                 = Some out /\
     Forall2 (fun x r =>
       (isfinite x = true -> is_zero x = false ->
          r = S754_zero (sign_of x) /\ is_zero r = true /\ r <> NODATA) /\
       (is_zero x = true -> r = NODATA) /\
       (isfinite x = false -> r = NODATA))
       (map ls_scale [F32.of_Z 0; F32.of_Z 20000]) out).
Proof.
  split.
  - apply (equal_bands_index "s2" [F32.of_Z 5; F32.of_Z 0; F32.of_Z (-3)]).
    repeat constructor.
  - apply (equal_bands_index "ls" [F32.of_Z 0; F32.of_Z 20000]).
    vm_compute. repeat constructor.
Defined.

(* ===================================================================== *)
(** * Theorems: asset locator *)
(* ===================================================================== *)

Lemma set_config_same (w : world) : set_config (w_config w) w = w.
Proof. now destruct w. Qed.

Lemma startswith_split (p s : string) :
  startswith s p = true -> s = p +:+ drop_chars (String.length p) s.
Proof.
  unfold startswith. revert s. induction p as [|c p IH]; intros s H.
  - reflexivity.
  - destruct s as [|c' s]; [discriminate|]. cbn in H.
    destruct (Ascii.ascii_dec c c') as [->|]; [|discriminate].
    change (String c' s = String c' (p +:+ drop_chars (String.length p) s)).
    f_equal. now apply IH.
Qed.

Lemma src_from_href_eq (href : string) (w : world) :
  _src_from_href href w
  = (Val (src_path href), set_config (src_config href (w_config w)) w).
Proof.
  unfold _src_from_href, src_path, src_config.
  destruct (String.eqb href ""); [now rewrite set_config_same|].
  destruct (startswith href "s3://"); [reflexivity|].
  destruct (startswith href "http://" || startswith href "https://");
    now rewrite set_config_same.
Qed.

(** C6: [_src_from_href] never raises; an empty href gives the fixed
    descriptor "/vsicurl/" (nothing behind the handler) and touches
    nothing; an "s3://" href gives "/vsis3/" followed by the remainder after
    the scheme and leaves unsigned, requester-pays access configured; an
    "http://" or "https://" href gives "/vsicurl/" followed by the whole
    href; any other href comes back unchanged. *)
Theorem src_from_href_cases (href : string) (w : world) :
  (exists p w', _src_from_href href w = (Val p, w') /\ w_trace w' = w_trace w) /\
  (href = "" -> _src_from_href href w = (Val "/vsicurl/", w)) /\
  (startswith href "s3://" = true ->
     exists rest w', href = "s3://" +:+ rest /\
       _src_from_href href w = (Val ("/vsis3/" +:+ rest), w') /\
       w_config w' !! "AWS_NO_SIGN_REQUEST" = Some "YES" /\
       w_config w' !! "AWS_REQUEST_PAYER" = Some "requester") /\
  (startswith href "http://" = true \/ startswith href "https://" = true ->
     _src_from_href href w = (Val ("/vsicurl/" +:+ href), w)) /\
  (href <> "" -> startswith href "s3://" = false ->
   startswith href "http://" = false -> startswith href "https://" = false ->
     _src_from_href href w = (Val href, w)) /\
  (exists w', _src_from_href "s3://bucket/key.tif" w = (Val "/vsis3/bucket/key.tif", w')).
Proof.
  split; [|split; [|split; [|split; [|split]]]].
  - rewrite src_from_href_eq. eauto.
  - intros ->. reflexivity.
  - intros Hs. exists (drop_chars (String.length "s3://") href). eexists.
    split; [now apply startswith_split|].
    rewrite src_from_href_eq. unfold src_path, src_config. rewrite Hs.
    destruct (String.eqb_spec href "") as [->|_]; [discriminate Hs|].
    split; [reflexivity|]. cbn [w_config set_config]. split.
    + rewrite lookup_insert_ne by discriminate. apply lookup_insert_eq.
    + apply lookup_insert_eq.
  - intros Hh. unfold _src_from_href.
    destruct (String.eqb_spec href "") as [->|_]; [now destruct Hh|].
    destruct (startswith href "s3://") eqn:Hs.
    + apply startswith_split in Hs. rewrite Hs in Hh. now destruct Hh.
    + destruct Hh as [-> | ->]; [reflexivity | now rewrite orb_true_r].
  - intros Hne Hs H1 H2. unfold _src_from_href. rewrite Hs, H1, H2.
    now destruct (String.eqb_spec href "").
  - rewrite src_from_href_eq. eauto.
Qed.

Lemma src_from_href_cases_witness :
  exists rest w', "s3://bucket/key.tif" = "s3://" +:+ rest /\
    _src_from_href "s3://bucket/key.tif" world0 = (Val ("/vsis3/" +:+ rest), w') /\
    w_config w' !! "AWS_NO_SIGN_REQUEST" = Some "YES" /\
    w_config w' !! "AWS_REQUEST_PAYER" = Some "requester".
Proof.
  apply (proj1 (proj2 (proj2 (src_from_href_cases "s3://bucket/key.tif" world0)))).
  reflexivity.
Defined.

(* ===================================================================== *)
(** * Theorems: background tasks *)
(* ===================================================================== *)

(** ** Stepping through the monad *)

Lemma bind_inv {A B} (m : M A) (k : A -> M B) w r w' :
  bind m k w = (r, w') ->
  (exists e, m w = (Raise e, w') /\ r = Raise e) \/
  (exists a w1, m w = (Val a, w1) /\ k a w1 = (r, w')).
Proof.
  unfold bind. destruct (m w) as [[a|e] w1]; intros H.
  - right. eauto.
  - left. injection H as <- <-. eauto.
Qed.

Lemma new_events_refl w : new_events w w [].
Proof. unfold new_events. now rewrite app_nil_r. Qed.

Lemma new_events_trans w1 w2 w3 e1 e2 :
  new_events w1 w2 e1 -> new_events w2 w3 e2 -> new_events w1 w3 (e1 ++ e2).
Proof. unfold new_events. intros H1 H2. now rewrite H2, H1, app_assoc. Qed.

Lemma new_events_eq w w' : w_trace w' = w_trace w -> new_events w w' [].
Proof. unfold new_events. intros ->. now rewrite app_nil_r. Qed.

Lemma ext_inv ev w r w' :
  ext ev w = (r, w') ->
  (r = Val tt /\ w_fault w (w_clock w) = None /\ new_events w w' [ev]) \/
  (exists e, r = Raise e /\ w_fault w (w_clock w) = Some e /\ new_events w w' []).
Proof.
  unfold ext. destruct (w_fault w (w_clock w)) as [e|]; intros H; injection H as <- <-.
  - right. exists e. repeat split. apply new_events_eq. reflexivity.
  - left. repeat split.
Qed.

Lemma isCanceled_inv w r w' :
  isCanceled w = (r, w') -> exists c, r = Val c /\ new_events w w' [EvPoll c].
Proof. unfold isCanceled. intros H. injection H as <- <-. eexists. now split. Qed.

Lemma silent_ret {A} (a : A) : silent (ret a).
Proof. intros w r w' H. now injection H as <- <-. Qed.

Lemma silent_raise {A} (e : exn) : silent (@raise A e).
Proof. intros w r w' H. now injection H as <- <-. Qed.

Lemma silent_py_getitem {V} (d : gmap string V) k : silent (py_getitem d k).
Proof. unfold py_getitem. destruct (d !! k); [apply silent_ret | apply silent_raise]. Qed.

Lemma silent_py_index {A} (l : list A) i : silent (py_index l i).
Proof. unfold py_index. destruct (nth_error l i); [apply silent_ret | apply silent_raise]. Qed.

Lemma silent_src_from_href href : silent (_src_from_href href).
Proof. intros w r w' H. rewrite src_from_href_eq in H. now injection H as <- <-. Qed.

Lemma silent_logMessage msg : silent (logMessage msg).
Proof. intros w r w' H. now injection H as <- <-. Qed.

Lemma silent_bind {A B} (m : M A) (k : A -> M B) :
  silent m -> (forall a, silent (k a)) -> silent (bind m k).
Proof.
  intros Hm Hk w r w' H. apply bind_inv in H as [(e & H & _)|(a & w1 & H1 & H2)].
  - now apply Hm in H.
  - apply Hm in H1. apply Hk in H2. congruence.
Qed.

(** ** The task boundary *)

Lemma try_except_total {A} (body : M A) (handler : exn -> M A) w :
  (forall e w1, exists a w2, handler e w1 = (Val a, w2)) ->
  exists a w', try_except body handler w = (Val a, w').
Proof.
  intros Hh. unfold try_except. destruct (body w) as [[a|e] w1]; eauto.
Qed.

(** The handlers, run after a raising body. *)
Lemma thumb_run_raise self w e w1 :
  ThumbnailTask.run_body self w = (Raise e, w1) ->
  ThumbnailTask.run self w
  = (Val (false, ThumbnailTask.set_error self (py_str e)),
     log_line ("Thumbnail error: " +:+ py_str e) w1).
Proof. intros H. unfold ThumbnailTask.run, try_except. now rewrite H. Qed.

Lemma pct_run_raise self w e w1 :
  PercentileStretchTask.run_body self w = (Raise e, w1) ->
  PercentileStretchTask.run self w
  = (Val (false, PercentileStretchTask.set_error self (py_str e)),
     log_line (py_str e) w1).
Proof. intros H. unfold PercentileStretchTask.run, try_except. now rewrite H. Qed.

(** C5: no exception leaves [ThumbnailTask.run] or
    [PercentileStretchTask.run]; whenever a step of the body raises, [run]
    returns [False], the task's [error] field holds [str(e)], the message
    is the last line written to the log, and the task's output field
    ([png_path], [result]) is as it was.  In particular a failing external
    call, a missing asset key (the message is [repr] of the key), a raster
    that cannot be opened and a band that cannot be read all end this way,
    with the messages given. *)
Theorem run_catches_exceptions :
  (forall self w, exists b self' w', ThumbnailTask.run self w = (Val (b, self'), w')) /\
  (forall self w, exists b self' w', PercentileStretchTask.run self w = (Val (b, self'), w')) /\
  (forall self w e w1, ThumbnailTask.run_body self w = (Raise e, w1) ->
     exists self' w',
       ThumbnailTask.run self w = (Val (false, self'), w') /\
       ThumbnailTask.error self' = Some (py_str e) /\
       ThumbnailTask.png_path self' = ThumbnailTask.png_path self /\
       w_log w' = w_log w1 ++ ["Thumbnail error: " +:+ py_str e] /\
       w_trace w' = w_trace w1) /\
  (forall self w e w1, PercentileStretchTask.run_body self w = (Raise e, w1) ->
     exists self' w',
       PercentileStretchTask.run self w = (Val (false, self'), w') /\
       PercentileStretchTask.error self' = Some (py_str e) /\
       PercentileStretchTask.result self' = PercentileStretchTask.result self /\
       w_log w' = w_log w1 ++ [py_str e] /\
       w_trace w' = w_trace w1) /\
  (* a failing external call: here the first one of each task *)
  (forall self w e, w_fault w (w_clock w) = Some e ->
     exists self' w',
       ThumbnailTask.run self w = (Val (false, self'), w') /\
       ThumbnailTask.error self' = Some (py_str e) /\
       w_log w' = w_log w ++ ["Thumbnail error: " +:+ py_str e]) /\
  (forall self w e, w_fault w (w_clock w) = Some e ->
     exists self' w',
       PercentileStretchTask.run self w = (Val (false, self'), w') /\
       PercentileStretchTask.error self' = Some (py_str e) /\
       w_log w' = w_log w ++ [py_str e]) /\
  (* a missing asset key *)
  (forall self w a rest, w_fault w (w_clock w) = None ->
     ThumbnailTask.rgb_assets self = a :: rest -> startswith a "__" = false ->
     ThumbnailTask.assets_dict self !! a = None ->
     exists self' w',
       ThumbnailTask.run self w = (Val (false, self'), w') /\
       ThumbnailTask.error self' = Some (py_repr a) /\
       w_log w' = w_log w ++ ["Thumbnail error: " +:+ py_repr a]) /\
  (* a raster that GDAL cannot open *)
  (forall self w, w_fault w (w_clock w) = None ->
     w_open w (PercentileStretchTask.raster_path self) = None ->
     exists self' w',
       PercentileStretchTask.run self w = (Val (false, self'), w') /\
       PercentileStretchTask.error self'
       = Some ("No se pudo abrir raster: " +:+ PercentileStretchTask.raster_path self) /\
       w_log w'
       = w_log w ++ ["No se pudo abrir raster: " +:+ PercentileStretchTask.raster_path self]) /\
  (* a band that cannot be read *)
  (forall self w d b rest, w_fault w (w_clock w) = None ->
     w_open w (PercentileStretchTask.raster_path self) = Some d ->
     ds_bands d = b :: rest -> band_data b = None ->
     exists self' w',
       PercentileStretchTask.run self w = (Val (false, self'), w') /\
       PercentileStretchTask.error self' = Some "No se pudo leer banda." /\
       w_log w' = w_log w ++ ["No se pudo leer banda."]).
Proof.
  repeat apply conj.
  - intros self w. unfold ThumbnailTask.run.
    destruct (try_except_total (ThumbnailTask.run_body self) (ThumbnailTask.on_error self) w)
      as ([b s] & w' & H); [|eauto].
    intros e w1. unfold ThumbnailTask.on_error, bind, logMessage, ret. eauto.
  - intros self w. unfold PercentileStretchTask.run.
    destruct (try_except_total (PercentileStretchTask.run_body self)
                (PercentileStretchTask.on_error self) w) as ([b s] & w' & H); [|eauto].
    intros e w1. unfold PercentileStretchTask.on_error, bind, logMessage, ret. eauto.
  - intros self w e w1 H. do 2 eexists. split; [exact (thumb_run_raise _ _ _ _ H)|].
    now repeat split.
  - intros self w e w1 H. do 2 eexists. split; [exact (pct_run_raise _ _ _ _ H)|].
    now repeat split.
  - intros self w e Hf. do 2 eexists. split.
    + apply thumb_run_raise. unfold ThumbnailTask.run_body, bind, ext. rewrite Hf. reflexivity.
    + now split.
  - intros self w e Hf. do 2 eexists. split.
    + apply pct_run_raise.
      unfold PercentileStretchTask.run_body, PercentileStretchTask._band_percentiles,
        gdal_Open, bind, ext. rewrite Hf. reflexivity.
    + now split.
  - intros self w a rest Hf Hrgb Hs Ha. do 2 eexists. split.
    + apply thumb_run_raise with (e := KeyError a).
      unfold ThumbnailTask.run_body, bind, ext, uuid4_hex. rewrite Hf.
      unfold ThumbnailTask.is_index_mode. rewrite Hrgb, Hs.
      unfold ThumbnailTask.run_direct, bind. rewrite Hrgb.
      cbn [ThumbnailTask.crop_loop]. unfold bind, ThumbnailTask.crop, bind, py_getitem.
      rewrite Ha. reflexivity.
    + now split.
  - intros self w Hf Ho. do 2 eexists. split.
    + apply pct_run_raise
        with (e := RuntimeError ("No se pudo abrir raster: "
                                 +:+ PercentileStretchTask.raster_path self)).
      unfold PercentileStretchTask.run_body, PercentileStretchTask._band_percentiles,
        gdal_Open, bind, ext. rewrite Hf. cbn. rewrite Ho. reflexivity.
    + now split.
  - intros self w d b rest Hf Ho Hb Hd. do 2 eexists. split.
    + apply pct_run_raise with (e := RuntimeError "No se pudo leer banda.").
      unfold PercentileStretchTask.run_body, PercentileStretchTask._band_percentiles,
        gdal_Open, bind, ext. rewrite Hf. cbn. rewrite Ho. unfold GetRasterBand. rewrite Hb.
      cbn. rewrite Hd. reflexivity.
    + now split.
Qed.

(** ** Cancellation checkpoints *)

Lemma new_events_unique w w' e1 e2 :
  new_events w w' e1 -> new_events w w' e2 -> e1 = e2.
Proof. unfold new_events. intros H1 H2. rewrite H1 in H2. now apply app_inv_head in H2. Qed.

Lemma silent_new_events {A} (m : M A) w r w' :
  silent m -> m w = (r, w') -> new_events w w' [].
Proof. intros Hs H. apply new_events_eq. eapply Hs, H. Qed.

(** One crop: a [gdal.Translate] event, or an exception and no event. *)
Lemma crop_inv self uid a sz w r w' :
  ThumbnailTask.crop self uid a sz w = (r, w') ->
  (exists src, r = Val (ThumbnailTask.tif_path self uid a) /\
     new_events w w' [EvTranslateTif (ThumbnailTask.tif_path self uid a) src
                        (ThumbnailTask.projWin self) sz]) \/
  (exists e, r = Raise e /\ new_events w w' []).
Proof.
  unfold ThumbnailTask.crop. intros H.
  apply bind_inv in H as [(e & H & ->)|(asset & w1 & H1 & H)].
  { right. exists e. split; [reflexivity|]. eapply silent_new_events, H. apply silent_py_getitem. }
  apply (silent_new_events _ _ _ _ (silent_py_getitem _ _)) in H1.
  apply bind_inv in H as [(e & H & ->)|(href & w2 & H2 & H)].
  { right. exists e. split; [reflexivity|].
    apply (silent_new_events _ _ _ _ (silent_py_getitem _ _)) in H.
    apply (new_events_trans _ _ _ _ _ H1 H). }
  apply (silent_new_events _ _ _ _ (silent_py_getitem _ _)) in H2.
  pose proof (new_events_trans _ _ _ _ _ H1 H2) as H12. cbn [app] in H12.
  apply bind_inv in H as [(e & H & ->)|(src & w3 & H3 & H)].
  { right. exists e. split; [reflexivity|].
    apply (silent_new_events _ _ _ _ (silent_src_from_href _)) in H.
    apply (new_events_trans _ _ _ _ _ H12 H). }
  apply (silent_new_events _ _ _ _ (silent_src_from_href _)) in H3.
  pose proof (new_events_trans _ _ _ _ _ H12 H3) as H123. cbn [app] in H123.
  apply bind_inv in H as [(e & H & ->)|([] & w4 & H4 & H)].
  - right. exists e. split; [reflexivity|].
    apply ext_inv in H as [(Hr & _)|(e' & _ & _ & He)]; [discriminate Hr|].
    apply (new_events_trans _ _ _ _ _ H123 He).
  - injection H as <- <-. left. exists src. split; [reflexivity|].
    apply ext_inv in H4 as [(_ & _ & He)|(e' & Hr & _)]; [|discriminate Hr].
    apply (new_events_trans _ _ _ _ _ H123 He).
Qed.

Lemma crop_loop_shape self uid names : forall tifs w r w',
  ThumbnailTask.crop_loop self uid names tifs w = (r, w') ->
  exists evs, new_events w w' evs /\ loop_shape r evs.
Proof.
  induction names as [|a rest IH]; intros tifs w r w' H; cbn [ThumbnailTask.crop_loop] in H.
  - injection H as <- <-. exists []. split; [apply new_events_refl | constructor].
  - apply bind_inv in H as [(e & H & ->)|(out & w1 & H1 & H)].
    + apply crop_inv in H as [(src & Hr & _)|(e' & _ & He)]; [discriminate Hr|].
      exists []. split; [exact He | constructor].
    + apply crop_inv in H1 as [(src & Hr & He1)|(e' & Hr & _)]; [|discriminate Hr].
      apply bind_inv in H as [(e & H & ->)|(c & w2 & H2 & H)].
      * apply isCanceled_inv in H as (c & Hr' & _). discriminate Hr'.
      * apply isCanceled_inv in H2 as (c' & Hc & He2). injection Hc as <-.
        pose proof (new_events_trans _ _ _ _ _ He1 He2) as He12. cbn [app] in He12.
        destruct c.
        -- injection H as <- <-. eexists. split; [exact He12 | constructor].
        -- apply IH in H as (evs & He & Hs).
           eexists. split; [exact (new_events_trans _ _ _ _ _ He12 He)|].
           cbn [app]. now constructor.
Qed.

Lemma loop_shape_polled r evs rest :
  loop_shape r evs -> polled_after is_crop rest = true ->
  polled_after is_crop (evs ++ rest) = true.
Proof. induction 1; intros Hr; cbn; auto. Qed.

Lemma loop_shape_no_output r evs :
  loop_shape r evs -> Forall (fun ev => is_output ev = false) evs.
Proof. induction 1; repeat constructor; assumption. Qed.

Lemma loop_shape_poll_true r evs :
  loop_shape r evs -> In (EvPoll true) evs ->
  r = Val None /\ last evs = Some (EvPoll true).
Proof.
  induction 1; intros Hin.
  - destruct Hin.
  - destruct Hin.
  - now split.
  - destruct Hin as [Hin|[Hin|Hin]]; try discriminate Hin.
    destruct (IHloop_shape Hin) as [-> Hl]. split; [reflexivity|].
    destruct evs as [|ev evs]; [destruct Hin|]. exact Hl.
Qed.

(** ** Events of straight-line code *)

Lemma emits_silent {A} P (m : M A) : silent m -> emits P m.
Proof.
  intros Hs w r w' H. exists []. split; [eapply silent_new_events; eauto | constructor].
Qed.

Lemma emits_ext P ev : P ev -> emits P (ext ev).
Proof.
  intros HP w r w' H. apply ext_inv in H as [(_ & _ & He)|(e & _ & _ & He)].
  - exists [ev]. split; [exact He | now constructor].
  - exists []. split; [exact He | constructor].
Qed.

Lemma emits_bind {A B} P (m : M A) (k : A -> M B) :
  emits P m -> (forall a, emits P (k a)) -> emits P (bind m k).
Proof.
  intros Hm Hk w r w' H. apply bind_inv in H as [(e & H & _)|(a & w1 & H1 & H2)].
  - now apply Hm in H.
  - apply Hm in H1 as (e1 & He1 & HP1). apply Hk in H2 as (e2 & He2 & HP2).
    exists (e1 ++ e2). split; [eapply new_events_trans; eauto | now apply Forall_app].
Qed.

Lemma emits_gdal_Open P path : P (EvOpen path) -> emits P (gdal_Open path).
Proof.
  intros HP. unfold gdal_Open. apply emits_bind; [now apply emits_ext|].
  intros _. apply emits_silent. intros w r w' H. now injection H as <- <-.
Qed.

Lemma emits_crop P self uid a sz :
  (forall src, P (EvTranslateTif (ThumbnailTask.tif_path self uid a) src
                    (ThumbnailTask.projWin self) sz)) ->
  emits P (ThumbnailTask.crop self uid a sz).
Proof.
  intros HP w r w' H. apply crop_inv in H as [(src & _ & He)|(e & _ & He)].
  - eexists. split; [exact He|]. constructor; [apply HP | constructor].
  - eexists. split; [exact He | constructor].
Qed.

Lemma silent_deref ds attr : silent (deref ds attr).
Proof. destruct ds; [apply silent_ret | apply silent_raise]. Qed.

Lemma silent_read_band1_f32 d : silent (read_band1_f32 d).
Proof.
  unfold read_band1_f32. destruct (nth_error (ds_bands d) 0) as [b|]; [|apply silent_raise].
  destruct (band_data b); [apply silent_ret | apply silent_raise].
Qed.

Lemma silent_index_thumb_array b1 b2 : silent (ThumbnailTask.index_thumb_array b1 b2).
Proof.
  unfold ThumbnailTask.index_thumb_array, np_norm_diff.
  apply silent_bind; [|intros; apply silent_ret].
  destruct (zip_same norm_diff b1 b2); [apply silent_ret | apply silent_raise].
Qed.

Ltac emits_steps :=
  repeat first
    [ apply emits_ext; first [reflexivity | split; reflexivity]
    | apply emits_gdal_Open; first [reflexivity | split; reflexivity]
    | apply emits_crop; intros; reflexivity
    | match goal with
      | |- emits _ (match ?x with _ => _ end) => destruct x
      end
    | apply emits_silent;
      first [ apply silent_ret | apply silent_raise | apply silent_py_index
            | apply silent_py_getitem | apply silent_deref | apply silent_read_band1_f32
            | apply silent_index_thumb_array | apply silent_logMessage
            | apply silent_src_from_href ]
    | apply emits_bind; [|intros ?] ].

(** The index branch never polls the flag. *)
Lemma run_index_no_poll self uid :
  emits (fun ev => is_poll ev = false) (ThumbnailTask.run_index self uid).
Proof. unfold ThumbnailTask.run_index. emits_steps. Qed.

Lemma polled_after_none step evs :
  Forall (fun ev => step ev = false) evs -> polled_after step evs = true.
Proof. induction 1 as [|ev evs Hev _ IH]; cbn; [reflexivity | now rewrite Hev]. Qed.

Lemma not_poll_not_in (evs : list event) c :
  Forall (fun ev => is_poll ev = false) evs -> ~ In (EvPoll c) evs.
Proof.
  intros HF Hin. rewrite Forall_forall in HF. apply list_elem_of_In, HF in Hin. discriminate Hin.
Qed.

(** The direct branch: the crop loop, then code that neither crops nor
    polls; a poll that found the flag set ends the branch at once. *)
Lemma run_direct_inv self uid w r w' :
  ThumbnailTask.run_direct self uid w = (r, w') ->
  exists r0 evs0 rest,
    new_events w w' (evs0 ++ rest) /\ loop_shape r0 evs0 /\
    Forall (fun ev => is_crop ev = false /\ is_poll ev = false) rest /\
    (In (EvPoll true) evs0 -> r = Val (false, self) /\ rest = []).
Proof.
  unfold ThumbnailTask.run_direct. intros H.
  apply bind_inv in H as [(e & H & ->)|(cropped & w1 & H1 & H)].
  - apply crop_loop_shape in H as (evs0 & He & Hs).
    exists (Raise e), evs0, []. rewrite app_nil_r.
    split; [exact He|]. split; [exact Hs|]. split; [constructor|].
    intros Hin. apply (loop_shape_poll_true _ _ Hs) in Hin as [Hr _]. discriminate Hr.
  - apply crop_loop_shape in H1 as (evs0 & He & Hs). destruct cropped as [tifs|].
    + assert (Ht : emits (fun ev => is_crop ev = false /\ is_poll ev = false)
        (exec ext (EvBuildVRT (path_join (ThumbnailTask.cache_dir self)
                                 ("thumb_" +:+ uid +:+ ".vrt")) tifs);
         do ds <- gdal_Open (path_join (ThumbnailTask.cache_dir self)
                               ("thumb_" +:+ uid +:+ ".vrt"));
         match ds with
         | None => raise (RuntimeError "No se pudo abrir el VRT para calcular min/max.")
         | Some d =>
             let r1 := _fix (_band_minmax d 1) in
             let r2 := _fix (_band_minmax d 2) in
             let r3 := _fix (_band_minmax d 3) in
             let png := path_join (ThumbnailTask.cache_dir self)
                          ("thumb_" +:+ uid +:+ ".png") in
             exec ext (EvTranslatePng png
                         (path_join (ThumbnailTask.cache_dir self)
                            ("thumb_" +:+ uid +:+ ".vrt"))
                         (Some (ThumbnailTask.size_px self))
                         [ThumbnailTask.byte_scale r1; ThumbnailTask.byte_scale r2;
                          ThumbnailTask.byte_scale r3] None);
             exec logMessage ("Thumbnail listo: " +:+ png);
             ret (true, ThumbnailTask.set_png_path self png)
         end)) by emits_steps.
      apply Ht in H as (rest & Her & HPr).
      exists (Val (Some tifs)), evs0, rest.
      split; [eapply new_events_trans; eauto|]. split; [exact Hs|]. split; [exact HPr|].
      intros Hin. apply (loop_shape_poll_true _ _ Hs) in Hin as [Hr _]. discriminate Hr.
    + injection H as <- <-. exists (Val None), evs0, []. rewrite app_nil_r.
      split; [exact He|]. split; [exact Hs|]. split; [constructor|]. now intros _.
Qed.

Lemma last_cons_nonempty {A} (x : A) (l : list A) y :
  last l = Some y -> last (x :: l) = Some y.
Proof. destruct l; [discriminate | trivial]. Qed.

(** The body of [ThumbnailTask.run]. *)
Lemma thumb_body_events self w r w' :
  ThumbnailTask.run_body self w = (r, w') ->
  exists evs, new_events w w' evs /\
    (ThumbnailTask.is_index_mode (ThumbnailTask.rgb_assets self) = false ->
       polled_after is_crop evs = true) /\
    (In (EvPoll true) evs ->
       r = Val (false, self) /\ Forall (fun ev => is_output ev = false) evs /\
       last evs = Some (EvPoll true)).
Proof.
  unfold ThumbnailTask.run_body. intros H.
  apply bind_inv in H as [(e & H & ->)|([] & w1 & H1 & H)].
  { apply ext_inv in H as [(Hr & _)|(e' & _ & _ & He)]; [discriminate Hr|].
    exists []. split; [exact He|]. split; [reflexivity | intros []]. }
  apply ext_inv in H1 as [(_ & _ & He1)|(e' & Hr & _)]; [|discriminate Hr].
  apply bind_inv in H as [(e & H & ->)|(uid & w2 & H2 & H)]; [discriminate H|].
  injection H2 as <- <-.
  destruct (ThumbnailTask.is_index_mode (ThumbnailTask.rgb_assets self)).
  - apply run_index_no_poll in H as (evs & He & Hnp).
    eexists. split; [exact (new_events_trans _ _ _ _ _ He1 He)|]. split; [discriminate|].
    cbn [app]. intros [Hin|Hin]; [discriminate Hin|].
    now apply not_poll_not_in in Hin.
  - apply run_direct_inv in H as (r0 & evs0 & rest & He & Hs & Hrest & Hc).
    eexists. split; [exact (new_events_trans _ _ _ _ _ He1 He)|]. cbn [app]. split.
    + intros _. cbn. apply (loop_shape_polled _ _ _ Hs), polled_after_none.
      eapply Forall_impl; [exact Hrest|]. now intros ev [Hc' _].
    + intros [Hin|Hin]; [discriminate Hin|].
      apply in_app_or in Hin as [Hin|Hin].
      * destruct (Hc Hin) as [-> ->]. rewrite app_nil_r.
        split; [reflexivity|]. split.
        -- constructor; [reflexivity | now apply loop_shape_no_output in Hs].
        -- apply last_cons_nonempty. now apply (loop_shape_poll_true _ _ Hs).
      * exfalso. revert Hin. apply not_poll_not_in.
        eapply Forall_impl; [exact Hrest|]. now intros ev [_ Hp].
Qed.

Lemma gdal_Open_inv path w r w' :
  gdal_Open path w = (r, w') ->
  (r = Val (w_open w path) /\ new_events w w' [EvOpen path]) \/
  (exists e, r = Raise e /\ new_events w w' []).
Proof.
  unfold gdal_Open. intros H.
  apply bind_inv in H as [(e & H & ->)|([] & w1 & H1 & H)].
  - right. exists e. split; [reflexivity|].
    apply ext_inv in H as [(Hr & _)|(e' & _ & _ & He)]; [discriminate Hr | exact He].
  - left. injection H as <- <-.
    unfold ext in H1. destruct (w_fault w (w_clock w)); [discriminate H1|].
    injection H1 as <-. split; reflexivity.
Qed.

Lemma silent_stretch_range self nodata arr :
  silent (PercentileStretchTask.stretch_range self nodata arr).
Proof.
  unfold PercentileStretchTask.stretch_range.
  destruct (length (valid_samples nodata arr) <? 100)%nat; [apply silent_ret|].
  apply silent_bind; [intros w r w' H; now injection H as <- <-|]. intros vmin.
  apply silent_bind; [intros w r w' H; now injection H as <- <-|]. intros vmax.
  destruct (fle vmax vmin); apply silent_ret.
Qed.

(** One per-band range: the raster is opened, nothing is polled. *)
Lemma band_percentiles_inv self i w r w' :
  PercentileStretchTask._band_percentiles self i w = (r, w') ->
  (exists v, r = Val v /\
     new_events w w' [EvOpen (PercentileStretchTask.raster_path self)]) \/
  (exists e evs, r = Raise e /\ new_events w w' evs /\
     Forall (fun ev => is_poll ev = false) evs).
Proof.
  unfold PercentileStretchTask._band_percentiles. intros H.
  apply bind_inv in H as [(e & H & ->)|(ds & w1 & H1 & H)].
  - right. apply gdal_Open_inv in H as [(Hr & _)|(e' & _ & He)]; [discriminate Hr|].
    exists e, []. repeat split; [exact He | constructor].
  - apply gdal_Open_inv in H1 as [(_ & He1)|(e' & Hr & _)]; [|discriminate Hr].
    assert (Hsil : forall (m : M PercentileStretchTask.range), silent m -> m w1 = (r, w') ->
      (exists v, r = Val v /\
         new_events w w' [EvOpen (PercentileStretchTask.raster_path self)]) \/
      (exists e evs, r = Raise e /\ new_events w w' evs /\
         Forall (fun ev => is_poll ev = false) evs)).
    { intros m Hm Hrun. apply (silent_new_events _ _ _ _ Hm) in Hrun.
      pose proof (new_events_trans _ _ _ _ _ He1 Hrun) as He. cbn [app] in He.
      destruct r as [v|e]; [left; eauto|].
      right. exists e, [EvOpen (PercentileStretchTask.raster_path self)].
      repeat split; [exact He | repeat constructor]. }
    destruct ds as [d|]; [|eapply Hsil; [apply silent_raise | exact H]].
    destruct (GetRasterBand d i) as [b|];
      [|eapply Hsil; [apply silent_raise | exact H]].
    destruct (band_data b); [|eapply Hsil; [apply silent_raise | exact H]].
    eapply Hsil; [apply silent_stretch_range | exact H].
Qed.

(** One statement group of [PercentileStretchTask.run]: a band, then the
    poll. *)
Lemma pct_step_inv self i (k : PercentileStretchTask.range -> M (bool * PercentileStretchTask.t))
    w r w' :
  (do x <- PercentileStretchTask._band_percentiles self i;
   do c <- isCanceled;
   if c then ret (false, self) else k x) w = (r, w') ->
  (exists e evs, r = Raise e /\ new_events w w' evs /\
     Forall (fun ev => is_poll ev = false) evs) \/
  (r = Val (false, self) /\
     new_events w w' [EvOpen (PercentileStretchTask.raster_path self); EvPoll true]) \/
  (exists x w2,
     new_events w w2 [EvOpen (PercentileStretchTask.raster_path self); EvPoll false] /\
     k x w2 = (r, w')).
Proof.
  intros H. apply bind_inv in H as [(e & H & ->)|(x & w1 & H1 & H)].
  - left. apply band_percentiles_inv in H as [(v & Hr & _)|(e' & evs & Hr & He & Hp)];
      [discriminate Hr|]. injection Hr as <-. eauto.
  - apply band_percentiles_inv in H1 as [(v & _ & He1)|(e' & evs & Hr & _)];
      [|discriminate Hr].
    apply bind_inv in H as [(e & H & ->)|(c & w2 & H2 & H)].
    { apply isCanceled_inv in H as (c & Hr & _). discriminate Hr. }
    apply isCanceled_inv in H2 as (c' & Hc & He2). injection Hc as <-.
    pose proof (new_events_trans _ _ _ _ _ He1 He2) as He. cbn [app] in He.
    destruct c.
    + right. left. injection H as <- <-. now split.
    + right. right. eauto.
Qed.

Lemma pct_body_events self w r w' :
  PercentileStretchTask.run_body self w = (r, w') ->
  exists evs, new_events w w' evs /\
    (In (EvPoll true) evs -> r = Val (false, self) /\ last evs = Some (EvPoll true)) /\
    (forall self', r = Val (true, self') ->
       (exists rgb, self' = PercentileStretchTask.set_result self rgb) /\
       evs = [EvOpen (PercentileStretchTask.raster_path self); EvPoll false;
              EvOpen (PercentileStretchTask.raster_path self); EvPoll false;
              EvOpen (PercentileStretchTask.raster_path self); EvPoll false]).
Proof.
  unfold PercentileStretchTask.run_body. intros H.
  assert (Hraise : forall e evs, ~ In (EvPoll true) evs -> r = Raise e ->
            (In (EvPoll true) evs -> r = Val (false, self) /\ last evs = Some (EvPoll true)) /\
            (forall self', r = Val (true, self') ->
               (exists rgb, self' = PercentileStretchTask.set_result self rgb) /\
               evs =
                 [EvOpen (PercentileStretchTask.raster_path self); EvPoll false;
                  EvOpen (PercentileStretchTask.raster_path self); EvPoll false;
                  EvOpen (PercentileStretchTask.raster_path self); EvPoll false])).
  { intros e evs Hn ->. split; [|intros self' Heq; discriminate Heq].
    intros Hin. now destruct Hn. }
  assert (Hnp : forall evs0 evs, Forall (fun ev => is_poll ev = false) evs ->
            Forall (fun ev => ev <> EvPoll true) evs0 -> ~ In (EvPoll true) (evs0 ++ evs)).
  { intros evs0 evs Hp H0 Hin. apply in_app_or in Hin as [Hin|Hin].
    - rewrite Forall_forall in H0. apply list_elem_of_In in Hin. now apply H0 in Hin.
    - revert Hin. now apply not_poll_not_in. }
  apply pct_step_inv in H as [(e & evs & Hr & He & Hp)|[(Hr & He)|(x1 & w1 & He1 & H)]].
  { exists evs. split; [exact He|].
    apply (Hraise e); [apply (Hnp []); [exact Hp | constructor] | exact Hr]. }
  { eexists. split; [exact He|]. subst r.
    split; [intros _; split; reflexivity | intros self' Heq; discriminate Heq]. }
  apply pct_step_inv in H as [(e & evs & Hr & He & Hp)|[(Hr & He)|(x2 & w2 & He2 & H)]].
  { eexists. split; [exact (new_events_trans _ _ _ _ _ He1 He)|].
    apply (Hraise e); [apply Hnp; [exact Hp | repeat constructor; discriminate] | exact Hr]. }
  { eexists. split; [exact (new_events_trans _ _ _ _ _ He1 He)|].
    subst r.
    split; [intros _; split; reflexivity | intros self' Heq; discriminate Heq]. }
  pose proof (new_events_trans _ _ _ _ _ He1 He2) as He12. cbn [app] in He12.
  apply pct_step_inv in H as [(e & evs & Hr & He & Hp)|[(Hr & He)|(x3 & w3 & He3 & H)]].
  { eexists. split; [exact (new_events_trans _ _ _ _ _ He12 He)|].
    apply (Hraise e); [apply Hnp; [exact Hp | repeat constructor; discriminate] | exact Hr]. }
  { eexists. split; [exact (new_events_trans _ _ _ _ _ He12 He)|].
    subst r.
    split; [intros _; split; reflexivity | intros self' Heq; discriminate Heq]. }
  injection H as <- <-.
  eexists. split; [exact (new_events_trans _ _ _ _ _ He12 He3)|]. cbn [app]. split.
  - intros Hin. exfalso. cbn in Hin.
    repeat (destruct Hin as [Hin|Hin]; [discriminate Hin|]). exact Hin.
  - intros self' Heq. injection Heq as <-. split; [eauto | reflexivity].
Qed.

(** C3 (amended): in the direct three-band mode of [ThumbnailTask.run] the
    flag is polled right after each per-band crop, in
    [PercentileStretchTask.run] right after each per-band range; a poll that
    finds the flag set ends the run at once with [False]: it is the last
    event, no VRT or PNG was written and the task object is unchanged
    ([png_path], [result] unset).  A successful stretch has seen the flag
    unset after each of its three bands.  Nothing is polled after the
    compositing or before the export. *)
Theorem cancellation_checkpoints :
  (forall self w r w' evs,
     ThumbnailTask.run self w = (r, w') -> new_events w w' evs ->
     (ThumbnailTask.is_index_mode (ThumbnailTask.rgb_assets self) = false ->
        polled_after is_crop evs = true) /\
     (In (EvPoll true) evs ->
        r = Val (false, self) /\ Forall (fun ev => is_output ev = false) evs /\
        last evs = Some (EvPoll true))) /\
  (forall self w r w' evs,
     PercentileStretchTask.run self w = (r, w') -> new_events w w' evs ->
     (In (EvPoll true) evs -> r = Val (false, self) /\ last evs = Some (EvPoll true)) /\
     (forall self', r = Val (true, self') ->
        (exists rgb, self' = PercentileStretchTask.set_result self rgb) /\
        evs = [EvOpen (PercentileStretchTask.raster_path self); EvPoll false;
               EvOpen (PercentileStretchTask.raster_path self); EvPoll false;
               EvOpen (PercentileStretchTask.raster_path self); EvPoll false])).
Proof.
  split.
  - intros self w r w' evs H Hev. unfold ThumbnailTask.run, try_except in H.
    destruct (ThumbnailTask.run_body self w) as [rb wb] eqn:Hb.
    apply thumb_body_events in Hb as (evs' & He & Hpoll & Hcancel).
    destruct rb as [a|e].
    + injection H as <- <-. rewrite (new_events_unique _ _ _ _ Hev He). now split.
    + injection H as <- <-.
      assert (He' : new_events w (log_line ("Thumbnail error: " +:+ py_str e) wb) evs')
        by exact He.
      rewrite (new_events_unique _ _ _ _ Hev He'). split; [exact Hpoll|].
      intros Hin. destruct (Hcancel Hin) as [Hr _]. discriminate Hr.
  - intros self w r w' evs H Hev. unfold PercentileStretchTask.run, try_except in H.
    destruct (PercentileStretchTask.run_body self w) as [rb wb] eqn:Hb.
    apply pct_body_events in Hb as (evs' & He & Hcancel & Hok).
    destruct rb as [a|e].
    + injection H as <- <-. rewrite (new_events_unique _ _ _ _ Hev He). now split.
    + injection H as <- <-.
      assert (He' : new_events w (log_line (py_str e) wb) evs') by exact He.
      rewrite (new_events_unique _ _ _ _ Hev He'). split.
      * intros Hin. destruct (Hcancel Hin) as [Hr _]. discriminate Hr.
      * intros self' Heq. discriminate Heq.
Qed.

(** ** Running the index branch forward *)

Lemma bind_ext_ok {B} ev (k : unit -> M B) w :
  w_fault w (w_clock w) = None ->
  bind (ext ev) k w = k tt (record ev (set_clock (S (w_clock w)) w)).
Proof. intros H. unfold bind, ext. now rewrite H. Qed.

Lemma bind_ret {A B} (a : A) (k : A -> M B) w : bind (ret a) k w = k a w.
Proof. reflexivity. Qed.

Lemma bind_getitem_ok {V B} (d : gmap string V) key v (k : V -> M B) w :
  d !! key = Some v -> bind (py_getitem d key) k w = k v w.
Proof. intros H. unfold bind, py_getitem. now rewrite H. Qed.

Lemma bind_src {B} href (k : string -> M B) w :
  bind (_src_from_href href) k w
  = k (src_path href) (set_config (src_config href (w_config w)) w).
Proof. unfold bind. now rewrite src_from_href_eq. Qed.

Lemma bind_bind {A B C} (m : M A) (f : A -> M B) (g : B -> M C) w :
  bind (bind m f) g w = bind m (fun a => bind (f a) g) w.
Proof. unfold bind. destruct (m w) as [[a|e] w1]; reflexivity. Qed.

Lemma bind_open_ok {B} path (k : option dataset -> M B) w :
  w_fault w (w_clock w) = None ->
  bind (gdal_Open path) k w
  = k (w_open w path) (record (EvOpen path) (set_clock (S (w_clock w)) w)).
Proof.
  intros H. unfold gdal_Open. rewrite bind_bind, bind_ext_ok by exact H. reflexivity.
Qed.

Lemma bind_read_band1_ok {B} d b more arr (k : list f32 -> M B) w :
  ds_bands d = b :: more -> band_data b = Some arr ->
  bind (read_band1_f32 d) k w = k (map F32.round arr) w.
Proof. intros Hb Hd. unfold bind, read_band1_f32. rewrite Hb. cbn. now rewrite Hd. Qed.

(** One sized crop in a world without faults. *)
Lemma bind_crop_ok {B} self uid a sz A href (k : string -> M B) w :
  ThumbnailTask.assets_dict self !! a = Some A -> A !! "href" = Some href ->
  w_fault w (w_clock w) = None ->
  bind (ThumbnailTask.crop self uid a sz) k w
  = k (ThumbnailTask.tif_path self uid a)
      (record (EvTranslateTif (ThumbnailTask.tif_path self uid a) (src_path href)
                 (ThumbnailTask.projWin self) sz)
         (set_clock (S (w_clock w)) (set_config (src_config href (w_config w)) w))).
Proof.
  intros HA Hh Hf. unfold ThumbnailTask.crop.
  rewrite !bind_bind, (bind_getitem_ok _ _ _ _ _ HA).
  rewrite !bind_bind, (bind_getitem_ok _ _ _ _ _ Hh).
  rewrite !bind_bind, bind_src.
  rewrite !bind_bind, bind_ext_ok by exact Hf. reflexivity.
Qed.

Lemma scale_bands_s2 b1 b2 : scale_bands "s2" b1 b2 = (b1, b2).
Proof. reflexivity. Qed.

Ltac tidy :=
  cbn [w_clock w_fault w_open w_uid w_config record set_clock set_trace set_config].

Ltac tidy_in H :=
  cbn [w_clock w_fault w_open w_uid w_config record set_clock set_trace set_config] in H.

(** C4 (amended): in index-as-colour mode, in a world without faults where
    both assets are listed and both crops open with data of one shape,
    [ThumbnailTask.run] crops the two bands at [size_px], writes
    [(b1 - b2) / (b1 + b2)] of the raw cropped values with only the
    non-finite quotients replaced by [-9999] (no sensor scaling, no clip to
    [[-1, 1]]: the index raster is the clip of this array), stacks that one
    band three times and exports the PNG with the fixed scale
    [[-1, 1] -> [0, 255]] and nodata [-9999]. *)
Theorem index_thumbnail_run (self : ThumbnailTask.t) (w : world)
    (m a1 a2 : string) (rest : list string) (A1 A2 : gmap string string)
    (href1 href2 : string) (d1 d2 : dataset) (bd1 bd2 : band) (more1 more2 : list band)
    (arr1 arr2 : list spec_float) (q : list f32) :
  let mode := upper (strip "_" m) in
  let a2' := nbr_fallback mode a2 (ThumbnailTask.assets_dict self) in
  let t1 := ThumbnailTask.tif_path self (w_uid w) a1 in
  let t2 := ThumbnailTask.tif_path self (w_uid w) a2' in
  let dir := ThumbnailTask.cache_dir self in
  let out_idx := path_join dir ("thumb_" +:+ w_uid w +:+ "_" +:+ mode +:+ ".tif") in
  let vrt := path_join dir ("thumb_" +:+ w_uid w +:+ "_" +:+ mode +:+ ".vrt") in
  let png := path_join dir ("thumb_" +:+ w_uid w +:+ ".png") in
  let size := Some (ThumbnailTask.size_px self) in
  ThumbnailTask.rgb_assets self = m :: a1 :: a2 :: rest ->
  startswith m "__" = true ->
  ThumbnailTask.assets_dict self !! a1 = Some A1 -> A1 !! "href" = Some href1 ->
  ThumbnailTask.assets_dict self !! a2' = Some A2 -> A2 !! "href" = Some href2 ->
  (forall n, w_fault w n = None) ->
  w_open w t1 = Some d1 -> w_open w t2 = Some d2 ->
  ds_bands d1 = bd1 :: more1 -> band_data bd1 = Some arr1 ->
  ds_bands d2 = bd2 :: more2 -> band_data bd2 = Some arr2 ->
  zip_same norm_diff (map F32.round arr1) (map F32.round arr2) = Some q ->
  exists w',
    ThumbnailTask.run self w = (Val (true, ThumbnailTask.set_png_path self png), w') /\
    new_events w w'
      [EvMakedirs dir;
       EvTranslateTif t1 (src_path href1) (ThumbnailTask.projWin self) size;
       EvTranslateTif t2 (src_path href2) (ThumbnailTask.projWin self) size;
       EvOpen t1; EvOpen t2;
       EvCreate out_idx (RasterXSize d1) (RasterYSize d1);
       EvSetGeo out_idx (GeoTransform d1) (Projection d1);
       EvWriteArray out_idx (map fill_nonfinite q);
       EvSetNoDataValue out_idx NODATA;
       EvBuildVRT vrt [out_idx; out_idx; out_idx];
       EvTranslatePng png vrt None
         [ThumbnailTask.index_scale; ThumbnailTask.index_scale; ThumbnailTask.index_scale]
         (Some NODATA)] /\
    scaled_index_unclipped "s2" (map F32.round arr1) (map F32.round arr2)
      = Some (map fill_nonfinite q) /\
    index_array "s2" (map F32.round arr1) (map F32.round arr2)
      = Some (map where_clip (map fill_nonfinite q)) /\
    ThumbnailTask.index_scale = (F64.of_Z (-1), F64.of_Z 1, F64.of_Z 0, F64.of_Z 255).
Proof.
  intros mode a2' t1 t2 dir out_idx vrt png size
    Hrgb Hm HA1 Hh1 HA2 Hh2 Hnf Ho1 Ho2 Hb1 Hd1 Hb2 Hd2 Hq.
  eexists. split; [|split; [|split; [|split]]].
  - unfold ThumbnailTask.run, try_except, ThumbnailTask.run_body.
    rewrite bind_ext_ok by apply Hnf. tidy.
    unfold uuid4_hex at 1. unfold bind at 1. tidy.
    unfold ThumbnailTask.is_index_mode. rewrite Hrgb, Hm.
    unfold ThumbnailTask.run_index. rewrite Hrgb.
    unfold py_index. cbn [nth_error]. rewrite !bind_ret.
    rewrite (bind_crop_ok _ _ _ _ _ _ _ _ HA1 Hh1) by apply Hnf. tidy.
    rewrite (bind_crop_ok _ _ _ _ _ _ _ _ HA2 Hh2) by apply Hnf. tidy.
    rewrite bind_open_ok by apply Hnf. tidy.
    rewrite bind_open_ok by apply Hnf. tidy.
    fold mode a2' t1 t2. rewrite Ho1, Ho2.
    cbn [deref]. rewrite (bind_ret d1), (bind_read_band1_ok _ _ _ _ _ _ Hb1 Hd1).
    rewrite (bind_ret d2), (bind_read_band1_ok _ _ _ _ _ _ Hb2 Hd2).
    unfold ThumbnailTask.index_thumb_array, np_norm_diff. rewrite Hq.
    rewrite bind_bind, (bind_ret q), (bind_ret (map fill_nonfinite q)).
    do 6 (rewrite bind_ext_ok by apply Hnf; tidy).
    reflexivity.
  - unfold new_events. cbn [w_trace record set_clock set_trace set_config].
    rewrite <- !app_assoc. reflexivity.
  - unfold scaled_index_unclipped. rewrite scale_bands_s2. cbv beta iota.
    now rewrite (zip_same_compose norm_diff fill_nonfinite), Hq.
  - rewrite index_array_clean. unfold quotient_array. rewrite scale_bands_s2.
    cbv beta iota. rewrite Hq. cbn [option_map]. now rewrite map_map.
  - reflexivity.
Qed.

(** ** The SWIR2 fallback *)

Lemma py_in_true {V} k (d : gmap string V) : py_in k d = true <-> is_Some (d !! k).
Proof.
  unfold py_in. destruct (d !! k); split; intros H; try reflexivity; try discriminate.
  - eauto.
  - now destruct H.
Qed.

Lemma py_in_false {V} k (d : gmap string V) : py_in k d = false <-> d !! k = None.
Proof. unfold py_in. destruct (d !! k); split; intros H; congruence. Qed.

Lemma nbr_fallback_fires mode a2 assets :
  mode = "NBR" -> assets !! a2 = None -> is_Some (assets !! "swir2") ->
  nbr_fallback mode a2 assets = "swir2".
Proof.
  intros -> Ha Hs. unfold nbr_fallback.
  apply py_in_false in Ha. apply py_in_true in Hs. now rewrite Ha, Hs.
Qed.

Lemma nbr_fallback_keeps mode a2 assets :
  ~ (mode = "NBR" /\ assets !! a2 = None /\ is_Some (assets !! "swir2")) ->
  nbr_fallback mode a2 assets = a2.
Proof.
  intros Hn. unfold nbr_fallback.
  destruct (String.eqb_spec mode "NBR") as [Hm|]; [|reflexivity].
  destruct (py_in a2 assets) eqn:Ha; [reflexivity|].
  destruct (py_in "swir2" assets) eqn:Hs; [|reflexivity].
  exfalso. apply Hn. split; [exact Hm|]. split; [now apply py_in_false | now apply py_in_true].
Qed.

(** Every computation only adds to the trace. *)
Lemma emits_any_crop self uid a sz :
  emits (fun _ => True) (ThumbnailTask.crop self uid a sz).
Proof. now apply emits_crop. Qed.

Lemma bind_crop_one_ok {B} assets out_dir prefix uid box a A href (k : string -> M B) w :
  assets !! a = Some A -> A !! "href" = Some href ->
  w_fault w (w_clock w) = None ->
  bind (SceneBrowserDock._crop_one assets out_dir prefix uid box a) k w
  = k (SceneBrowserDock.tif_path out_dir prefix uid a)
      (record (EvTranslateTif (SceneBrowserDock.tif_path out_dir prefix uid a)
                 (src_path href) (SceneBrowserDock.projWin box) None)
         (set_clock (S (w_clock w)) (set_config (src_config href (w_config w)) w))).
Proof.
  intros HA Hh Hf. unfold SceneBrowserDock._crop_one.
  rewrite !bind_bind, (bind_getitem_ok _ _ _ _ _ HA).
  rewrite !bind_bind, (bind_getitem_ok _ _ _ _ _ Hh).
  rewrite !bind_bind, bind_src.
  rewrite !bind_bind, bind_ext_ok by exact Hf. reflexivity.
Qed.

Lemma silent_grid_bounds d : silent (SceneBrowserDock.grid_bounds d).
Proof.
  unfold SceneBrowserDock.grid_bounds.
  repeat (apply silent_bind; [apply silent_py_index | intros ?]). apply silent_ret.
Qed.

Ltac trace_steps :=
  repeat first
    [ apply emits_ext; exact I
    | apply emits_gdal_Open; exact I
    | apply emits_any_crop
    | match goal with
      | |- emits _ (match ?x with _ => _ end) => destruct x
      end
    | apply emits_silent;
      first [ apply silent_ret | apply silent_raise | apply silent_py_index
            | apply silent_py_getitem | apply silent_deref | apply silent_read_band1_f32
            | apply silent_index_thumb_array | apply silent_logMessage
            | apply silent_src_from_href | apply silent_grid_bounds
            | intros ? ? ? ?; match goal with
                              | H : (if ?c then _ else _) = _ |- _ =>
                                  destruct c; now injection H as <- <-
                              end ]
    | apply emits_bind; [|intros ?] ].

(** The index branch starts with the crops of the first band and of the
    resolved second band. *)
Lemma run_index_first_crops self m a1 a2 rest A1 A2 href1 href2 w r w' :
  let a2' := nbr_fallback (upper (strip "_" m)) a2 (ThumbnailTask.assets_dict self) in
  ThumbnailTask.rgb_assets self = m :: a1 :: a2 :: rest ->
  ThumbnailTask.assets_dict self !! a1 = Some A1 -> A1 !! "href" = Some href1 ->
  ThumbnailTask.assets_dict self !! a2' = Some A2 -> A2 !! "href" = Some href2 ->
  (forall n, w_fault w n = None) ->
  ThumbnailTask.run_index self (w_uid w) w = (r, w') ->
  exists tail, new_events w w'
    (EvTranslateTif (ThumbnailTask.tif_path self (w_uid w) a1) (src_path href1)
       (ThumbnailTask.projWin self) (Some (ThumbnailTask.size_px self))
     :: EvTranslateTif (ThumbnailTask.tif_path self (w_uid w) a2') (src_path href2)
          (ThumbnailTask.projWin self) (Some (ThumbnailTask.size_px self))
     :: tail).
Proof.
  intros a2' Hrgb HA1 Hh1 HA2 Hh2 Hnf H.
  unfold ThumbnailTask.run_index in H. rewrite Hrgb in H.
  unfold py_index in H. cbn [nth_error] in H. rewrite !bind_ret in H. fold a2' in H.
  rewrite (bind_crop_ok _ _ _ _ _ _ _ _ HA1 Hh1) in H by apply Hnf. tidy_in H.
  rewrite (bind_crop_ok _ _ _ _ _ _ _ _ HA2 Hh2) in H by apply Hnf. tidy_in H.
  match type of H with
  | ?prog ?w2 = _ => assert (Ht : emits (fun _ => True) prog) by trace_steps
  end.
  apply Ht in H as (tail & He & _). exists tail.
  unfold new_events in *. rewrite He. cbn [w_trace record set_trace set_clock set_config].
  rewrite <- !app_assoc. reflexivity.
Qed.

(** C10: in NBR mode, when the requested second band is not in the
    manifest and "swir2" is, the second band becomes "swir2"; in every
    other (mode, asset) case the requested name is kept.  Both pipelines
    crop the first band and then that resolved second band: with both listed
    and no call failing, an index-mode [ThumbnailTask.run], whose mode is
    its marker stripped of "_" and upper-cased ("__NBR__" gives "NBR"), and
    [_crop_assets_to_index_tif] start with exactly these two crops instead
    of raising [KeyError] on the requested name. *)
Theorem swir2_fallback (mode a2 : string) (assets : manifest) :
  let a2' := nbr_fallback (upper mode) a2 assets in
  (upper mode = "NBR" -> assets !! a2 = None -> is_Some (assets !! "swir2") ->
     a2' = "swir2") /\
  (~ (upper mode = "NBR" /\ assets !! a2 = None /\ is_Some (assets !! "swir2")) ->
     a2' = a2) /\
  (upper (strip "_" "__NBR__") = "NBR" /\ upper (strip "_" "__NDVI__") = "NDVI" /\
   upper (strip "_" "__nbr__") = "NBR") /\
  (forall self m a1 rest A1 A2 href1 href2 w r w',
     let a2t := nbr_fallback (upper (strip "_" m)) a2 assets in
     ThumbnailTask.assets_dict self = assets ->
     ThumbnailTask.rgb_assets self = m :: a1 :: a2 :: rest ->
     startswith m "__" = true ->
     assets !! a1 = Some A1 -> A1 !! "href" = Some href1 ->
     assets !! a2t = Some A2 -> A2 !! "href" = Some href2 ->
     (forall n, w_fault w n = None) ->
     ThumbnailTask.run self w = (r, w') ->
     exists tail, new_events w w'
       (EvMakedirs (ThumbnailTask.cache_dir self)
        :: EvTranslateTif (ThumbnailTask.tif_path self (w_uid w) a1) (src_path href1)
             (ThumbnailTask.projWin self) (Some (ThumbnailTask.size_px self))
        :: EvTranslateTif (ThumbnailTask.tif_path self (w_uid w) a2t) (src_path href2)
             (ThumbnailTask.projWin self) (Some (ThumbnailTask.size_px self))
        :: tail)) /\
  (forall a1 prefix title box out_dir A1 A2 href1 href2 w r w',
     assets !! a1 = Some A1 -> A1 !! "href" = Some href1 ->
     assets !! a2' = Some A2 -> A2 !! "href" = Some href2 ->
     (forall n, w_fault w n = None) ->
     SceneBrowserDock._crop_assets_to_index_tif assets mode a1 a2 prefix title box out_dir w
       = (r, w') ->
     exists tail, new_events w w'
       (EvTranslateTif (SceneBrowserDock.tif_path out_dir prefix (w_uid w) a1)
          (src_path href1) (SceneBrowserDock.projWin box) None
        :: EvTranslateTif (SceneBrowserDock.tif_path out_dir prefix (w_uid w) a2')
             (src_path href2) (SceneBrowserDock.projWin box) None
        :: tail)).
Proof.
  intros a2'. split; [|split; [|split; [|split]]].
  - apply nbr_fallback_fires.
  - apply nbr_fallback_keeps.
  - vm_compute. now repeat split.
  - intros self m a1 rest A1 A2 href1 href2 w r w' a2t Hass Hrgb Hmark HA1 Hh1 HA2 Hh2 Hnf H.
    unfold ThumbnailTask.run, try_except, ThumbnailTask.run_body in H.
    rewrite bind_ext_ok in H by apply Hnf. tidy_in H.
    unfold uuid4_hex at 1 in H. unfold bind at 1 in H. tidy_in H.
    unfold ThumbnailTask.is_index_mode in H. rewrite Hrgb, Hmark in H.
    match type of H with
    | (let (_, _) := ThumbnailTask.run_index _ _ ?w1 in _) = _ =>
        destruct (ThumbnailTask.run_index self (w_uid w) w1) as [rb wb] eqn:Hb;
        apply (run_index_first_crops self m a1 a2 rest A1 A2 href1 href2 w1) in Hb
    end; try assumption.
    + destruct Hb as (tail & Hb). exists tail.
      rewrite Hass in Hb. fold a2t in Hb.
      assert (Hw : w_trace w' = w_trace wb) by (destruct rb; now injection H as <- <-).
      unfold new_events in *. rewrite Hw, Hb. cbn [w_trace record set_trace set_clock].
      rewrite <- app_assoc. reflexivity.
    + now rewrite Hass.
    + rewrite Hass. exact HA2.
  - intros a1 prefix title box out_dir A1 A2 href1 href2 w r w' HA1 Hh1 HA2 Hh2 Hnf H.
    unfold SceneBrowserDock._crop_assets_to_index_tif in H.
    unfold uuid4_hex at 1 in H. unfold bind at 1 in H. fold a2' in H.
    rewrite (bind_crop_one_ok _ _ _ _ _ _ _ _ _ _ HA1 Hh1) in H by apply Hnf. tidy_in H.
    rewrite (bind_crop_one_ok _ _ _ _ _ _ _ _ _ _ HA2 Hh2) in H by apply Hnf. tidy_in H.
    match type of H with
    | ?prog ?w2 = _ => assert (Ht : emits (fun _ => True) prog) by trace_steps
    end.
    apply Ht in H as (tail & He & _). exists tail.
    unfold new_events in *. rewrite He. cbn [w_trace record set_trace set_clock set_config].
    rewrite <- !app_assoc. reflexivity.
Qed.

(* ===================================================================== *)
(** * Theorems: the written index raster *)
(* ===================================================================== *)

Ltac bind_val H x w1 H1 :=
  let e := fresh "e" in
  let Hr := fresh "Hr" in
  apply bind_inv in H as [(e & _ & Hr)|(x & w1 & H1 & H)]; [discriminate Hr|].

Lemma ext_val ev w u w' :
  ext ev w = (Val u, w') -> w_trace w' = w_trace w ++ [ev].
Proof.
  intros H. apply ext_inv in H as [(_ & _ & He)|(e & Hr & _)]; [exact He | discriminate Hr].
Qed.

(** A successful [_crop_assets_to_index_tif] has written [index_array] of
    the two arrays it read. *)
Lemma index_tif_inv assets mode a1 a2 prefix title box dir w p idx w' :
  SceneBrowserDock._crop_assets_to_index_tif assets mode a1 a2 prefix title box dir w
    = (Val (p, idx), w') ->
  In (EvWriteArray p idx) (w_trace w') /\
  exists b1 b2, index_array prefix b1 b2 = Some idx.
Proof.
  unfold SceneBrowserDock._crop_assets_to_index_tif. intros H.
  bind_val H uid w1 H1. bind_val H t1 w2 H2. bind_val H t2 w3 H3.
  bind_val H ds1 w4 H4. bind_val H ds2 w5 H5. bind_val H d1 w6 H6.
  bind_val H bounds w7 H7. bind_val H u8 w8 H8. bind_val H ds2m w9 H9.
  bind_val H b1 w10 H10. bind_val H d2m w11 H11. bind_val H b2 w12 H12.
  destruct (index_array prefix b1 b2) as [idx0|] eqn:Hidx; [|discriminate H].
  bind_val H u13 w13 H13. bind_val H u14 w14 H14. bind_val H u15 w15 H15.
  bind_val H u16 w16 H16. bind_val H u17 w17 H17.
  destruct (w_layer_valid w17 _); [|discriminate H].
  injection H as <- <- <-. split; [|eauto].
  apply ext_val in H15, H16, H17. rewrite H17, H16, H15.
  apply in_or_app. left. apply in_or_app. left. apply in_or_app. right. now left.
Qed.

Lemma clean_as_claimed (q : f32) : cleaned_as_claimed q.
Proof.
  split; [|split; [|split]].
  - intros Hf. unfold clean, fill_nonfinite. now rewrite Hf.
  - intros Hf Hne. unfold clean, fill_nonfinite, where_clip. rewrite Hf, Hne.
    split; [reflexivity|]. apply np_clip_in_unit. now destruct q.
  - intros He. unfold clean, fill_nonfinite, where_clip.
    destruct (isfinite q); [now rewrite He | reflexivity].
  - intros Hm. destruct (clean_codomain q) as [Hs|Hu]; [|exact Hu].
    rewrite Hs in Hm. discriminate.
Qed.

Lemma index_array_codomain prefix b1 b2 out :
  index_array prefix b1 b2 = Some out ->
  Forall (fun r => in_unit r = true \/ r = NODATA) out.
Proof.
  unfold index_array. destruct (scale_bands prefix b1 b2) as [s1 s2]. intros Ho.
  eapply zip_same_Forall; [|exact Ho].
  intros x y. unfold index_pixel.
  destruct (clean_codomain (norm_diff x y)); [now right | now left].
Qed.

(** C1: the array written by [_crop_assets_to_index_tif] is the cleaned
    quotient array: every non-finite quotient has become the sentinel
    [-9999], every finite quotient other than the sentinel has gone through
    [np.clip(., -1, 1)] and lies in [[-1, 1]], a sentinel-valued quotient
    stays the sentinel; so for every pair of band arrays every written pixel
    that is not sentinel-marked lies in [[-1, 1]]. *)
Theorem index_clean_step (assets : manifest) (mode a1 a2 prefix title : string)
    (box : BoundingBox) (dir : string) (w w' : world) (p : string) (idx : list f32) :
  SceneBrowserDock._crop_assets_to_index_tif assets mode a1 a2 prefix title box dir w
    = (Val (p, idx), w') ->
  In (EvWriteArray p idx) (w_trace w') /\
  (exists b1 b2 qs, quotient_array prefix b1 b2 = Some qs /\ idx = map clean qs /\
     Forall cleaned_as_claimed qs) /\
  Forall (fun r => feq r NODATA = false -> in_unit r = true) idx /\
  (forall b1 b2 qs, quotient_array prefix b1 b2 = Some qs ->
     index_array prefix b1 b2 = Some (map clean qs) /\
     Forall cleaned_as_claimed qs /\
     Forall (fun r => feq r NODATA = false -> in_unit r = true) (map clean qs)).
Proof.
  assert (Hpix : forall qs, Forall (fun r => feq r NODATA = false -> in_unit r = true)
                              (map clean qs)).
  { intros qs. apply Forall_forall. intros r Hr. apply list_elem_of_In, in_map_iff in Hr.
    destruct Hr as (q & <- & _). apply clean_as_claimed. }
  assert (Hall : forall qs, Forall cleaned_as_claimed qs).
  { intros qs. apply Forall_forall. intros q _. apply clean_as_claimed. }
  intros H. apply index_tif_inv in H as (Hw & b1 & b2 & Hidx).
  rewrite index_array_clean in Hidx.
  destruct (quotient_array prefix b1 b2) as [qs|] eqn:Hq; [|discriminate Hidx].
  injection Hidx as <-. split; [exact Hw|]. split; [|split].
  - exists b1, b2, qs. split; [exact Hq|]. split; [reflexivity | apply Hall].
  - apply Hpix.
  - intros c1 c2 qs' Hq'. rewrite index_array_clean, Hq'.
    split; [reflexivity|]. split; [apply Hall | apply Hpix].
Qed.

Lemma index_clean_step_witness :
  let out := ndvi_request (ndvi_world [3; 0; 1]%Z [1; 0; -3]%Z) in
  In (EvWriteArray "/p/s2_0f_NDVI.tif"
        [S754_finite false 8388608 (-24); NODATA; S754_finite true 8388608 (-23)])
     (w_trace (snd out)) /\
  Forall (fun r => feq r NODATA = false -> in_unit r = true)
    [S754_finite false 8388608 (-24); NODATA; S754_finite true 8388608 (-23)].
Proof.
  intros out.
  destruct (index_clean_step s2_assets "NDVI" "nir" "red" "s2" "NDVI | scene" aoi "/p"
              (ndvi_world [3; 0; 1]%Z [1; 0; -3]%Z) (snd out) "/p/s2_0f_NDVI.tif"
              [S754_finite false 8388608 (-24); NODATA; S754_finite true 8388608 (-23)])
    as (Hw & _ & Hpix & _).
  - vm_compute. reflexivity.
  - split; [exact Hw | exact Hpix].
Defined.

(** C9: every element of the array written by [_crop_assets_to_index_tif]
    is in [[-1, 1]] or is exactly [-9999], for every pair of band arrays; a
    quotient that compares equal to [-9999] is written as the sentinel
    (outside [[-1, 1]], not clipped), and finite bands with such a finite
    quotient exist. *)
Theorem index_codomain (assets : manifest) (mode a1 a2 prefix title : string)
    (box : BoundingBox) (dir : string) (w w' : world) (p : string) (idx : list f32) :
  SceneBrowserDock._crop_assets_to_index_tif assets mode a1 a2 prefix title box dir w
    = (Val (p, idx), w') ->
  Forall (fun r => in_unit r = true \/ r = NODATA) idx /\
  (forall b1 b2 out, index_array prefix b1 b2 = Some out ->
     Forall (fun r => in_unit r = true \/ r = NODATA) out) /\
  (forall x1 x2, feq (norm_diff x1 x2) NODATA = true ->
     index_pixel x1 x2 = NODATA /\ in_unit (index_pixel x1 x2) = false /\
     index_pixel x1 x2 <> np_clip (norm_diff x1 x2) f32_mone f32_one) /\
  (exists x1 x2, isfinite x1 = true /\ isfinite x2 = true /\
     isfinite (norm_diff x1 x2) = true /\ norm_diff x1 x2 = NODATA).
Proof.
  intros H. apply index_tif_inv in H as (_ & b1 & b2 & Hidx).
  split; [|split; [|split]].
  - now apply index_array_codomain in Hidx.
  - intros c1 c2 out. apply index_array_codomain.
  - intros x1 x2 He.
    assert (Hp : index_pixel x1 x2 = NODATA).
    { unfold index_pixel, clean, fill_nonfinite, where_clip.
      destruct (isfinite (norm_diff x1 x2)); [now rewrite He | reflexivity]. }
    rewrite Hp. split; [reflexivity|]. split; [reflexivity|].
    intros Hc.
    assert (Hn : is_nan (norm_diff x1 x2) = false).
    { destruct (norm_diff x1 x2); try reflexivity. discriminate He. }
    pose proof (np_clip_in_unit _ Hn) as Hu. rewrite <- Hc in Hu. discriminate Hu.
  - exists (F32.of_Z (-4999)), (F32.of_Z 5000). repeat split.
Qed.

Lemma index_codomain_witness :
  Forall (fun r => in_unit r = true \/ r = NODATA)
    [S754_finite false 8388608 (-24); NODATA; NODATA].
Proof.
  apply (index_codomain s2_assets "NDVI" "nir" "red" "s2" "NDVI | scene" aoi "/p"
           (ndvi_world [3; 0; -4999]%Z [1; 0; 5000]%Z)
           (snd (ndvi_request (ndvi_world [3; 0; -4999]%Z [1; 0; 5000]%Z)))
           "/p/s2_0f_NDVI.tif").
  vm_compute. reflexivity.
Defined.

(* ===================================================================== *)
(** * Theorems: sensor scaling in the compositor *)
(* ===================================================================== *)

(** C7: the Landsat transform [value * 0.0000275 + (-0.2)] is applied to
    both bands before the index math exactly when the request prefix
    names the Landsat family ([prefix.lower() == "ls"]); otherwise, and so
    for the Sentinel-2 prefix "s2", both bands enter the formula unscaled.
    The transform is the float32 product and sum with the two constants: a
    digital number 0 becomes -0.2, 10000 becomes 0.075 and 20000 becomes
    0.35 (one unit in the last place above the nearest float32).  The array
    a successful [_crop_assets_to_index_tif] writes is the index of the
    scaled bands for a Landsat prefix and of the bands as read otherwise. *)
Theorem ls_scaling_iff (prefix : string) :
  ((forall b1 b2, scale_bands prefix b1 b2 = (map ls_scale b1, map ls_scale b2))
     <-> lower prefix = "ls") /\
  ((forall b1 b2, scale_bands prefix b1 b2 = (b1, b2)) <-> lower prefix <> "ls") /\
  (forall b1 b2, index_array prefix b1 b2 =
     zip_same index_pixel (fst (scale_bands prefix b1 b2)) (snd (scale_bands prefix b1 b2))) /\
  (forall x, ls_scale x =
     F32.add (F32.mul x (F32.round (F64.decimal 275 7))) (F32.round (F64.decimal (-2) 1))) /\
  (ls_scale (F32.of_Z 0) = F32.round (F64.decimal (-2) 1) /\
   ls_scale (F32.of_Z 0) = S754_finite true 13421773 (-26) /\
   ls_scale (F32.of_Z 10000) = F32.round (F64.decimal 75 3) /\
   ls_scale (F32.of_Z 10000) = S754_finite false 10066330 (-27) /\
   ls_scale (F32.of_Z 20000) = S754_finite false 11744052 (-25) /\
   F32.round (F64.decimal 35 2) = S754_finite false 11744051 (-25)) /\
  (forall (assets : manifest) mode a1 a2 title box dir w p idx w',
     SceneBrowserDock._crop_assets_to_index_tif assets mode a1 a2 prefix title box dir w
       = (Val (p, idx), w') ->
     In (EvWriteArray p idx) (w_trace w') /\
     exists b1 b2,
       zip_same index_pixel
         (if String.eqb (lower prefix) "ls" then map ls_scale b1 else b1)
         (if String.eqb (lower prefix) "ls" then map ls_scale b2 else b2) = Some idx) /\
  is_ls "ls" = true /\ is_ls "s2" = false.
Proof.
  assert (Hdiff : ([F32.of_Z 1], @nil f32) <> (map ls_scale [F32.of_Z 1], map ls_scale [])).
  { intros H. apply ls_scale_one_moved.
    exact (f_equal (fun p => hd S754_nan (fst p)) (eq_sym H)). }
  assert (Hidx : forall b1 b2, index_array prefix b1 b2 =
     zip_same index_pixel (fst (scale_bands prefix b1 b2)) (snd (scale_bands prefix b1 b2))).
  { intros b1 b2. unfold index_array. now destruct (scale_bands prefix b1 b2). }
  split; [|split; [|split; [exact Hidx|split; [|split; [|split; [|split]]]]]].
  - unfold scale_bands, is_ls. destruct (String.eqb_spec (lower prefix) "ls") as [E|E].
    + split; [intros _; exact E | intros _ b1 b2; reflexivity].
    + split; [|intros E'; contradiction].
      intros H. exfalso. apply Hdiff. exact (H [F32.of_Z 1] []).
  - unfold scale_bands, is_ls. destruct (String.eqb_spec (lower prefix) "ls") as [E|E].
    + split; [|intros E'; contradiction].
      intros H. exfalso. apply Hdiff. symmetry. exact (H [F32.of_Z 1] []).
    + split; [intros _; exact E | intros _ b1 b2; reflexivity].
  - intros x. reflexivity.
  - vm_compute. repeat apply conj; reflexivity.
  - intros assets mode a1 a2 title box dir w p idx w' H.
    apply index_tif_inv in H as (Hin & b1 & b2 & Hidx').
    split; [exact Hin|]. exists b1, b2. rewrite <- Hidx'.
    unfold index_array, scale_bands, is_ls. now destruct (String.eqb (lower prefix) "ls").
  - reflexivity.
  - reflexivity.
Qed.

Lemma ls_scaling_iff_witness :
  let out := ls_ndvi_request (ls_ndvi_world [20000]%Z [10000]%Z) in
  let out_s2 := ndvi_request (ndvi_world [20000]%Z [10000]%Z) in
  (scale_bands "ls" [F32.of_Z 20000] [F32.of_Z 10000]
     = (map ls_scale [F32.of_Z 20000], map ls_scale [F32.of_Z 10000]) /\
   scale_bands "s2" [F32.of_Z 20000] [F32.of_Z 10000]
     = ([F32.of_Z 20000], [F32.of_Z 10000])) /\
  (fst out = Val ("/p/ls_0f_NDVI.tif", [S754_finite false 10855847 (-24)]) /\
   In (EvWriteArray "/p/ls_0f_NDVI.tif" [S754_finite false 10855847 (-24)])
     (w_trace (snd out)) /\
   index_pixel (ls_scale (F32.of_Z 20000)) (ls_scale (F32.of_Z 10000))
     = S754_finite false 10855847 (-24)) /\
  (fst out_s2 = Val ("/p/s2_0f_NDVI.tif", [S754_finite false 11184811 (-25)]) /\
   In (EvWriteArray "/p/s2_0f_NDVI.tif" [S754_finite false 11184811 (-25)])
     (w_trace (snd out_s2)) /\
   index_pixel (F32.of_Z 20000) (F32.of_Z 10000) = S754_finite false 11184811 (-25)).
Proof.
  intros out out_s2. split; [|split].
  - split.
    + apply (proj2 (proj1 (ls_scaling_iff "ls"))). reflexivity.
    + apply (proj2 (proj1 (proj2 (ls_scaling_iff "s2")))). discriminate.
  - split; [vm_compute; reflexivity|]. split; [|vm_compute; reflexivity].
    destruct (ls_scaling_iff "ls") as (_ & _ & _ & _ & _ & Hrun & _).
    apply (Hrun ls_assets "NDVI" "nir08" "red" "NDVI | scene" aoi "/p"
             (ls_ndvi_world [20000]%Z [10000]%Z) "/p/ls_0f_NDVI.tif"
             [S754_finite false 10855847 (-24)] (snd out)).
    vm_compute. reflexivity.
  - split; [vm_compute; reflexivity|]. split; [|vm_compute; reflexivity].
    destruct (ls_scaling_iff "s2") as (_ & _ & _ & _ & _ & Hrun & _).
    apply (Hrun s2_assets "NDVI" "nir" "red" "NDVI | scene" aoi "/p"
             (ndvi_world [20000]%Z [10000]%Z) "/p/s2_0f_NDVI.tif"
             [S754_finite false 11184811 (-25)] (snd out_s2)).
    vm_compute. reflexivity.
Defined.

(* ===================================================================== *)
(** * The pipeline on sample inputs *)
(* ===================================================================== *)

(** Outside the range of the sensors' digital numbers the widening can be
    absorbed: on a band whose only valid sample is [2^60], [mn + 1.0] rounds
    back to [mn] in binary64 and [_band_percentiles] returns
    [(2^60, 2^60)]. *)
Remark band_percentiles_degenerate_at_2_60 :
  let w := quiet_world (fun _ => Some huge_raster) in
  let big := F64.of_Z (2 ^ 60) in
  fst (PercentileStretchTask._band_percentiles stretch_task 1 w) = Val (big, big) /\
  fgt big big = false /\
  F64.add big (F64.of_Z 1) = big /\
  fst (PercentileStretchTask.run stretch_task w)
    = Val (true, PercentileStretchTask.set_result stretch_task
                   ((big, big), (big, big), (big, big))).
Proof. vm_compute. repeat split. Qed.


(** The estimate on small samples where it behaves: no valid sample gives
    [(0, 1)], a constant band [7] gives [(7, 8)], nodata and non-finite
    samples are dropped first. *)
Example stretch_range_small_samples :
  let w := quiet_world (fun _ => None) in
  fst (PercentileStretchTask.stretch_range stretch_task None [] w)
    = Val (F64.of_Z 0, F64.of_Z 1) /\
  fst (PercentileStretchTask.stretch_range stretch_task (Some (F64.of_Z 0))
         [F32.of_Z 0; F32.of_Z 7; S754_nan; F32.of_Z 7; S754_infinity false] w)
    = Val (F64.of_Z 7, F64.of_Z 8) /\
  fst (PercentileStretchTask.stretch_range stretch_task None
         [F32.of_Z 5; F32.of_Z (-3); F32.of_Z 9] w)
    = Val (F64.of_Z (-3), F64.of_Z 9).
Proof. vm_compute. repeat split. Qed.

(** C3, as stated, fails: in the direct mode a flag that goes up after the
    third per-band poll (here while the VRT is built, before the export
    starts) is never looked at and the PNG is written; in the index mode a
    flag that is up from the start is never looked at either. *)
Lemma success_with_flag_set :
  let w := world_with (fun _ => Some rgb_raster) 5 in
  let out := ThumbnailTask.run rgb_task w in
  let w0 := world_with (open_pair "/c/thumb_0f_nir.tif" [3000]%Z [1000]%Z) 0 in
  let out0 := ThumbnailTask.run s2_nbr_task w0 in
  (w_cancel w 5 = true /\ w_clock (snd out) = 7%nat /\
   fst out = Val (true, ThumbnailTask.set_png_path rgb_task "/c/thumb_0f.png") /\
   List.filter is_poll (w_trace (snd out)) = [EvPoll false; EvPoll false; EvPoll false] /\
   map is_output (skipn 7 (w_trace (snd out))) = [true; false; true]) /\
  (w_cancel w0 0 = true /\
   fst out0 = Val (true, ThumbnailTask.set_png_path s2_nbr_task "/c/thumb_0f.png") /\
   List.filter is_poll (w_trace (snd out0)) = []).
Proof. vm_compute. repeat split. Qed.

Lemma cancellation_checkpoints_witness :
  let w := world_with (fun _ => Some rgb_raster) 0 in
  let out := ThumbnailTask.run rgb_task w in
  fst out = Val (false, rgb_task) /\
  Forall (fun ev => is_output ev = false) (w_trace (snd out)) /\
  last (w_trace (snd out)) = Some (EvPoll true).
Proof.
  intros w out.
  refine (proj2 (proj1 cancellation_checkpoints rgb_task w (fst out) (snd out)
                   (w_trace (snd out)) _ _) _).
  - apply surjective_pairing.
  - reflexivity.
  - vm_compute. right. right. left. reflexivity.
Defined.

(** C4, as stated, fails on a Landsat scene: the thumbnail writes the
    quotient of the raw values, [1/3] for [(20000, 10000)], where the index
    math with the Landsat reflectance scaling gives [0.647]. *)
Lemma thumbnail_skips_landsat_scaling :
  let w := quiet_world (open_pair "/c/thumb_0f_nir08.tif" [20000]%Z [10000]%Z) in
  let out := ThumbnailTask.run ls_ndvi_task w in
  fst out = Val (true, ThumbnailTask.set_png_path ls_ndvi_task "/c/thumb_0f.png") /\
  List.filter is_write (w_trace (snd out))
    = [EvWriteArray "/c/thumb_0f_NDVI.tif" [S754_finite false 11184811 (-25)]] /\
  scaled_index_unclipped "ls" [F32.of_Z 20000] [F32.of_Z 10000]
    = Some [S754_finite false 10855847 (-24)] /\
  feq (S754_finite false 11184811 (-25)) (S754_finite false 10855847 (-24)) = false.
Proof. vm_compute. repeat split. Qed.

Lemma index_thumbnail_run_witness :
  let w := quiet_world (open_pair "/c/thumb_0f_nir.tif" [3000]%Z [1000]%Z) in
  exists w',
    ThumbnailTask.run s2_nbr_task w
      = (Val (true, ThumbnailTask.set_png_path s2_nbr_task "/c/thumb_0f.png"), w') /\
    nth_error (w_trace w') 7
      = Some (EvWriteArray "/c/thumb_0f_NBR.tif" [S754_finite false 8388608 (-24)]).
Proof.
  intros w.
  destruct (index_thumbnail_run s2_nbr_task w "__NBR__" "nir" "swir22" []
              (asset_at "https://e84.example/B08.tif") (asset_at "s3://e84-bucket/B12.tif")
              "https://e84.example/B08.tif" "s3://e84-bucket/B12.tif"
              (raster_of [band_of [3000]%Z 0 1]) (raster_of [band_of [1000]%Z 0 1])
              (band_of [3000]%Z 0 1) (band_of [1000]%Z 0 1) [] []
              [F64.of_Z 3000] [F64.of_Z 1000] [S754_finite false 8388608 (-24)])
    as (w' & Hrun & Hev & _); try reflexivity.
  exists w'. split; [exact Hrun|]. unfold new_events in Hev. rewrite Hev. reflexivity.
Defined.

Lemma run_catches_exceptions_witness :
  (exists self' w',
     ThumbnailTask.run no_assets_task (quiet_world (fun _ => None))
       = (Val (false, self'), w') /\
     ThumbnailTask.error self' = Some "'red'" /\
     w_log w' = ["Thumbnail error: 'red'"]) /\
  (exists self' w',
     ThumbnailTask.run (index_task ∅ ["it's"]) (quiet_world (fun _ => None))
       = (Val (false, self'), w') /\
     ThumbnailTask.error self'
       = Some (String double_quote ("it's" +:+ String double_quote EmptyString))) /\
  (exists self' w',
     PercentileStretchTask.run stretch_task (quiet_world (fun _ => None))
       = (Val (false, self'), w') /\
     PercentileStretchTask.error self' = Some "No se pudo abrir raster: /c/s2_0f.vrt" /\
     w_log w' = ["No se pudo abrir raster: /c/s2_0f.vrt"]).
Proof.
  destruct run_catches_exceptions as (_ & _ & _ & _ & _ & _ & Hkey & Hopen & _).
  split; [|split].
  - destruct (Hkey no_assets_task (quiet_world (fun _ => None)) "red" ["green"; "blue"])
      as (self' & w' & Hrun & Herr & Hlog); try reflexivity.
    exists self', w'. split; [exact Hrun|]. split; [exact Herr | exact Hlog].
  - destruct (Hkey (index_task ∅ ["it's"]) (quiet_world (fun _ => None)) "it's" [])
      as (self' & w' & Hrun & Herr & _); try reflexivity.
    exists self', w'. split; [exact Hrun | exact Herr].
  - destruct (Hopen stretch_task (quiet_world (fun _ => None)))
      as (self' & w' & Hrun & Herr & Hlog); try reflexivity.
    exists self', w'. split; [exact Hrun|]. split; [exact Herr | exact Hlog].
Defined.

Lemma swir2_fallback_witness :
  let w := quiet_world (open_pair "/c/thumb_0f_nir.tif" [3000]%Z [1000]%Z) in
  let wi := quiet_world (open_pair "/p/s2_0f_nir.tif" [3000]%Z [1000]%Z) in
  nbr_fallback (upper "nbr") "swir22" s2_assets = "swir2" /\
  (exists tail,
     w_trace (snd (ThumbnailTask.run s2_nbr_task w))
     = EvMakedirs "/c"
       :: EvTranslateTif "/c/thumb_0f_nir.tif" "/vsicurl/https://e84.example/B08.tif"
            (ThumbnailTask.projWin s2_nbr_task) (Some 512%Z)
       :: EvTranslateTif "/c/thumb_0f_swir2.tif" "/vsis3/e84-bucket/B12.tif"
            (ThumbnailTask.projWin s2_nbr_task) (Some 512%Z)
       :: tail) /\
  (exists tail,
     w_trace (snd (SceneBrowserDock._crop_assets_to_index_tif s2_assets "nbr" "nir" "swir22"
                     "s2" "NBR | scene" aoi "/p" wi))
     = EvTranslateTif "/p/s2_0f_nir.tif" "/vsicurl/https://e84.example/B08.tif"
         (SceneBrowserDock.projWin aoi) None
       :: EvTranslateTif "/p/s2_0f_swir2.tif" "/vsis3/e84-bucket/B12.tif"
            (SceneBrowserDock.projWin aoi) None
       :: tail).
Proof.
  intros w wi.
  destruct (swir2_fallback "nbr" "swir22" s2_assets) as (Hfire & _ & _ & Hthumb & Hidx).
  split; [|split].
  - apply Hfire.
    + reflexivity.
    + reflexivity.
    + eexists. reflexivity.
  - destruct (Hthumb s2_nbr_task "__NBR__" "nir" []
                (asset_at "https://e84.example/B08.tif") (asset_at "s3://e84-bucket/B12.tif")
                "https://e84.example/B08.tif" "s3://e84-bucket/B12.tif"
                w (fst (ThumbnailTask.run s2_nbr_task w))
                (snd (ThumbnailTask.run s2_nbr_task w))) as (tail & Hev).
    + reflexivity.
    + reflexivity.
    + reflexivity.
    + reflexivity.
    + reflexivity.
    + vm_compute. reflexivity.
    + reflexivity.
    + intros n. reflexivity.
    + apply surjective_pairing.
    + exists tail. exact Hev.
  - destruct (Hidx "nir" "s2" "NBR | scene" aoi "/p"
                (asset_at "https://e84.example/B08.tif") (asset_at "s3://e84-bucket/B12.tif")
                "https://e84.example/B08.tif" "s3://e84-bucket/B12.tif"
                wi
                (fst (SceneBrowserDock._crop_assets_to_index_tif s2_assets "nbr" "nir"
                        "swir22" "s2" "NBR | scene" aoi "/p" wi))
                (snd (SceneBrowserDock._crop_assets_to_index_tif s2_assets "nbr" "nir"
                        "swir22" "s2" "NBR | scene" aoi "/p" wi))) as (tail & Hev).
    + reflexivity.
    + reflexivity.
    + vm_compute. reflexivity.
    + reflexivity.
    + intros n. reflexivity.
    + apply surjective_pairing.
    + exists tail. exact Hev.
Defined.

(* ===================================================================== *)
(** * Theorems: the range estimate on sensor data *)
(* ===================================================================== *)

(** ** The order of floats *)






(** ** Minimum and maximum *)





(** ** Sixteen-bit samples *)








(* ===================================================================== *)
(** * Further properties: the thumbnail renderer *)
(* ===================================================================== *)

Lemma usable_range_ne r mn mx : usable_range r = Some (mn, mx) -> fne mn mx = true.
Proof.
  unfold usable_range. destruct r as [[a b]|]; [|discriminate].
  destruct (fne a b) eqn:E; [|discriminate]. now intros [= <- <-].
Qed.

Lemma band_minmax_ne ds i :
  fne (fst (_band_minmax ds i)) (snd (_band_minmax ds i)) = true.
Proof.
  unfold _band_minmax.
  set (s := match GetRasterBand ds i with Some b' => band_stats b' | None => None end).
  set (m := match GetRasterBand ds i with Some b' => band_minmax b' | None => None end).
  destruct (usable_range s) as [[mn mx]|] eqn:E1; [exact (usable_range_ne _ _ _ E1)|].
  destruct (usable_range m) as [[mn mx]|] eqn:E2; [exact (usable_range_ne _ _ _ E2)|].
  reflexivity.
Qed.

Lemma fix_band_minmax ds i : _fix (_band_minmax ds i) = _band_minmax ds i.
Proof.
  pose proof (band_minmax_ne ds i) as H. destruct (_band_minmax ds i) as [mn mx].
  cbn [fst snd] in H. unfold _fix, feq. unfold fne in H.
  now destruct (SFeqb mn mx).
Qed.

(** X1: [_band_minmax] never hands back a range with equal ends, whatever
    the statistics of the band (equal, missing, failing, band absent): the
    widening [_fix] that [run] applies to its result never changes it. *)
Theorem band_minmax_never_degenerate (ds : dataset) (band_index : nat) :
  let r := _band_minmax ds band_index in
  fne (fst r) (snd r) = true /\ _fix r = r.
Proof. cbv zeta. split; [apply band_minmax_ne | apply fix_band_minmax]. Qed.

(** ** The direct branch, forward *)

Lemma listed_inv assets a :
  listed assets a = true ->
  exists A, assets !! a = Some A /\ A !! "href" = Some (href_of assets a).
Proof.
  unfold listed, href_of, py_in. destruct (assets !! a) as [A|]; [|discriminate].
  destruct (A !! "href") as [h|] eqn:E; [|discriminate]. intros _. eauto.
Qed.

Lemma bind_poll_false {B} (k : bool -> M B) w :
  w_cancel w (w_clock w) = false ->
  bind isCanceled k w = k false (record (EvPoll false) w).
Proof. intros H. unfold bind, isCanceled. now rewrite H. Qed.

Lemma same_env_refl w : same_env w w.
Proof. now repeat split. Qed.

Lemma thumb_crop_event_eq self uid a :
  thumb_crop_event self uid a
  = EvTranslateTif (ThumbnailTask.tif_path self uid a)
      (src_path (href_of (ThumbnailTask.assets_dict self) a))
      (ThumbnailTask.projWin self) None.
Proof.
  unfold thumb_crop_event, ThumbnailTask.tif_path, ThumbnailTask.projWin.
  now destruct (ThumbnailTask.bbox self) as [[[xmin ymin] xmax] ymax].
Qed.

(** The crop loop over listed roles, nothing failing and nobody
    cancelling: one crop and one poll per role. *)
Lemma crop_loop_prefix self uid pre : forall rest tifs w,
  (forall n, w_fault w n = None) -> (forall n, w_cancel w n = false) ->
  Forall (fun a => listed (ThumbnailTask.assets_dict self) a = true) pre ->
  exists w1,
    ThumbnailTask.crop_loop self uid (pre ++ rest) tifs w
    = ThumbnailTask.crop_loop self uid rest
        (tifs ++ map (ThumbnailTask.tif_path self uid) pre) w1 /\
    w_trace w1 = w_trace w ++ direct_crops self uid pre /\ same_env w w1.
Proof.
  induction pre as [|a pre IH]; intros rest tifs w Hf Hc Hl.
  - exists w. cbn. rewrite !app_nil_r. split; [reflexivity|]. split; [reflexivity|].
    apply same_env_refl.
  - inversion Hl as [|? ? Ha Hl']; subst.
    apply listed_inv in Ha as (A & HA & Hh).
    cbn [app ThumbnailTask.crop_loop].
    rewrite (bind_crop_ok _ _ _ _ _ _ _ _ HA Hh) by apply Hf.
    rewrite bind_poll_false by apply Hc.
    match goal with
    | |- context [ThumbnailTask.crop_loop self uid (pre ++ rest) ?t ?w2] =>
        destruct (IH rest t w2) as (w1 & Heq & Htr & Henv)
    end; [exact Hf | exact Hc | exact Hl' |].
    exists w1. split; [|split].
    + rewrite Heq. cbn [map]. now rewrite <- app_assoc.
    + rewrite Htr. cbn [w_trace record set_trace set_clock set_config direct_crops flat_map app].
      rewrite thumb_crop_event_eq. now rewrite <- !app_assoc.
    + destruct Henv as (H1 & H2 & H3 & H4 & H5 & H6). now repeat split.
Qed.

Lemma crop_missing self uid a sz w :
  listed (ThumbnailTask.assets_dict self) a = false ->
  ThumbnailTask.crop self uid a sz w
  = (Raise (KeyError (missing_key (ThumbnailTask.assets_dict self) a)), w).
Proof.
  unfold listed, missing_key, py_in, ThumbnailTask.crop, bind, py_getitem. intros H.
  destruct (ThumbnailTask.assets_dict self !! a) as [A|]; [|reflexivity].
  cbn. now destruct (A !! "href").
Qed.

(** X2: a direct (three-band) thumbnail over roles that are all listed, in
    a world where no call fails, nobody cancels and the stacked VRT opens:
    [run] crops the roles in order with a poll after each, stacks the crops
    in that order, opens the VRT and exports the PNG at [size_px] with one
    scale entry per band, from [_band_minmax] of bands 1 to 3 onto
    [0, 255]; it returns [True], [png_path] is the exported file, [error]
    and the other fields are as they were, and the path is logged. *)
Theorem direct_thumbnail_run (self : ThumbnailTask.t) (w : world) (d : dataset) :
  let uid := w_uid w in
  let vrt := thumb_vrt self uid in
  let png := thumb_png self uid in
  ThumbnailTask.is_index_mode (ThumbnailTask.rgb_assets self) = false ->
  (forall n, w_fault w n = None) -> (forall n, w_cancel w n = false) ->
  Forall (fun a => listed (ThumbnailTask.assets_dict self) a = true)
    (ThumbnailTask.rgb_assets self) ->
  w_open w vrt = Some d ->
  exists self' w',
    ThumbnailTask.run self w = (Val (true, self'), w') /\
    ThumbnailTask.png_path self' = Some png /\
    ThumbnailTask.error self' = ThumbnailTask.error self /\
    (ThumbnailTask.cache_dir self', ThumbnailTask.assets_dict self',
     ThumbnailTask.rgb_assets self', ThumbnailTask.bbox self', ThumbnailTask.size_px self')
    = (ThumbnailTask.cache_dir self, ThumbnailTask.assets_dict self,
       ThumbnailTask.rgb_assets self, ThumbnailTask.bbox self, ThumbnailTask.size_px self) /\
    new_events w w'
      (EvMakedirs (ThumbnailTask.cache_dir self)
       :: direct_crops self uid (ThumbnailTask.rgb_assets self)
       ++ [EvBuildVRT vrt (map (thumb_tif self uid) (ThumbnailTask.rgb_assets self));
           EvOpen vrt;
           EvTranslatePng png vrt (Some (ThumbnailTask.size_px self))
             [(fst (_band_minmax d 1), snd (_band_minmax d 1), F64.of_Z 0, F64.of_Z 255);
              (fst (_band_minmax d 2), snd (_band_minmax d 2), F64.of_Z 0, F64.of_Z 255);
              (fst (_band_minmax d 3), snd (_band_minmax d 3), F64.of_Z 0, F64.of_Z 255)]
             None]) /\
    w_log w' = w_log w ++ ["Thumbnail listo: " +:+ png].
Proof.
  intros uid vrt png Hmode Hf Hc Hl Hopen. subst vrt png. unfold thumb_vrt, thumb_png in *.
  unfold ThumbnailTask.run, try_except, ThumbnailTask.run_body.
  rewrite bind_ext_ok by apply Hf.
  unfold uuid4_hex at 1. unfold bind at 1. tidy. fold uid.
  rewrite Hmode. unfold ThumbnailTask.run_direct.
  match goal with
  | |- context [bind (ThumbnailTask.crop_loop self uid ?ns ?t) ?k ?w2] =>
      destruct (crop_loop_prefix self uid ns [] t w2) as (w1 & Heq & Htr & Henv);
        [exact Hf | exact Hc | exact Hl |];
      unfold bind at 1
  end.
  rewrite app_nil_r in Heq. rewrite Heq. cbn [ThumbnailTask.crop_loop ret app].
  destruct Henv as (Hf1 & Hc1 & Ho1 & _ & _ & Hlog1).
  cbn [w_fault w_cancel w_open w_log record set_trace set_clock] in Hf1, Hc1, Ho1, Hlog1.
  rewrite bind_ext_ok by (rewrite Hf1; apply Hf).
  rewrite bind_open_ok by (tidy; rewrite Hf1; apply Hf).
  tidy. rewrite Ho1, Hopen.
  rewrite !fix_band_minmax.
  rewrite bind_ext_ok by (tidy; rewrite Hf1; apply Hf).
  unfold bind, logMessage, ret.
  do 2 eexists. split; [reflexivity|].
  split; [reflexivity|]. split; [reflexivity|]. split; [reflexivity|]. split.
  - unfold new_events. cbn [w_trace record set_trace set_clock set_log].
    rewrite Htr. cbn [w_trace record set_trace set_clock set_log].
    rewrite <- !app_assoc. reflexivity.
  - cbn [w_log record set_trace set_clock set_log]. now rewrite Hlog1.
Qed.

(** X3: a direct thumbnail whose role at position [k] is not listed (no
    such asset, or an asset without "href"), all earlier roles being listed,
    no call failing and nobody cancelling: [run] performs exactly the [k]
    crops (and polls) before it, raises the [KeyError] inside, builds no
    VRT and no PNG, and returns [False]; [error] is [repr] of the missing
    key, which is also logged, and [png_path] is as it was. *)
Theorem direct_thumbnail_missing_asset (self : ThumbnailTask.t) (w : world)
    (pre : list string) (a : string) (post : list string) :
  let msg := py_repr (missing_key (ThumbnailTask.assets_dict self) a) in
  ThumbnailTask.is_index_mode (ThumbnailTask.rgb_assets self) = false ->
  (forall n, w_fault w n = None) -> (forall n, w_cancel w n = false) ->
  ThumbnailTask.rgb_assets self = pre ++ a :: post ->
  Forall (fun a => listed (ThumbnailTask.assets_dict self) a = true) pre ->
  listed (ThumbnailTask.assets_dict self) a = false ->
  exists self' w',
    ThumbnailTask.run self w = (Val (false, self'), w') /\
    ThumbnailTask.error self' = Some msg /\
    ThumbnailTask.png_path self' = ThumbnailTask.png_path self /\
    new_events w w'
      (EvMakedirs (ThumbnailTask.cache_dir self) :: direct_crops self (w_uid w) pre) /\
    w_log w' = w_log w ++ ["Thumbnail error: " +:+ msg].
Proof.
  intros msg Hmode Hf Hc Hrgb Hl Hmiss.
  unfold ThumbnailTask.run, try_except, ThumbnailTask.run_body.
  rewrite bind_ext_ok by apply Hf.
  unfold uuid4_hex at 1. unfold bind at 1. tidy.
  rewrite Hmode. unfold ThumbnailTask.run_direct. rewrite Hrgb.
  match goal with
  | |- context [bind (ThumbnailTask.crop_loop self ?uid _ ?t) ?k ?w2] =>
      destruct (crop_loop_prefix self uid pre (a :: post) t w2) as (w1 & Heq & Htr & Henv);
        [exact Hf | exact Hc | exact Hl |];
      unfold bind at 1
  end.
  rewrite Heq. cbn [ThumbnailTask.crop_loop].
  unfold bind at 1. rewrite (crop_missing _ _ _ _ _ Hmiss).
  unfold ThumbnailTask.on_error, bind, logMessage, ret. cbn [py_str]. fold msg.
  destruct Henv as (_ & _ & _ & _ & _ & Hlog1).
  do 2 eexists. split; [reflexivity|]. split; [reflexivity|]. split; [reflexivity|]. split.
  - unfold new_events. cbn [w_trace set_log]. rewrite Htr.
    cbn [w_trace record set_trace set_clock]. now rewrite <- app_assoc.
  - cbn [w_log set_log]. now rewrite Hlog1.
Qed.

Lemma direct_thumbnail_run_witness :
  exists self' w',
    ThumbnailTask.run rgb_task (still_world (fun _ => Some rgb_raster))
      = (Val (true, self'), w') /\
    ThumbnailTask.png_path self' = Some "/c/thumb_0f.png" /\
    ThumbnailTask.error self' = None /\
    w_trace w'
    = [EvMakedirs "/c";
       EvTranslateTif "/c/thumb_0f_red.tif" "/vsicurl/https://e84.example/B04.tif"
         (ThumbnailTask.projWin rgb_task) None; EvPoll false;
       EvTranslateTif "/c/thumb_0f_green.tif" "/vsicurl/https://e84.example/B03.tif"
         (ThumbnailTask.projWin rgb_task) None; EvPoll false;
       EvTranslateTif "/c/thumb_0f_blue.tif" "/vsicurl/https://e84.example/B02.tif"
         (ThumbnailTask.projWin rgb_task) None; EvPoll false;
       EvBuildVRT "/c/thumb_0f.vrt"
         ["/c/thumb_0f_red.tif"; "/c/thumb_0f_green.tif"; "/c/thumb_0f_blue.tif"];
       EvOpen "/c/thumb_0f.vrt";
       EvTranslatePng "/c/thumb_0f.png" "/c/thumb_0f.vrt" (Some 512%Z)
         [(F64.of_Z 900, F64.of_Z 1200, F64.of_Z 0, F64.of_Z 255);
          (F64.of_Z 0, F64.of_Z 1, F64.of_Z 0, F64.of_Z 255);
          (F64.of_Z 300, F64.of_Z 500, F64.of_Z 0, F64.of_Z 255)] None] /\
    w_log w' = ["Thumbnail listo: /c/thumb_0f.png"].
Proof.
  destruct (direct_thumbnail_run rgb_task (still_world (fun _ => Some rgb_raster)) rgb_raster)
    as (self' & w' & Hrun & Hpng & Herr & _ & Hev & Hlog).
  - reflexivity.
  - reflexivity.
  - reflexivity.
  - repeat constructor.
  - reflexivity.
  - exists self', w'. split; [exact Hrun|]. split; [exact Hpng|]. split; [exact Herr|].
    split; [|exact Hlog]. unfold new_events in Hev. rewrite Hev. vm_compute. reflexivity.
Defined.

Lemma direct_thumbnail_missing_asset_witness :
  exists self' w',
    ThumbnailTask.run swir_rgb_task (still_world (fun _ => None))
      = (Val (false, self'), w') /\
    ThumbnailTask.error self' = Some "'swir16'" /\
    ThumbnailTask.png_path self' = None /\
    length (w_trace w') = 5%nat /\ w_log w' = ["Thumbnail error: 'swir16'"].
Proof.
  destruct (direct_thumbnail_missing_asset swir_rgb_task (still_world (fun _ => None))
              ["red"; "nir"] "swir16" ["blue"])
    as (self' & w' & Hrun & Herr & Hpng & Hev & Hlog).
  - reflexivity.
  - reflexivity.
  - reflexivity.
  - reflexivity.
  - repeat constructor.
  - reflexivity.
  - exists self', w'. split; [exact Hrun|]. split; [exact Herr|]. split; [exact Hpng|].
    split; [|exact Hlog]. unfold new_events in Hev. rewrite Hev. reflexivity.
Defined.

(** ** What the return value of [run] says *)

Lemma exports_last_bind {A} self png (m : M A) (k : A -> M (bool * ThumbnailTask.t)) :
  emits (fun ev => is_png_export ev = false) m ->
  (forall a, exports_last self png (k a)) ->
  exports_last self png (bind m k).
Proof.
  intros Hm Hk w r w' H.
  apply bind_inv in H as [(e & H & ->)|(a & w1 & H1 & H)].
  - apply Hm in H as (evs & He & HF). exists evs. now split.
  - apply Hm in H1 as (evs1 & He1 & HF1). apply Hk in H as (evs2 & He2 & Hr).
    exists (evs1 ++ evs2). split; [eapply new_events_trans; eauto|].
    destruct r as [[[|] s]|e].
    + destruct Hr as (Hs & evs0 & vrt & sz & sc & nd & -> & HF0).
      split; [exact Hs|]. exists (evs1 ++ evs0), vrt, sz, sc, nd.
      split; [now rewrite app_assoc|]. apply Forall_app. now split.
    + destruct Hr as (Hs & HF2 & Hlast). split; [exact Hs|]. split.
      * apply Forall_app. now split.
      * rewrite last_app, Hlast. reflexivity.
    + apply Forall_app. now split.
Qed.

Lemma exports_last_raise self png e : exports_last self png (raise e).
Proof. intros w r w' [= <- <-]. exists []. split; [apply new_events_refl | constructor]. Qed.

Lemma exports_last_export self png vrt sz sc nd (m : M unit) :
  silent m ->
  (forall w w' r, m w = (r, w') -> exists u, r = Val u) ->
  exports_last self png
    (exec ext (EvTranslatePng png vrt sz sc nd); exec m;
     ret (true, ThumbnailTask.set_png_path self png)).
Proof.
  intros Hs Hv w r w' H.
  apply bind_inv in H as [(e & H & ->)|([] & w1 & H1 & H)].
  - apply ext_inv in H as [(Hr & _)|(e' & _ & _ & He)]; [discriminate Hr|].
    exists []. split; [exact He | constructor].
  - apply ext_val in H1.
    apply bind_inv in H as [(e & H & ->)|(u & w2 & H2 & H)].
    + apply Hv in H as (u & Hu). discriminate Hu.
    + apply Hs in H2. injection H as <- <-.
      exists [EvTranslatePng png vrt sz sc nd]. split.
      * unfold new_events. now rewrite H2, H1.
      * split; [reflexivity|]. exists [], vrt, sz, sc, nd. split; [reflexivity | constructor].
Qed.

Lemma loop_shape_nonpng r evs :
  loop_shape r evs -> Forall (fun ev => is_png_export ev = false) evs.
Proof. induction 1; repeat constructor; assumption. Qed.

Lemma loop_shape_cancelled evs :
  loop_shape (Val None) evs -> last evs = Some (EvPoll true).
Proof.
  intros H. remember (Val None) as r eqn:Hr. induction H; try discriminate Hr.
  - reflexivity.
  - specialize (IHloop_shape Hr).
    now apply last_cons_nonempty, last_cons_nonempty.
Qed.

Lemma run_index_exports_last self uid :
  exports_last self (thumb_png self uid) (ThumbnailTask.run_index self uid).
Proof.
  unfold ThumbnailTask.run_index, thumb_png. cbv zeta.
  repeat (apply exports_last_bind; [solve [emits_steps] | intros ?]).
  change (ret (true, ThumbnailTask.set_png_path self ?p))
    with (exec ret tt; ret (true, ThumbnailTask.set_png_path self p)).
  apply exports_last_export; [apply silent_ret|].
  intros w w' r [= <- _]. eauto.
Qed.

Lemma run_direct_exports_last self uid :
  exports_last self (thumb_png self uid) (ThumbnailTask.run_direct self uid).
Proof.
  unfold ThumbnailTask.run_direct, thumb_png. cbv zeta. intros w r w' H.
  apply bind_inv in H as [(e & H & ->)|(cropped & w1 & H1 & H)].
  - apply crop_loop_shape in H as (evs & He & Hs). exists evs.
    split; [exact He | exact (loop_shape_nonpng _ _ Hs)].
  - apply crop_loop_shape in H1 as (evs1 & He1 & Hs1). destruct cropped as [tifs|].
    + revert w1 r w' H He1.
      match goal with
      | |- forall w1 r w', ?prog w1 = _ -> _ =>
          assert (Hp : exports_last self
                         (path_join (ThumbnailTask.cache_dir self) ("thumb_" +:+ uid +:+ ".png"))
                         prog)
      end.
      { apply exports_last_bind; [solve [emits_steps] | intros ?].
        apply exports_last_bind; [solve [emits_steps] | intros [d|]].
        - apply exports_last_export; [apply silent_logMessage|].
          intros w0 w0' r0 [= <- _]. eauto.
        - apply exports_last_raise. }
      intros w1 r w' H He1. apply Hp in H as (evs2 & He2 & Hr).
      exists (evs1 ++ evs2). split; [eapply new_events_trans; eauto|].
      pose proof (loop_shape_nonpng _ _ Hs1) as HF1.
      destruct r as [[[|] s]|e].
      * destruct Hr as (Hs & evs0 & vrt & sz & sc & nd & -> & HF0).
        split; [exact Hs|]. exists (evs1 ++ evs0), vrt, sz, sc, nd.
        split; [now rewrite app_assoc|]. apply Forall_app. now split.
      * destruct Hr as (Hs & HF2 & Hlast). split; [exact Hs|]. split.
        -- apply Forall_app. now split.
        -- rewrite last_app, Hlast. reflexivity.
      * apply Forall_app. now split.
    + injection H as <- <-. exists evs1. split; [exact He1|]. split; [reflexivity|].
      split; [exact (loop_shape_nonpng _ _ Hs1) | exact (loop_shape_cancelled _ Hs1)].
Qed.

(** X4: what the return value of [ThumbnailTask.run] says.  [True]: the
    PNG export completed, it is the last external call of the run and the
    only export, [png_path] is the exported file and [error] is as it was.
    [False]: no PNG was exported and [png_path] is as it was; either the
    whole task object is untouched and the run ended on a poll that found
    the cancel flag set, or [error] holds the message of the exception,
    which is also the last line of the log. *)
Theorem thumbnail_run_outcome (self : ThumbnailTask.t) (w : world)
    (b : bool) (self' : ThumbnailTask.t) (w' : world) :
  ThumbnailTask.run self w = (Val (b, self'), w') ->
  exists evs, new_events w w' evs /\
    if b then
      ThumbnailTask.png_path self' = Some (thumb_png self (w_uid w)) /\
      ThumbnailTask.error self' = ThumbnailTask.error self /\
      exists evs0 vrt sz sc nd,
        evs = evs0 ++ [EvTranslatePng (thumb_png self (w_uid w)) vrt sz sc nd] /\
        Forall (fun ev => is_png_export ev = false) evs0
    else
      Forall (fun ev => is_png_export ev = false) evs /\
      ThumbnailTask.png_path self' = ThumbnailTask.png_path self /\
      ((self' = self /\ last evs = Some (EvPoll true)) \/
       (exists e, ThumbnailTask.error self' = Some (py_str e) /\
                  last (w_log w') = Some ("Thumbnail error: " +:+ py_str e))).
Proof.
  intros H. unfold ThumbnailTask.run, try_except in H.
  destruct (ThumbnailTask.run_body self w) as [rb wb] eqn:Hb.
  assert (Hbody : exists evs, new_events w wb evs /\
            match rb with
            | Val (true, s) =>
                s = ThumbnailTask.set_png_path self (thumb_png self (w_uid w)) /\
                exists evs0 vrt sz sc nd,
                  evs = evs0 ++ [EvTranslatePng (thumb_png self (w_uid w)) vrt sz sc nd] /\
                  Forall (fun ev => is_png_export ev = false) evs0
            | Val (false, s) =>
                s = self /\ Forall (fun ev => is_png_export ev = false) evs /\
                last evs = Some (EvPoll true)
            | Raise _ => Forall (fun ev => is_png_export ev = false) evs
            end).
  { unfold ThumbnailTask.run_body in Hb.
    apply bind_inv in Hb as [(e & Hb & ->)|([] & w1 & H1 & Hb)].
    { apply ext_inv in Hb as [(Hr & _)|(e' & _ & _ & He)]; [discriminate Hr|].
      exists []. split; [exact He | constructor]. }
    assert (Hu : w_uid w1 = w_uid w).
    { unfold ext in H1. destruct (w_fault w (w_clock w)); [discriminate H1|].
      now injection H1 as <-. }
    apply ext_val in H1.
    apply bind_inv in Hb as [(e & Hb & ->)|(uid & w2 & H2 & Hb)]; [discriminate Hb|].
    injection H2 as <- <-. rewrite Hu in Hb.
    assert (Hx : exports_last self (thumb_png self (w_uid w))
                   (if ThumbnailTask.is_index_mode (ThumbnailTask.rgb_assets self)
                    then ThumbnailTask.run_index self (w_uid w)
                    else ThumbnailTask.run_direct self (w_uid w))).
    { destruct (ThumbnailTask.is_index_mode _);
        [apply run_index_exports_last | apply run_direct_exports_last]. }
    apply Hx in Hb as (evs & He & Hr).
    exists (EvMakedirs (ThumbnailTask.cache_dir self) :: evs). split.
    { unfold new_events in *. rewrite He, H1. now rewrite <- app_assoc. }
    destruct rb as [[[|] s]|e].
    - destruct Hr as (Hs & evs0 & vrt & sz & sc & nd & -> & HF0).
      split; [exact Hs|].
      exists (EvMakedirs (ThumbnailTask.cache_dir self) :: evs0), vrt, sz, sc, nd.
      split; [reflexivity|]. now constructor.
    - destruct Hr as (Hs & HF & Hlast). split; [exact Hs|]. split.
      + now constructor.
      + now apply last_cons_nonempty.
    - now constructor. }
  destruct Hbody as (evs & He & Hr). destruct rb as [[b0 s]|e].
  - injection H as <- <- <-. exists evs. split; [exact He|].
    destruct b0.
    + destruct Hr as (-> & Hex). split; [reflexivity|]. split; [reflexivity | exact Hex].
    + destruct Hr as (-> & HF & Hlast). split; [exact HF|]. split; [reflexivity|].
      left. now split.
  - unfold ThumbnailTask.on_error, bind, logMessage, ret in H. injection H as <- <- <-.
    exists evs. split; [exact He|]. split; [exact Hr|]. split; [reflexivity|].
    right. exists e. split; [reflexivity|]. cbn [w_log set_log]. now rewrite last_snoc.
Qed.

Lemma thumbnail_run_outcome_witness :
  let w := world_with (fun _ => Some rgb_raster) 0 in
  let out := ThumbnailTask.run rgb_task w in
  let w1 := still_world (fun _ => Some rgb_raster) in
  let out1 := ThumbnailTask.run rgb_task w1 in
  (exists evs, new_events w (snd out) evs /\
     Forall (fun ev => is_png_export ev = false) evs /\
     last evs = Some (EvPoll true)) /\
  (exists self1, fst out1 = Val (true, self1) /\
     ThumbnailTask.png_path self1 = Some "/c/thumb_0f.png" /\
     ThumbnailTask.error self1 = None).
Proof.
  intros w out w1 out1. split.
  - destruct (thumbnail_run_outcome rgb_task w false rgb_task (snd out))
      as (evs & He & HF & _ & [[_ Hl]|(e & He' & _)]).
    + vm_compute. reflexivity.
    + exists evs. now split.
    + discriminate He'.
  - destruct (thumbnail_run_outcome rgb_task w1 true
                (ThumbnailTask.set_png_path rgb_task "/c/thumb_0f.png") (snd out1))
      as (evs & _ & Hpng & Herr & _).
    + vm_compute. reflexivity.
    + eexists. split; [vm_compute; reflexivity|]. split; [exact Hpng | exact Herr].
Defined.

(* ===================================================================== *)
(** * Further properties: presets, roles and the callers of the pipelines *)
(* ===================================================================== *)

Lemma py_in_dom (a : string) (assets : manifest) :
  a ∈ dom assets <-> py_in a assets = true.
Proof. rewrite elem_of_dom. symmetry. apply py_in_true. Qed.

Lemma nbr_fallback_present mode a2 (assets : manifest) :
  py_in a2 assets = true -> nbr_fallback mode a2 assets = a2.
Proof. intros H. unfold nbr_fallback. rewrite H. now rewrite andb_false_r. Qed.

Lemma first_present_in assets n1 n2 a :
  first_present assets n1 n2 = Some a -> py_in a assets = true.
Proof.
  unfold first_present. destruct (py_in n1 assets) eqn:E1; [now intros [= <-]|].
  destruct (py_in n2 assets) eqn:E2; [now intros [= <-] | discriminate].
Qed.

Lemma existsb_false_Forall {A} (f : A -> bool) l :
  existsb f l = false -> Forall (fun a => f a = false) l.
Proof.
  induction l as [|x l IH]; cbn; [constructor|].
  intros H. apply orb_false_iff in H as [Hx Hl]. constructor; auto.
Qed.

(** The roles that passed the guard of [_start_thumbnail]. *)
Lemma thumbnail_roles_inv kind preset assets rgb :
  thumbnail_roles kind preset assets = Some rgb ->
  rgb = (if String.eqb kind "s2" then s2_assets_for_preset preset
         else keep_names (ls_assets_for_preset preset (dom assets))) /\
  length rgb = 3%nat /\ Forall (fun a => py_in a assets = true) rgb.
Proof.
  unfold thumbnail_roles.
  set (rgb0 := if String.eqb kind "s2" then _ else _).
  destruct (_ || _ || _) eqn:G; [discriminate|]. intros [= <-].
  apply orb_false_iff in G as [G G3]. apply orb_false_iff in G as [_ G2].
  split; [reflexivity|]. split.
  - apply negb_false_iff, Nat.eqb_eq in G2. exact G2.
  - apply existsb_false_Forall in G3. eapply Forall_impl; [exact G3|].
    intros a Ha. now apply negb_false_iff in Ha.
Qed.

Ltac preset_cases preset :=
  destruct (String.eqb_spec preset "Natural");
  [|destruct (String.eqb_spec preset "Infrarrojo");
    [|destruct (String.eqb_spec preset "Agricultura");
      [|destruct (String.eqb_spec preset "NDVI");
        [|destruct (String.eqb_spec preset "NBR")]]]].

(** A marker in front of the roles is the marker of the preset. *)
Lemma s2_marker_cases preset m rest :
  s2_assets_for_preset preset = m :: rest -> startswith m "__" = true ->
  (preset = "NDVI" /\ m = "__NDVI__" /\ rest = ["nir"; "red"]) \/
  (preset = "NBR" /\ m = "__NBR__" /\ rest = ["nir"; "swir22"]).
Proof.
  unfold s2_assets_for_preset. preset_cases preset; intros [= <- <-] Hs;
    try discriminate Hs; first [left; now repeat split | right; now repeat split].
Qed.

Lemma ls_marker_cases preset avail m rest :
  keep_names (ls_assets_for_preset preset avail) = m :: rest ->
  startswith m "__" = true ->
  (preset = "NDVI" /\ m = "__NDVI__") \/ (preset = "NBR" /\ m = "__NBR__").
Proof.
  unfold ls_assets_for_preset, pick.
  preset_cases preset; repeat case_bool_decide; cbn;
    intros Heq Hs; try discriminate Heq; injection Heq as <- <-;
    try discriminate Hs; first [left; now split | right; now split].
Qed.

(** X5: the guard of [_start_thumbnail].  A thumbnail task is created
    only with exactly three roles that are all keys of the manifest.  So a
    task in index mode (first role a marker) is created only for the NDVI
    or NBR preset and only when the manifest itself has an asset named like
    the marker ("__NDVI__", "__NBR__"); for manifests without such a key
    these presets start no thumbnail task. *)
Theorem start_thumbnail_guard (kind preset : string) (assets : manifest)
    (rgb : list string) :
  thumbnail_roles kind preset assets = Some rgb ->
  length rgb = 3%nat /\
  Forall (fun a => py_in a assets = true) rgb /\
  (ThumbnailTask.is_index_mode rgb = true ->
     (preset = "NDVI" /\ py_in "__NDVI__" assets = true) \/
     (preset = "NBR" /\ py_in "__NBR__" assets = true)).
Proof.
  intros H. apply thumbnail_roles_inv in H as (Hrgb & Hlen & Hin).
  split; [exact Hlen|]. split; [exact Hin|].
  intros Hm. destruct rgb as [|m rest]; [discriminate Hm|]. cbn in Hm.
  apply Forall_cons in Hin as [Hm_in _]. symmetry in Hrgb.
  assert (Hc : (preset = "NDVI" /\ m = "__NDVI__") \/ (preset = "NBR" /\ m = "__NBR__")).
  { destruct (String.eqb kind "s2").
    - destruct (s2_marker_cases _ _ _ Hrgb Hm) as [(? & ? & _)|(? & ? & _)]; auto.
    - exact (ls_marker_cases _ _ _ _ Hrgb Hm). }
  destruct Hc as [[Hp ->]|[Hp ->]]; [left | right]; now split.
Qed.

Lemma start_thumbnail_guard_witness :
  length ["red"; "green"; "blue"] = 3%nat /\
  Forall (fun a => py_in a s2_assets = true) ["red"; "green"; "blue"].
Proof.
  destruct (start_thumbnail_guard "s2" "Natural" s2_assets ["red"; "green"; "blue"])
    as (Hlen & Hin & _).
  - reflexivity.
  - now split.
Defined.

Ltac dom_to_py_in :=
  repeat match goal with
         | H : _ ∈ dom _ |- _ => apply py_in_dom in H
         | H : _ ∉ dom _ |- _ => rewrite py_in_dom in H; apply not_true_is_false in H
         end.

Ltac use_py_in :=
  repeat match goal with
         | H : py_in ?a ?m = _ |- context [py_in ?a ?m] => rewrite H
         end.

Ltac split_py_in :=
  repeat match goal with
         | |- context [py_in ?a ?m] => destruct (py_in a m) eqn:?
         end.

Ltac finish_plan :=
  cbn; use_py_in; cbn; repeat match goal with |- _ /\ _ => split end;
  try reflexivity; try discriminate; try assumption; try congruence;
  repeat (apply Forall_cons; split; [assumption|]); try apply Forall_nil; try exact I.

(** The plans of the two preview handlers, case by case. *)
Lemma preview_plan_cases (preset : string) (assets : manifest) :
  let lacking := fun roles : list string =>
    List.filter (fun a => negb (py_in a assets))
      (List.filter (fun a => negb (String.prefix "__" a)) roles) in
  match preview_s2_plan preset assets with
  | MissingAssets missing =>
      missing = lacking (s2_assets_for_preset preset) /\ missing <> []
  | IndexRaster mode a1 a2 prefix =>
      lacking (s2_assets_for_preset preset) = [] /\
      mode = preset /\ prefix = "s2" /\ a1 = "nir" /\
      s2_assets_for_preset preset = ["__" +:+ preset +:+ "__"; a1; a2] /\
      py_in a1 assets = true /\ py_in a2 assets = true
  | BandStack names prefix =>
      lacking (s2_assets_for_preset preset) = [] /\
      prefix = "s2" /\ names = s2_assets_for_preset preset /\ length names = 3%nat /\
      Forall (fun a => py_in a assets = true) names
  | NotThreeAssets | RoleIndexError => False
  end /\
  match preview_landsat_plan preset assets with
  | IndexRaster mode a1 a2 prefix =>
      mode = preset /\ prefix = "ls" /\
      landsat_preview_roles preset assets = ["__" +:+ preset +:+ "__"; a1; a2] /\
      py_in a1 assets = true /\ py_in a2 assets = true
  | BandStack names prefix =>
      prefix = "ls" /\ names = landsat_preview_roles preset assets /\
      length names = 3%nat /\ Forall (fun a => py_in a assets = true) names
  | NotThreeAssets =>
      length (landsat_preview_roles preset assets) <> 3%nat /\
      lacking (landsat_preview_roles preset assets) = []
  | MissingAssets _ | RoleIndexError => False
  end.
Proof.
  cbv zeta. split.
  - unfold preview_s2_plan, plan_from_roles, s2_assets_for_preset, missing_assets.
    preset_cases preset; subst; cbn [List.filter]; split_py_in; finish_plan.
  - unfold preview_landsat_plan, landsat_preview_roles, ls_assets_for_preset, pick.
    preset_cases preset; subst; repeat case_bool_decide; dom_to_py_in;
      cbn [keep_names py_or length Nat.eqb negb];
      unfold plan_from_roles, missing_assets; cbn [List.filter]; use_py_in; finish_plan.
Qed.

(** X6: what a preview handler passes on.  [preview_s2] raises "Faltan
    assets" with exactly the roles of the preset, markers apart, that the
    manifest lacks, in role order, and does so whenever there is one;
    otherwise it reaches [_crop_assets_to_index_tif] with the preset's own
    name as mode (between the marker's underscores), the prefix "s2" and the
    two bands after the marker, or [_crop_assets_to_vrt] with the three
    roles; all of them are keys of the manifest.  [preview_landsat] can only
    raise "No pude determinar 3 assets": every role it picked is in the
    manifest, so its "Faltan assets" error never fires.  No handler indexes
    past its roles. *)
Theorem preview_plan_roles_present (preset : string) (assets : manifest) :
  let lacking := fun roles : list string =>
    List.filter (fun a => negb (py_in a assets))
      (List.filter (fun a => negb (String.prefix "__" a)) roles) in
  match preview_s2_plan preset assets with
  | MissingAssets missing =>
      missing = lacking (s2_assets_for_preset preset) /\ missing <> []
  | IndexRaster mode a1 a2 prefix =>
      lacking (s2_assets_for_preset preset) = [] /\
      mode = preset /\ prefix = "s2" /\ a1 = "nir" /\
      s2_assets_for_preset preset = ["__" +:+ preset +:+ "__"; a1; a2] /\
      py_in a1 assets = true /\ py_in a2 assets = true
  | BandStack names prefix =>
      lacking (s2_assets_for_preset preset) = [] /\
      prefix = "s2" /\ names = s2_assets_for_preset preset /\ length names = 3%nat /\
      Forall (fun a => py_in a assets = true) names
  | NotThreeAssets | RoleIndexError => False
  end /\
  match preview_landsat_plan preset assets with
  | IndexRaster mode a1 a2 prefix =>
      mode = preset /\ prefix = "ls" /\
      landsat_preview_roles preset assets = ["__" +:+ preset +:+ "__"; a1; a2] /\
      py_in a1 assets = true /\ py_in a2 assets = true
  | BandStack names prefix =>
      prefix = "ls" /\ names = landsat_preview_roles preset assets /\
      length names = 3%nat /\ Forall (fun a => py_in a assets = true) names
  | NotThreeAssets =>
      length (landsat_preview_roles preset assets) <> 3%nat /\
      lacking (landsat_preview_roles preset assets) = []
  | MissingAssets _ | RoleIndexError => False
  end.
Proof. apply preview_plan_cases. Qed.

Lemma preview_plan_roles_present_witness :
  preview_s2_plan "Agricultura" s2_assets = MissingAssets ["swir16"] /\
  List.filter (fun a => negb (py_in a s2_assets))
    (List.filter (fun a => negb (String.prefix "__" a)) (s2_assets_for_preset "Agricultura"))
  = ["swir16"] /\
  preview_s2_plan "NBR" (<["swir22" := asset_at "s3://e84-bucket/B12.tif"]> s2_assets)
  = IndexRaster "NBR" "nir" "swir22" "s2" /\
  preview_landsat_plan "NDVI" ls_assets = IndexRaster "NDVI" "nir08" "red" "ls" /\
  preview_landsat_plan "Natural" ls_assets = NotThreeAssets.
Proof.
  pose proof (preview_plan_roles_present "Agricultura" s2_assets) as H.
  cbv zeta in H. destruct H as [H _].
  assert (E : preview_s2_plan "Agricultura" s2_assets = MissingAssets ["swir16"])
    by (vm_compute; reflexivity).
  rewrite E in H. destruct H as [Hm _].
  split; [exact E|]. split; [symmetry; exact Hm|].
  split; [vm_compute; reflexivity|]. split; vm_compute; reflexivity.
Defined.

(** X7: no caller in the plugin can trigger the SWIR2 fallback of the two
    index pipelines.  In every call an index button makes, the mode is not
    NBR (the NDVI request, which names "red" without looking it up, even
    for an empty manifest) or the second band was found in the manifest;
    both preview handlers and the thumbnail starter pass a second band that
    is a key of the manifest.  So for all their calls [nbr_fallback] hands
    the requested name back. *)
Theorem swir2_fallback_dead_for_callers :
  (forall kind mode (assets : manifest) a1 a2 prefix,
     select_index_bands kind mode assets = Val (a1, a2, prefix) ->
     ((upper mode = "NDVI" /\ a2 = "red" /\ upper (upper mode) <> "NBR") \/
      (upper mode <> "NDVI" /\ py_in a2 assets = true)) /\
     nbr_fallback (upper (upper mode)) a2 assets = a2) /\
  (forall kind, select_index_bands kind "NDVI" ∅
                = if String.eqb kind "s2" then Val ("nir", "red", "s2")
                  else Raise (RuntimeError "No se encontró banda NIR (nir08/nir).")) /\
  (forall preset (assets : manifest) mode a1 a2 prefix,
     preview_s2_plan preset assets = IndexRaster mode a1 a2 prefix ->
     py_in a2 assets = true /\ nbr_fallback (upper mode) a2 assets = a2) /\
  (forall preset (assets : manifest) mode a1 a2 prefix,
     preview_landsat_plan preset assets = IndexRaster mode a1 a2 prefix ->
     py_in a2 assets = true /\ nbr_fallback (upper mode) a2 assets = a2) /\
  (forall kind preset (assets : manifest) m a1 a2 rest,
     thumbnail_roles kind preset assets = Some (m :: a1 :: a2 :: rest) ->
     py_in a2 assets = true /\ nbr_fallback (upper (strip "_" m)) a2 assets = a2).
Proof.
  split; [|split; [|split; [|split]]].
  - intros kind mode assets a1 a2 prefix H. unfold select_index_bands in H.
    assert (Hndvi : String.eqb (upper mode) "NDVI" = true ->
              upper mode = "NDVI" /\ upper (upper mode) <> "NBR" /\
              forall a, nbr_fallback (upper (upper mode)) a assets = a).
    { intros E. apply String.eqb_eq in E. rewrite E.
      split; [reflexivity|]. split; [discriminate | reflexivity]. }
    assert (Hnbr : String.eqb (upper mode) "NDVI" = false -> upper mode <> "NDVI").
    { intros E E'. rewrite E' in E. discriminate E. }
    destruct (String.eqb kind "s2").
    + destruct (String.eqb (upper mode) "NDVI") eqn:E.
      * injection H as <- <- <-. destruct (Hndvi eq_refl) as (H1 & H2 & H3).
        split; [left; now repeat split | apply H3].
      * destruct (first_present assets "swir22" "swir2") as [s|] eqn:Es; [|discriminate H].
        injection H as <- <- <-. pose proof (first_present_in _ _ _ _ Es) as Hin.
        split; [right; split; [now apply Hnbr | exact Hin] | now apply nbr_fallback_present].
    + destruct (first_present assets "nir08" "nir") as [nir|]; [|discriminate H].
      destruct (String.eqb (upper mode) "NDVI") eqn:E.
      * injection H as <- <- <-. destruct (Hndvi eq_refl) as (H1 & H2 & H3).
        split; [left; now repeat split | apply H3].
      * destruct (first_present assets "swir22" "swir2") as [s|] eqn:Es; [|discriminate H].
        injection H as <- <- <-. pose proof (first_present_in _ _ _ _ Es) as Hin.
        split; [right; split; [now apply Hnbr | exact Hin] | now apply nbr_fallback_present].
  - intros kind. unfold select_index_bands. now destruct (String.eqb kind "s2").
  - intros preset assets mode a1 a2 prefix H.
    pose proof (proj1 (preview_plan_cases preset assets)) as Hc. cbv zeta in Hc.
    rewrite H in Hc. destruct Hc as (_ & _ & _ & _ & _ & _ & Hin).
    split; [exact Hin | now apply nbr_fallback_present].
  - intros preset assets mode a1 a2 prefix H.
    pose proof (proj2 (preview_plan_cases preset assets)) as Hc. cbv zeta in Hc.
    rewrite H in Hc. destruct Hc as (_ & _ & _ & _ & Hin).
    split; [exact Hin | now apply nbr_fallback_present].
  - intros kind preset assets m a1 a2 rest H.
    apply thumbnail_roles_inv in H as (_ & _ & Hin).
    apply Forall_cons in Hin as [_ Hin]. apply Forall_cons in Hin as [_ Hin].
    apply Forall_cons in Hin as [Hin _].
    split; [exact Hin | now apply nbr_fallback_present].
Qed.

Lemma swir2_fallback_dead_for_callers_witness :
  py_in "swir2" s2_assets = true /\
  nbr_fallback (upper (upper "nbr")) "swir2" s2_assets = "swir2" /\
  nbr_fallback (upper (upper "ndvi")) "red" ∅ = "red".
Proof.
  destruct swir2_fallback_dead_for_callers as (Hbtn & _ & _ & _ & _).
  destruct (Hbtn "s2" "nbr" s2_assets "nir" "swir2" "s2") as ([(E & _)|(_ & Hin)] & Hfb).
  - reflexivity.
  - discriminate E.
  - split; [exact Hin|]. split; [exact Hfb|].
    apply (Hbtn "s2" "ndvi" ∅ "nir" "red" "s2"). reflexivity.
Defined.

(* ===================================================================== *)
(** * Further properties: the band stack pipeline and the stretch route *)
(* ===================================================================== *)

Lemma crop_one_inv assets out_dir prefix uid box a w t w' :
  SceneBrowserDock._crop_one assets out_dir prefix uid box a w = (Val t, w') ->
  t = SceneBrowserDock.tif_path out_dir prefix uid a /\
  listed assets a = true /\
  new_events w w' [preview_crop_event assets out_dir prefix uid box a].
Proof.
  unfold SceneBrowserDock._crop_one, listed, preview_crop_event, href_of. intros H.
  bind_val H A w1 H1. unfold py_getitem in H1.
  destruct (assets !! a) as [A0|]; [|discriminate H1]. injection H1 as <- <-.
  bind_val H href w2 H2. unfold py_getitem in H2. unfold py_in.
  destruct (A0 !! "href") as [h|]; [|discriminate H2]. injection H2 as <- <-.
  bind_val H src w3 H3. rewrite src_from_href_eq in H3. injection H3 as <- <-.
  bind_val H u w4 H4. injection H as <- <-. apply ext_val in H4.
  split; [reflexivity|]. split; [reflexivity|]. exact H4.
Qed.

Lemma crop_all_inv assets out_dir prefix uid box names : forall tifs w out w',
  crop_all assets out_dir prefix uid box names tifs w = (Val out, w') ->
  out = tifs ++ map (SceneBrowserDock.tif_path out_dir prefix uid) names /\
  Forall (fun a => listed assets a = true) names /\
  new_events w w' (map (preview_crop_event assets out_dir prefix uid box) names).
Proof.
  induction names as [|a names IH]; intros tifs w out w' H; cbn [crop_all] in H.
  - injection H as <- <-. rewrite app_nil_r. split; [reflexivity|].
    split; [constructor | apply new_events_refl].
  - bind_val H t w1 H1. apply crop_one_inv in H1 as (-> & Hl & He1).
    apply IH in H as (-> & HF & He). split; [|split].
    + cbn [map]. now rewrite <- app_assoc.
    + now constructor.
    + exact (new_events_trans _ _ _ _ _ He1 He).
Qed.

(** X8: a successful [_crop_assets_to_vrt].  Every role was in the
    manifest with an "href"; the calls were one crop per role, in role
    order and each to the role's own file, then one [BuildVRT] that stacks
    exactly these files in that order, then the layer; the returned path is
    the VRT "<prefix>_<uid>.vrt" in the cache directory, and the layer was
    valid. *)
Theorem crop_assets_to_vrt_success (assets : manifest) (asset_names : list string)
    (prefix title : string) (box : BoundingBox) (out_dir : string)
    (w : world) (p : string) (w' : world) :
  _crop_assets_to_vrt assets asset_names prefix title box out_dir w = (Val p, w') ->
  p = path_join out_dir (prefix +:+ "_" +:+ w_uid w +:+ ".vrt") /\
  Forall (fun a => listed assets a = true) asset_names /\
  w_layer_valid w' p = true /\
  new_events w w'
    (map (preview_crop_event assets out_dir prefix (w_uid w) box) asset_names
     ++ [EvBuildVRT p (map (SceneBrowserDock.tif_path out_dir prefix (w_uid w)) asset_names);
         EvLayer p title]).
Proof.
  unfold _crop_assets_to_vrt. intros H.
  bind_val H uid w1 H1. injection H1 as <- <-.
  bind_val H tifs w2 H2. apply crop_all_inv in H2 as (-> & HF & He2).
  bind_val H u3 w3 H3. apply ext_val in H3.
  bind_val H u4 w4 H4. apply ext_val in H4.
  destruct (w_layer_valid w4 _) eqn:Hv; [|discriminate H]. injection H as <- <-.
  split; [reflexivity|]. split; [exact HF|]. split; [exact Hv|].
  unfold new_events in *. rewrite H4, H3, He2. cbn [app]. now rewrite <- !app_assoc.
Qed.

Lemma crop_assets_to_vrt_success_witness :
  let out := _crop_assets_to_vrt s2_assets ["red"; "green"; "blue"] "s2" "S2 Natural | x"
               aoi "/p" world0 in
  fst out = Val "/p/s2_0f.vrt" /\ length (w_trace (snd out)) = 5%nat.
Proof.
  intros out.
  destruct (crop_assets_to_vrt_success s2_assets ["red"; "green"; "blue"] "s2"
              "S2 Natural | x" aoi "/p" world0 "/p/s2_0f.vrt" (snd out))
    as (_ & _ & _ & He).
  - vm_compute. reflexivity.
  - split; [vm_compute; reflexivity|]. unfold new_events in He. rewrite He. reflexivity.
Defined.

(** ** The stretch route *)

Lemma length_app_str (a b : string) :
  String.length (a +:+ b) = (String.length a + String.length b)%nat.
Proof.
  induction a as [|c a IH]; [reflexivity|].
  change (S (String.length (a +:+ b)) = S (String.length a + String.length b)).
  now rewrite IH.
Qed.

Lemma lower_app (a b : string) : lower (a +:+ b) = lower a +:+ lower b.
Proof.
  induction a as [|c a IH]; [reflexivity|].
  change (String (ascii_lower c) (lower (a +:+ b))
          = String (ascii_lower c) (lower a +:+ lower b)).
  now rewrite IH.
Qed.

Lemma length_lower (a : string) : String.length (lower a) = String.length a.
Proof. induction a as [|c a IH]; [reflexivity|]. cbn. now rewrite IH. Qed.

Lemma endswith_skip (a s suffix : string) :
  (String.length suffix <= String.length s)%nat ->
  endswith (a +:+ s) suffix = endswith s suffix.
Proof.
  intros Hlen. induction a as [|c a IH]; [reflexivity|].
  change (endswith (String c (a +:+ s)) suffix = endswith s suffix).
  cbn [endswith]. destruct (String.eqb_spec (String c (a +:+ s)) suffix) as [E|_].
  - exfalso. apply (f_equal String.length) in E. cbn [String.length] in E.
    rewrite length_app_str in E. lia.
  - exact IH.
Qed.

Lemma path_join_cases (d name : string) :
  path_join d name = name \/ path_join d name = d +:+ name \/
  path_join d name = d +:+ "/" +:+ name.
Proof.
  unfold path_join. destruct (String.prefix "/" name); [now left|].
  destruct d; [now left|].
  destruct (ends_with_slash _); [right; now left | right; now right].
Qed.

Lemma wants_stretch_file (d base ext : string) :
  String.length ext = 4%nat ->
  wants_stretch (path_join d (base +:+ ext)) = endswith (lower ext) ".vrt".
Proof.
  intros Hext. unfold wants_stretch.
  assert (Hl : (String.length ".vrt" <= String.length (lower ext))%nat)
    by (rewrite length_lower, Hext; cbn; lia).
  assert (Hb : endswith (lower base +:+ lower ext) ".vrt" = endswith (lower ext) ".vrt")
    by now apply endswith_skip.
  assert (Hl2 : (String.length ".vrt" <= String.length (lower base +:+ lower ext))%nat)
    by (rewrite length_app_str, length_lower, length_lower, Hext; cbn; lia).
  destruct (path_join_cases d (base +:+ ext)) as [-> | [-> | ->]].
  - now rewrite lower_app.
  - rewrite !lower_app. now rewrite endswith_skip.
  - rewrite !lower_app. rewrite endswith_skip.
    + now rewrite endswith_skip.
    + rewrite length_app_str. lia.
Qed.

Lemma app_str_assoc (a b c : string) : (a +:+ b) +:+ c = a +:+ (b +:+ c).
Proof.
  induction a as [|x a IH]; [reflexivity|].
  change (String x ((a +:+ b) +:+ c) = String x (a +:+ (b +:+ c))). now rewrite IH.
Qed.

Lemma index_tif_path assets mode a1 a2 prefix title box dir w p idx w' :
  SceneBrowserDock._crop_assets_to_index_tif assets mode a1 a2 prefix title box dir w
    = (Val (p, idx), w') ->
  p = path_join dir (prefix +:+ "_" +:+ w_uid w +:+ "_" +:+ mode +:+ ".tif").
Proof.
  unfold SceneBrowserDock._crop_assets_to_index_tif. intros H.
  bind_val H uid w1 H1. injection H1 as <- <-.
  bind_val H t1 w2 H2. bind_val H t2 w3 H3.
  bind_val H ds1 w4 H4. bind_val H ds2 w5 H5. bind_val H d1 w6 H6.
  bind_val H bounds w7 H7. bind_val H u8 w8 H8. bind_val H ds2m w9 H9.
  bind_val H b1 w10 H10. bind_val H d2m w11 H11. bind_val H b2 w12 H12.
  destruct (index_array prefix b1 b2) as [idx0|] eqn:Hidx; [|discriminate H].
  bind_val H u13 w13 H13. bind_val H u14 w14 H14. bind_val H u15 w15 H15.
  bind_val H u16 w16 H16. bind_val H u17 w17 H17.
  destruct (w_layer_valid w17 _); [|discriminate H].
  now injection H as <- <- <-.
Qed.

(** X9: the test [vrt.lower().endswith('.vrt')] by which a preview decides
    to start the percentile stretch separates the two pipelines: it holds
    for every path [_crop_assets_to_vrt] returns and fails for every path
    [_crop_assets_to_index_tif] returns, whatever the cache directory, the
    prefix, the uid and the mode are.  Band stacks always get the stretch
    task, index rasters never do. *)
Theorem stretch_route :
  (forall (assets : manifest) names prefix title box out_dir w p w',
     _crop_assets_to_vrt assets names prefix title box out_dir w = (Val p, w') ->
     wants_stretch p = true) /\
  (forall (assets : manifest) mode a1 a2 prefix title box out_dir w p idx w',
     SceneBrowserDock._crop_assets_to_index_tif assets mode a1 a2 prefix title box out_dir w
       = (Val (p, idx), w') ->
     wants_stretch p = false).
Proof.
  split.
  - intros assets names prefix title box out_dir w p w' H.
    unfold _crop_assets_to_vrt in H.
    bind_val H uid w1 H1. injection H1 as <- <-.
    bind_val H tifs w2 H2. bind_val H u3 w3 H3. bind_val H u4 w4 H4.
    destruct (w_layer_valid w4 _); [|discriminate H]. injection H as <- <-.
    rewrite <- (app_str_assoc "_" (w_uid w) ".vrt"), <- (app_str_assoc prefix _ ".vrt").
    now rewrite wants_stretch_file.
  - intros assets mode a1 a2 prefix title box out_dir w p idx w' H.
    apply index_tif_path in H as ->.
    rewrite <- (app_str_assoc "_" mode ".tif"), <- (app_str_assoc (w_uid w) _ ".tif"),
      <- (app_str_assoc "_" _ ".tif"), <- (app_str_assoc prefix _ ".tif").
    now rewrite wants_stretch_file.
Qed.

Lemma stretch_route_witness :
  wants_stretch "/p/s2_0f.vrt" = true.
Proof.
  apply (proj1 stretch_route s2_assets ["red"; "green"; "blue"] "s2" "S2 Natural | x"
           aoi "/p" world0 "/p/s2_0f.vrt"
           (snd (_crop_assets_to_vrt s2_assets ["red"; "green"; "blue"] "s2" "S2 Natural | x"
                   aoi "/p" world0))).
  vm_compute. reflexivity.
Defined.

(* ===================================================================== *)
(** * Further properties: search client, zoom, plugin object, locator *)
(* ===================================================================== *)

Lemma rstrip_snoc (c : ascii) (s : string) :
  rstrip c (s +:+ String c EmptyString) = rstrip c s.
Proof.
  induction s as [|x s IH].
  - change (rstrip c (String c EmptyString) = EmptyString). cbn.
    now rewrite Ascii.eqb_refl.
  - change (rstrip c (String x (s +:+ String c EmptyString)) = rstrip c (String x s)).
    cbn [rstrip]. now rewrite IH.
Qed.

Lemma rstrip_slash_end (s : string) : ends_with_slash (rstrip "/" s) = false.
Proof.
  induction s as [|x s IH]; [reflexivity|]. cbn [rstrip].
  destruct (rstrip "/" s) as [|y r] eqn:E.
  - destruct (Ascii.eqb x "/") eqn:Ex; [reflexivity|]. cbn. exact Ex.
  - exact IH.
Qed.

Lemma rstrip_keeps (s : string) : ends_with_slash s = false -> rstrip "/" s = s.
Proof.
  induction s as [|x s IH]; [reflexivity|]. intros H. cbn [rstrip].
  destruct s as [|y s'].
  - cbn in H. cbn. now rewrite H.
  - change (ends_with_slash (String y s') = false) in H. now rewrite (IH H).
Qed.

(** X10: the search endpoint of [StacClient].  Trailing slashes of the
    configured base URL do not matter: one more slash gives the same
    stored base and the same search URL; the stored base never ends in a
    slash, so the URL has exactly the one slash before "search"; a base
    without a trailing slash is kept as given. *)
Theorem stac_search_url (u : string) :
  StacClient.search_url (u +:+ "/") = StacClient.search_url u /\
  ends_with_slash (StacClient.base_url u) = false /\
  (ends_with_slash u = false -> StacClient.search_url u = u +:+ "/search").
Proof.
  unfold StacClient.search_url, StacClient.base_url. split; [|split].
  - now rewrite rstrip_snoc.
  - apply rstrip_slash_end.
  - intros H. now rewrite rstrip_keeps.
Qed.

Lemma stac_search_url_witness :
  StacClient.search_url "https://earth-search.aws.element84.com/v1"
  = "https://earth-search.aws.element84.com/v1/search".
Proof.
  apply (proj2 (proj2 (stac_search_url "https://earth-search.aws.element84.com/v1"))).
  reflexivity.
Defined.

(** X11: [_thumb_icon_size_from_level] never raises and its floating
    point arithmetic is exact enough: for every integer level the result
    is the integer [160 + floor((l - 1) * 260 / 9)] with [l] the level
    clamped to [1..10]; so it lies in [160, 420], levels at or below 1 give
    160, levels at or above 10 give 420, and a larger level never gives a
    smaller icon. *)
Theorem thumb_icon_size (level : Z) :
  let l := Z.max 1 (Z.min 10 level) in
  let px := (160 + ((l - 1) * 260) / 9)%Z in
  _thumb_icon_size_from_level level = Some px /\
  (160 <= px <= 420)%Z /\
  ((level <= 1)%Z -> px = 160%Z) /\ ((10 <= level)%Z -> px = 420%Z) /\
  (forall level', (level <= level')%Z ->
     exists px', _thumb_icon_size_from_level level' = Some px' /\ (px <= px')%Z).
Proof.
  assert (Hval : forall lv,
            _thumb_icon_size_from_level lv
            = Some (160 + ((Z.max 1 (Z.min 10 lv) - 1) * 260) / 9)%Z).
  { intros lv. unfold _thumb_icon_size_from_level. cbv zeta.
    remember (Z.max 1 (Z.min 10 lv)) as k eqn:Hk.
    assert (Hc : (k = 1 \/ k = 2 \/ k = 3 \/ k = 4 \/ k = 5 \/ k = 6 \/ k = 7 \/ k = 8 \/
                  k = 9 \/ k = 10)%Z) by lia.
    clear Hk.
    destruct Hc as [->|[->|[->|[->|[->|[->|[->|[->|[->| ->]]]]]]]]]; vm_compute; reflexivity. }
  intros l px. split; [apply Hval|].
  assert (Hl : (1 <= l <= 10)%Z) by (unfold l; lia).
  assert (Hq : (0 <= ((l - 1) * 260) / 9 <= 260)%Z).
  { split; [apply Z.div_pos; lia|]. apply Z.div_le_upper_bound; lia. }
  split; [unfold px; lia|]. split; [|split].
  - intros H. unfold px, l. now replace (Z.max 1 (Z.min 10 level)) with 1%Z by lia.
  - intros H. unfold px, l. now replace (Z.max 1 (Z.min 10 level)) with 10%Z by lia.
  - intros level' Hle. eexists. split; [apply Hval|]. unfold px, l.
    apply Z.add_le_mono_l, Z.div_le_mono; lia.
Qed.

Lemma thumb_icon_size_witness :
  _thumb_icon_size_from_level 5 = Some 275%Z /\
  exists px', _thumb_icon_size_from_level 6 = Some px' /\ (275 <= px')%Z.
Proof.
  destruct (thumb_icon_size 5) as (Hv & _ & _ & _ & Hm).
  split; [exact Hv|]. apply (Hm 6%Z). lia.
Defined.

(** ** The plugin object *)

Lemma docked_app evs1 evs2 held :
  SceneBrowserPlugin.docked (evs1 ++ evs2) held
  = SceneBrowserPlugin.docked evs2 (SceneBrowserPlugin.docked evs1 held).
Proof.
  revert held. induction evs1 as [|ev evs1 IH]; intros held; [reflexivity|].
  destruct ev; cbn [app SceneBrowserPlugin.docked]; apply IH.
Qed.

Lemma step_docked c self :
  let held := match SceneBrowserPlugin.dock self with Some d => [d] | None => [] end in
  SceneBrowserPlugin.docked (snd (SceneBrowserPlugin.step c self)) held
  = match SceneBrowserPlugin.dock (fst (SceneBrowserPlugin.step c self)) with
    | Some d => [d]
    | None => []
    end.
Proof.
  destruct self as [a d s]. destruct c; cbn.
  - reflexivity.
  - destruct a as [a|], d as [d|]; cbn; rewrite ?Nat.eqb_refl; reflexivity.
  - destruct d as [d|]; reflexivity.
Qed.

Lemma run_calls_docked calls : forall self,
  SceneBrowserPlugin.docked (snd (SceneBrowserPlugin.run_calls calls self))
    (match SceneBrowserPlugin.dock self with Some d => [d] | None => [] end)
  = match SceneBrowserPlugin.dock (fst (SceneBrowserPlugin.run_calls calls self)) with
    | Some d => [d]
    | None => []
    end.
Proof.
  induction calls as [|c calls IH]; intros self; [reflexivity|].
  cbn [SceneBrowserPlugin.run_calls].
  pose proof (step_docked c self) as Hs. cbv zeta in Hs.
  destruct (SceneBrowserPlugin.step c self) as [self1 evs1]. cbn [fst snd] in Hs.
  specialize (IH self1).
  destruct (SceneBrowserPlugin.run_calls calls self1) as [self2 evs2]. cbn [fst snd] in *.
  now rewrite docked_app, Hs.
Qed.

(** X12: whatever sequence of [initGui], [open_dock] and [unload] calls
    the host makes on a new plugin object, the main window holds at most
    one dock widget of the plugin, and it holds one exactly when the
    [dock] field is set, namely that one: [open_dock] creates a dock only
    when there is none, and [unload] removes the one there is. *)
Theorem at_most_one_dock (calls : list SceneBrowserPlugin.call) :
  let out := SceneBrowserPlugin.run_calls calls SceneBrowserPlugin.init in
  SceneBrowserPlugin.docked (snd out) []
  = match SceneBrowserPlugin.dock (fst out) with Some d => [d] | None => [] end /\
  (length (SceneBrowserPlugin.docked (snd out) []) <= 1)%nat.
Proof.
  cbv zeta. pose proof (run_calls_docked calls SceneBrowserPlugin.init) as H.
  cbn [SceneBrowserPlugin.dock SceneBrowserPlugin.init] in H. split; [exact H|].
  rewrite H. destruct (SceneBrowserPlugin.dock _); cbn; lia.
Qed.

(** ** The asset locator, applied twice *)

Lemma startswith_slash_false (s p : string) c :
  c <> "/"%char -> startswith (String "/" s) (String c p) = false.
Proof.
  intros H. unfold startswith. cbn.
  destruct (Ascii.ascii_dec c "/") as [E|_]; [contradiction | reflexivity].
Qed.

Lemma src_path_shape (href : string) :
  (src_path href = href /\ String.eqb href "" = false /\ startswith href "s3://" = false /\
   startswith href "http://" || startswith href "https://" = false) \/
  exists s, src_path href = String "/" s.
Proof.
  unfold src_path.
  destruct (String.eqb href "") eqn:E0; [right; now eexists|].
  destruct (startswith href "s3://") eqn:E1; [right; now eexists|].
  destruct (startswith href "http://" || startswith href "https://") eqn:E2;
    [right; now eexists|].
  left. now repeat split.
Qed.

Lemma src_path_fixed (p : string) :
  String.eqb p "" = false -> startswith p "s3://" = false ->
  startswith p "http://" || startswith p "https://" = false ->
  forall w, _src_from_href p w = (Val p, w).
Proof.
  intros E0 E1 E2 w. rewrite src_from_href_eq. unfold src_path, src_config.
  rewrite E0, E1, E2. now rewrite set_config_same.
Qed.

(** X13: [_src_from_href] is idempotent.  A path it has produced is
    handed back unchanged by a second application, and that second
    application touches nothing, not even the GDAL configuration. *)
Theorem src_from_href_idempotent (href : string) (w : world) :
  _src_from_href (src_path href) w = (Val (src_path href), w).
Proof.
  destruct (src_path_shape href) as [(-> & E0 & E1 & E2)|(s & ->)].
  - now apply src_path_fixed.
  - apply src_path_fixed; [reflexivity | |].
    + now apply startswith_slash_false.
    + rewrite !startswith_slash_false by discriminate. reflexivity.
Qed.

(* ===================================================================== *)
(** * Further properties: ordering and signing of the scene list *)
(* ===================================================================== *)

(** ** String order *)

Lemma ascii_compare_refl (c : ascii) : Ascii.compare c c = Eq.
Proof. unfold Ascii.compare. apply N.compare_refl. Qed.

Lemma ascii_compare_lt_trans (a b c : ascii) :
  Ascii.compare a b = Lt -> Ascii.compare b c = Lt -> Ascii.compare a c = Lt.
Proof.
  unfold Ascii.compare. rewrite !N.compare_lt_iff. apply N.lt_trans.
Qed.

Lemma str_compare_refl (s : string) : String.compare s s = Eq.
Proof.
  induction s as [|c s IH]; [reflexivity|]. cbn. now rewrite ascii_compare_refl.
Qed.

Lemma str_leb_trans (a : string) : forall b c,
  String.leb a b = true -> String.leb b c = true -> String.leb a c = true.
Proof.
  unfold String.leb.
  induction a as [|x a IH]; intros [|y b] [|z c]; cbn; try reflexivity; try discriminate.
  destruct (Ascii.compare x y) eqn:Exy; try discriminate;
    destruct (Ascii.compare y z) eqn:Eyz; try discriminate; intros H1 H2.
  - apply Ascii.compare_eq_iff in Exy, Eyz. subst. rewrite ascii_compare_refl.
    now apply (IH b c).
  - apply Ascii.compare_eq_iff in Exy. subst. now rewrite Eyz.
  - apply Ascii.compare_eq_iff in Eyz. subst. now rewrite Exy.
  - now rewrite (ascii_compare_lt_trans _ _ _ Exy Eyz).
Qed.

Lemma str_ltb_leb (a b : string) : String.ltb a b = true -> String.leb a b = true.
Proof. unfold String.ltb, String.leb. now destruct (String.compare a b). Qed.

Lemma str_ltb_false_leb (a b : string) : String.ltb a b = false -> String.leb b a = true.
Proof.
  unfold String.ltb, String.leb. rewrite (String.compare_antisym a b).
  now destruct (String.compare b a).
Qed.

Lemma str_ltb_irrefl (a : string) : String.ltb a a = false.
Proof. unfold String.ltb. now rewrite str_compare_refl. Qed.

Lemma str_leb_empty (a : string) : String.leb a "" = true -> a = "".
Proof. destruct a; [reflexivity | discriminate]. Qed.

(** ** The stable descending sort *)

Section SortDesc.
Context {A : Type} (key : A -> string).

Lemma insert_desc_perm x l : Permutation (insert_desc key x l) (x :: l).
Proof.
  induction l as [|y ys IH]; cbn; [reflexivity|].
  destruct (String.ltb (key x) (key y)); [|reflexivity].
  rewrite IH. apply perm_swap.
Qed.

Lemma insert_desc_Forall (P : A -> Prop) x l :
  P x -> Forall P l -> Forall P (insert_desc key x l).
Proof.
  intros Hx. induction 1 as [|y ys Hy Hys IH]; cbn; [now repeat constructor|].
  destruct (String.ltb (key x) (key y)); repeat constructor; assumption.
Qed.

Lemma insert_desc_sorted x l :
  StronglySorted (newer_first key) l -> StronglySorted (newer_first key) (insert_desc key x l).
Proof.
  induction 1 as [|y ys Hs IH Hy]; cbn; [repeat constructor|].
  destruct (String.ltb (key x) (key y)) eqn:E.
  - constructor; [exact IH|]. apply insert_desc_Forall; [|exact Hy].
    now apply str_ltb_leb.
  - apply str_ltb_false_leb in E. constructor; [now constructor|].
    constructor; [exact E|]. eapply Forall_impl; [exact Hy|].
    intros z Hz. unfold newer_first in *. eapply str_leb_trans; eauto.
Qed.

Lemma insert_desc_filter (k : string) x l :
  List.filter (fun a => String.eqb (key a) k) (insert_desc key x l)
  = List.filter (fun a => String.eqb (key a) k) (x :: l).
Proof.
  induction l as [|y ys IH]; [reflexivity|]. cbn [insert_desc].
  destruct (String.ltb (key x) (key y)) eqn:E; [|reflexivity].
  cbn [List.filter] in *. rewrite IH.
  destruct (String.eqb_spec (key x) k) as [Hx|_]; [|reflexivity].
  destruct (String.eqb_spec (key y) k) as [Hy|_]; [|reflexivity].
  rewrite Hx, Hy, str_ltb_irrefl in E. discriminate E.
Qed.

Lemma sort_desc_spec (l : list A) :
  Permutation (sort_desc key l) l /\
  StronglySorted (newer_first key) (sort_desc key l) /\
  forall k, List.filter (fun a => String.eqb (key a) k) (sort_desc key l)
            = List.filter (fun a => String.eqb (key a) k) l.
Proof.
  induction l as [|x l (IHp & IHs & IHf)]; cbn [sort_desc fold_right].
  - split; [reflexivity|]. split; [constructor | reflexivity].
  - fold (sort_desc key l). split; [|split].
    + rewrite insert_desc_perm. now constructor.
    + now apply insert_desc_sorted.
    + intros k. rewrite insert_desc_filter. cbn [List.filter]. now rewrite IHf.
Qed.

End SortDesc.

Lemma sorted_tail_undated (l1 : list feature) a l2 :
  StronglySorted (newer_first _dt) (l1 ++ a :: l2) -> _dt a = "" ->
  Forall (fun b => _dt b = "") l2.
Proof.
  induction l1 as [|x l1 IH]; cbn [app]; intros Hs Ha.
  - apply StronglySorted_inv in Hs as [_ HF]. eapply Forall_impl; [exact HF|].
    intros b Hb. unfold newer_first in Hb. rewrite Ha in Hb. now apply str_leb_empty.
  - apply StronglySorted_inv in Hs as [Hs _]. now apply IH.
Qed.

(** X14: [_sorted_features] hands back the same features (none lost, none
    duplicated), newest first by the date key [datetime], else
    [start_datetime], else "", compared as strings; features with equal
    keys keep the order the catalogue returned them in; and features
    without any date come after all dated ones. *)
Theorem sorted_features_spec (feats : list feature) :
  let out := _sorted_features feats in
  Permutation out feats /\
  StronglySorted (fun a b => String.leb (_dt b) (_dt a) = true) out /\
  (forall k, List.filter (fun f => String.eqb (_dt f) k) out
             = List.filter (fun f => String.eqb (_dt f) k) feats) /\
  (forall l1 a l2, out = l1 ++ a :: l2 -> _dt a = "" ->
     Forall (fun b => fst (_feature_label b) = "---- -- --") l2).
Proof.
  cbv zeta. unfold _sorted_features.
  destruct (sort_desc_spec _dt feats) as (Hp & Hs & Hf).
  split; [exact Hp|]. split; [exact Hs|]. split; [exact Hf|].
  intros l1 a l2 Heq Ha. rewrite Heq in Hs.
  eapply Forall_impl; [exact (sorted_tail_undated _ _ _ Hs Ha)|].
  intros b Hb. unfold _feature_label. cbn [fst]. now rewrite Hb.
Qed.

Lemma sorted_features_spec_witness :
  let feats := [scene "a" "2024-01-05T10:00:00Z" ∅; undated_scene "u";
                scene "b" "2024-03-01T10:00:00Z" ∅; scene "c" "2024-01-05T10:00:00Z" ∅;
                undated_scene "v"] in
  map f_id (_sorted_features feats) = ["b"; "a"; "c"; "u"; "v"] /\
  Forall (fun b => fst (_feature_label b) = "---- -- --") [undated_scene "v"].
Proof.
  intros feats. split; [vm_compute; reflexivity|].
  apply (proj2 (proj2 (proj2 (sorted_features_spec feats)))
           [scene "b" "2024-03-01T10:00:00Z" ∅; scene "a" "2024-01-05T10:00:00Z" ∅;
            scene "c" "2024-01-05T10:00:00Z" ∅]
           (undated_scene "u") [undated_scene "v"]).
  - vm_compute. reflexivity.
  - vm_compute. reflexivity.
Defined.

(** ** Tokens *)

Lemma pc_get_token_hit http cache id key tok :
  strip_ws id = key -> key <> "" -> cache !! key = Some tok ->
  _pc_get_token http cache id = (Val tok, cache).
Proof.
  intros Hk Hne Hc. unfold _pc_get_token. cbv zeta. rewrite Hk.
  destruct (String.eqb_spec key ""); [contradiction|]. now rewrite Hc.
Qed.

Lemma pc_get_token_again http cache id tok c :
  _pc_get_token http cache id = (Val tok, c) ->
  forall http', _pc_get_token http' c id = (Val tok, c).
Proof.
  intros Ht http'. unfold _pc_get_token in *. cbv zeta in *.
  destruct (String.eqb (strip_ws id) ""); [now injection Ht as <- <-|].
  destruct (cache !! strip_ws id) as [t|] eqn:Hc.
  - injection Ht as <- <-. now rewrite Hc.
  - destruct (http _) as [t|e]; [|discriminate Ht]. injection Ht as <- <-.
    now rewrite lookup_insert_eq.
Qed.

(** X15: the token cache of [_pc_get_token].  A collection id that is
    blank after stripping gives the empty token without a request and
    without touching the cache.  Otherwise a call that returns a token
    leaves it cached under the stripped id, changing at most that entry,
    and every later call for an id that strips to the same key returns the
    same token from the cache whatever the token service would answer then.
    A call that fails leaves the cache as it was. *)
Theorem pc_token_cache (http_get : string -> res string) (cache : gmap string string)
    (collection_id : string) :
  let key := strip_ws collection_id in
  (key = "" -> _pc_get_token http_get cache collection_id = (Val "", cache)) /\
  (forall tok cache',
     key <> "" -> _pc_get_token http_get cache collection_id = (Val tok, cache') ->
     cache' !! key = Some tok /\
     (forall k, k <> key -> cache' !! k = cache !! k) /\
     (forall http_get' id', strip_ws id' = key ->
        _pc_get_token http_get' cache' id' = (Val tok, cache'))) /\
  (forall e cache',
     _pc_get_token http_get cache collection_id = (Raise e, cache') -> cache' = cache).
Proof.
  cbv zeta. split; [|split].
  - intros Hk. unfold _pc_get_token. cbv zeta. now rewrite Hk.
  - intros tok cache' Hne H.
    assert (Hc : cache' !! strip_ws collection_id = Some tok /\
                 forall k, k <> strip_ws collection_id -> cache' !! k = cache !! k).
    { unfold _pc_get_token in H. cbv zeta in H.
      destruct (String.eqb_spec (strip_ws collection_id) ""); [contradiction|].
      destruct (cache !! strip_ws collection_id) as [t|] eqn:Hc.
      - injection H as <- <-. now split.
      - destruct (http_get _) as [t|e]; [|discriminate H]. injection H as <- <-.
        split; [apply lookup_insert_eq|]. intros k Hk. now apply lookup_insert_ne. }
    destruct Hc as [Hc Hother]. split; [exact Hc|]. split; [exact Hother|].
    intros http' id' Hid. now apply (pc_get_token_hit _ _ _ (strip_ws collection_id)).
  - intros e cache' H. unfold _pc_get_token in H. cbv zeta in H.
    destruct (String.eqb (strip_ws collection_id) ""); [discriminate H|].
    destruct (cache !! strip_ws collection_id); [discriminate H|].
    destruct (http_get _); [discriminate H|]. now injection H.
Qed.

Lemma pc_token_cache_witness :
  _pc_get_token no_service {[ "landsat-c2-l2" := "sv=1&sig=abc" ]} "landsat-c2-l2 "
  = (Val "sv=1&sig=abc", {[ "landsat-c2-l2" := "sv=1&sig=abc" ]}) /\
  _pc_get_token no_service ∅ "  " = (Val "", ∅).
Proof.
  destruct (pc_token_cache (token_service "sv=1&sig=abc") ∅ " landsat-c2-l2")
    as (_ & Hhit & _).
  destruct (Hhit "sv=1&sig=abc" {[ "landsat-c2-l2" := "sv=1&sig=abc" ]})
    as (_ & _ & Hlater).
  - vm_compute. discriminate.
  - vm_compute. reflexivity.
  - split.
    + apply Hlater. vm_compute. reflexivity.
    + apply (proj1 (pc_token_cache no_service ∅ "  ")). vm_compute. reflexivity.
Defined.

(** ** Signing *)

Lemma has_char_app (c : ascii) (a b : string) : has_char c (a +:+ String c b) = true.
Proof.
  induction a as [|x a IH].
  - change (has_char c (String c b) = true). cbn. now rewrite Ascii.eqb_refl.
  - change (has_char c (String x (a +:+ String c b)) = true). cbn [has_char].
    rewrite IH. apply orb_true_r.
Qed.

Lemma sign_asset_twice t1 t2 a : sign_asset t2 (sign_asset t1 a) = sign_asset t1 a.
Proof.
  unfold sign_asset at 2 3. destruct (a !! "href") as [h|] eqn:Eh.
  - destruct (String.eqb h "" || has_char "?" h) eqn:Ec.
    + unfold sign_asset. now rewrite Eh, Ec.
    + unfold sign_asset. rewrite lookup_insert_eq.
      change (h +:+ "?" +:+ t1) with (h +:+ String "?" t1).
      rewrite has_char_app. now rewrite orb_true_r.
  - unfold sign_asset. now rewrite Eh.
Qed.

Lemma sign_asset_other t a k : k <> "href" -> sign_asset t a !! k = a !! k.
Proof.
  intros Hk. unfold sign_asset. destruct (a !! "href") as [h|]; [|reflexivity].
  destruct (_ || _); [reflexivity|]. now apply lookup_insert_ne.
Qed.

Lemma sign_asset_signed t a h :
  a !! "href" = Some h -> has_char "?" h = true -> sign_asset t a = a.
Proof. intros Eh Hc. unfold sign_asset. now rewrite Eh, Hc, orb_true_r. Qed.

Lemma sign_feature_twice t1 t2 f : sign_feature t2 (sign_feature t1 f) = sign_feature t1 f.
Proof.
  unfold sign_feature. cbn [f_id f_properties f_assets]. f_equal.
  rewrite <- map_fmap_compose. apply map_fmap_ext. intros k a _.
  apply sign_asset_twice.
Qed.

Lemma same_but_hrefs_refl f : same_but_hrefs f f.
Proof. repeat split. intros name a Ha. exists a. now repeat split. Qed.

Lemma sign_feature_same t f : same_but_hrefs f (sign_feature t f).
Proof.
  unfold same_but_hrefs, sign_feature. cbn [f_id f_properties f_assets].
  split; [reflexivity|]. split; [reflexivity|]. split; [apply dom_fmap_L|].
  intros name a Ha. exists (sign_asset t a). rewrite lookup_fmap, Ha.
  split; [reflexivity|]. split.
  - intros k Hk. now apply sign_asset_other.
  - intros h Hh Hc. eapply sign_asset_signed; eauto.
Qed.

(** X16: [_pc_sign_features] signs once.  Run again on its own result for
    the same collection, it returns that result unchanged, whatever the
    token service answers by then: the token comes from the cache and an
    href that carries a query string is never touched, so no href gets a
    second token.  Signing keeps the number and order of the features,
    their ids, properties and asset names, and every asset entry other
    than "href"; an href that already had a "?" keeps its whole asset. *)
Theorem pc_sign_features_once (http_get : string -> res string)
    (cache : gmap string string) (features : list feature) (collection_id : string)
    (signed : list feature) (cache' : gmap string string) :
  _pc_sign_features http_get cache features collection_id = (Val signed, cache') ->
  (forall http_get',
     _pc_sign_features http_get' cache' signed collection_id = (Val signed, cache')) /\
  Forall2 same_but_hrefs features signed.
Proof.
  unfold _pc_sign_features. intros H.
  destruct (_pc_get_token http_get cache collection_id) as [[tok|e] c] eqn:Ht;
    [|discriminate H].
  injection H as <- <-.
  pose proof (pc_get_token_again _ _ _ _ _ Ht) as Hagain.
  split.
  - intros http'. rewrite Hagain. destruct (String.eqb tok ""); [reflexivity|].
    f_equal. f_equal. rewrite map_map. apply map_ext. intros f. apply sign_feature_twice.
  - destruct (String.eqb tok "").
    + induction features; constructor; [apply same_but_hrefs_refl | assumption].
    + induction features; cbn; constructor; [apply sign_feature_same | assumption].
Qed.

Lemma pc_sign_features_once_witness :
  let fs := [scene "LC09" "2024-03-01T10:00:00Z"
               {[ "red" := asset_at "https://pc.example/B4.TIF" ]}] in
  let out := _pc_sign_features (token_service "sv=1") ∅ fs "landsat-c2-l2" in
  _pc_sign_features no_service (snd out)
    [scene "LC09" "2024-03-01T10:00:00Z"
       {[ "red" := asset_at "https://pc.example/B4.TIF?sv=1" ]}] "landsat-c2-l2"
  = (Val [scene "LC09" "2024-03-01T10:00:00Z"
            {[ "red" := asset_at "https://pc.example/B4.TIF?sv=1" ]}], snd out).
Proof.
  intros fs out.
  destruct (pc_sign_features_once (token_service "sv=1") ∅ fs "landsat-c2-l2"
              [scene "LC09" "2024-03-01T10:00:00Z"
                 {[ "red" := asset_at "https://pc.example/B4.TIF?sv=1" ]}] (snd out))
    as [Hagain _].
  - vm_compute. reflexivity.
  - apply Hagain.
Defined.

(* ===================================================================== *)
(** * Further properties: the band statistics estimator *)
(* ===================================================================== *)



